(** * Gallery renderer and lightbox: a shallow embedding

    The browser side of the site is two ES modules: [assets/lightbox.js]
    (a modal image viewer) and [assets/gallery.js] (home page and project
    page rendering from a JSON manifest).  This file embeds both as
    functions over an explicit document state and proves the properties
    the specification states about them.  The offline build script is not
    part of the sources at hand and is not modelled.

    Conventions.
    - A JavaScript string is a [string]: the bytes of its UTF-8 encoding.
      Every string operation the code uses (concatenation, [startsWith],
      [endsWith], [split("/")], anchored literal patterns) commutes with
      that encoding.
    - [undefined] and [null] are [None]; a value that is there is [Some].
    - A JavaScript number that holds an integer is a [Z].
    - An uncaught exception (a rejected promise for an [async] function)
      is the [Thrown] completion; it carries the state reached so far. *)

From Stdlib Require Import ZArith Lia Ascii.
From stdpp Require Import base option list sorting strings gmap.

Local Open Scope Z_scope.

(** ** Completions *)

Inductive Completion (A : Type) : Type :=
| Returned (a : A)
| Thrown (a : A).
Arguments Returned {A} a.
Arguments Thrown {A} a.

(** ** JavaScript string primitives *)

Module Js.

(** [x || d] on strings: the empty string is falsy, so is a missing one. *)
Definition orElse (x : option string) (d : string) : string :=
  match x with
  | Some s => if decide (s = "") then d else s
  | None => d
  end.

(** Truthiness of an optional string. *)
Definition truthy (x : option string) : bool :=
  match x with
  | Some s => bool_decide (s <> "")
  | None => false
  end.

(** [`${x}`] for a string or [null]. *)
Definition interpolate (x : option string) : string := default "null" x.

Definition startsWith (s p : string) : bool := String.prefix p s.

Definition endsWith (s p : string) : bool :=
  String.prefix (String.rev p) (String.rev s).

Fixpoint drop (n : nat) (s : string) : string :=
  match n, s with
  | S n', String _ r => drop n' r
  | _, _ => s
  end.

(** [s.split("/")], accumulating the current segment in reverse. *)
Fixpoint split_go (sep : ascii) (cur : string) (s : string) : list string :=
  match s with
  | EmptyString => [String.rev cur]
  | String c r =>
      if decide (c = sep) then String.rev cur :: split_go sep EmptyString r
      else split_go sep (String c cur) r
  end.
Definition split (sep : ascii) (s : string) : list string :=
  split_go sep EmptyString s.

(** [.filter(Boolean)] on a list of strings. *)
Definition filterBoolean (l : list string) : list string :=
  List.filter (fun s => bool_decide (s <> "")) l.

(** ASCII case folding, as the [i] flag of a non-unicode regular
    expression applies it to the letters of an ASCII pattern. *)
Definition lowerAscii (c : ascii) : ascii :=
  let n := N_of_ascii c in
  if ((65 <=? n) && (n <=? 90))%N then ascii_of_N (n + 32) else c.

Fixpoint lowerPrefix (n : nat) (s : string) : string :=
  match n, s with
  | S n', String c r => String (lowerAscii c) (lowerPrefix n' r)
  | _, _ => EmptyString
  end.

(** White space as [trim] and [\s] see it: WhiteSpace and LineTerminator
    of ECMAScript, here by the bytes of their UTF-8 encodings.
    One byte: TAB, LF, VT, FF, CR, SP. *)
Definition ws1 (a : ascii) : bool :=
  let n := N_of_ascii a in
  ((9 <=? n) && (n <=? 13) || (n =? 32))%N.

(** Two bytes: U+00A0. *)
Definition ws2 (a b : ascii) : bool :=
  ((N_of_ascii a =? 194) && (N_of_ascii b =? 160))%N.

(** Three bytes: U+1680, U+2000..U+200A, U+2028, U+2029, U+202F,
    U+205F, U+3000, U+FEFF. *)
Definition ws3 (a b c : ascii) : bool :=
  let x := N_of_ascii a in
  let y := N_of_ascii b in
  let z := N_of_ascii c in
  ((x =? 225) && (y =? 154) && (z =? 128)
   || (x =? 226) && (y =? 128)
      && ((128 <=? z) && (z <=? 138) || (z =? 168) || (z =? 169) || (z =? 175))
   || (x =? 226) && (y =? 129) && (z =? 159)
   || (x =? 227) && (y =? 128) && (z =? 128)
   || (x =? 239) && (y =? 187) && (z =? 191))%N.

Fixpoint trimStart (s : string) : string :=
  match s with
  | EmptyString => EmptyString
  | String a r =>
      if ws1 a then trimStart r else
      match r with
      | EmptyString => s
      | String b r2 =>
          if ws2 a b then trimStart r2 else
          match r2 with
          | EmptyString => s
          | String c r3 => if ws3 a b c then trimStart r3 else s
          end
      end
  end.

(** [trimStart] on the reversed string: the bytes of a trailing white
    space character come last byte first. *)
Fixpoint trimStartRev (s : string) : string :=
  match s with
  | EmptyString => EmptyString
  | String c r =>
      if ws1 c then trimStartRev r else
      match r with
      | EmptyString => s
      | String b r2 =>
          if ws2 b c then trimStartRev r2 else
          match r2 with
          | EmptyString => s
          | String a r3 => if ws3 a b c then trimStartRev r3 else s
          end
      end
  end.

Definition trimEnd (s : string) : string :=
  String.rev (trimStartRev (String.rev s)).

Definition trim (s : string) : string := trimEnd (trimStart s).

(** [s.replace(/\s+/g, "-")]: every maximal run of white space becomes
    one dash.  [inRun] says that the previous character was white space. *)
Fixpoint dashRuns (inRun : bool) (s : string) : string :=
  let dash (k : string) := if inRun then k else String "-" k in
  match s with
  | EmptyString => EmptyString
  | String a r =>
      if ws1 a then dash (dashRuns true r) else
      match r with
      | EmptyString => s
      | String b r2 =>
          if ws2 a b then dash (dashRuns true r2) else
          match r2 with
          | EmptyString => String a (dashRuns false r)
          | String c r3 =>
              if ws3 a b c then dash (dashRuns true r3)
              else String a (dashRuns false r)
          end
      end
  end.

End Js.

(** ** What the host supplies

    [String.prototype.toLowerCase] is Unicode case mapping and
    [String.prototype.localeCompare] is the collation of the viewer's
    locale: neither is fixed by the program, so the development is
    parametric in both.  [localeCompare a b] is negative, zero or positive
    as [a] sorts before, with or after [b]. *)

Class Host : Type := {
  toLowerCase : string -> string;
  localeCompare : string -> string -> Z;
}.

(** The law of a collation that the ordering result needs: swapping the
    operands flips the sign. *)
Definition collation_antisym `{Host} : Prop :=
  forall a b : string, Z.sgn (localeCompare a b) = - Z.sgn (localeCompare b a).

(** A host for closed examples: ASCII lowercasing and comparison by
    bytes.  Both agree with every browser on lowercase ASCII text. *)
Fixpoint asciiLower (s : string) : string :=
  match s with
  | EmptyString => EmptyString
  | String c r => String (Js.lowerAscii c) (asciiLower r)
  end.

Definition byteCompare (a b : string) : Z :=
  match String.compare a b with
  | Lt => -1
  | Eq => 0
  | Gt => 1
  end.

Definition asciiHost : Host :=
  {| toLowerCase := asciiLower; localeCompare := byteCompare |}.

(** ** Manifest data (generated/gallery.json)

    The manifest as the specification types it: a field holds a JSON
    string (or an array of entries) or is missing. *)

Record Image : Type := {
  srcThumb : option string;
  srcLarge : option string;
  alt : option string;
}.

Record Video : Type := {
  kind : option string;
  url : option string;
}.

Record Phase : Type := {
  images : option (list Image);
  videos : option (list Video);
}.

Record Phases : Type := {
  renderings : option Phase;
  before : option Phase;
  during : option Phase;
  after : option Phase;
}.

Record Project : Type := {
  slug : string;
  title : option string;
  location : option string;
  date : option string;
  projectType : option string;
  scope : option string;
  client : option string;
  status : option string;
  buildingArea : option string;
  notes : option string;
  summary : option string;
  sortKey : option string;
  coverThumb : option string;
  phases : option Phases;
}.

Record Manifest : Type := {
  projects : option (list Project);
}.

(** ** assets/lightbox.js *)

Module Lightbox.

(** An entry of the array handed to [open]: [srcLarge] is read as a
    string, [alt] may be missing. *)
Record Item : Type := {
  itemLarge : string;
  itemThumb : string;
  itemAlt : option string;
}.

(** The closure variables [items] and [idx], and the properties of the
    overlay, the image and the buttons that the functions write. *)
Record State : Type := {
  items : list Item;
  idx : Z;
  imgSrc : string;
  imgAlt : string;
  prevDisplay : string;
  nextDisplay : string;
  overlayOpen : bool;
  bodyOverflow : string;
}.

(** [createLightbox]: [items = []], [idx = 0]; the page as it is. *)
Definition createLightbox (src0 alt0 prev0 next0 overflow0 : string)
    (open0 : bool) : State :=
  {| items := []; idx := 0; imgSrc := src0; imgAlt := alt0;
     prevDisplay := prev0; nextDisplay := next0;
     overlayOpen := open0; bodyOverflow := overflow0 |}.

(** [items[i]] for an integer [i]: [undefined] outside the array. *)
Definition at_index (l : list Item) (i : Z) : option Item :=
  if i <? 0 then None else l !! Z.to_nat i.

Definition len (l : list Item) : Z := Z.of_nat (length l).

(** The assignments of [render] for the entry [it]. *)
Definition display (it : Item) (s : State) : State :=
  let d := if 1 <? len (items s) then "block" else "none" in
  {| items := items s; idx := idx s;
     imgSrc := itemLarge it;
     imgAlt := Js.orElse (itemAlt it) "";
     prevDisplay := d; nextDisplay := d;
     overlayOpen := overlayOpen s;
     bodyOverflow := bodyOverflow s |}.

(** [render]: reading [.srcLarge] of [undefined] throws a TypeError. *)
Definition render (s : State) : Completion State :=
  if decide (items s = []) then Returned s
  else
    match at_index (items s) (idx s) with
    | None => Thrown s
    | Some it => Returned (display it s)
    end.

Definition set_items_idx (l : list Item) (i : Z) (s : State) : State :=
  {| items := l; idx := i; imgSrc := imgSrc s; imgAlt := imgAlt s;
     prevDisplay := prevDisplay s; nextDisplay := nextDisplay s;
     overlayOpen := overlayOpen s; bodyOverflow := bodyOverflow s |}.

Definition set_open (o : bool) (ov : string) (s : State) : State :=
  {| items := items s; idx := idx s; imgSrc := imgSrc s; imgAlt := imgAlt s;
     prevDisplay := prevDisplay s; nextDisplay := nextDisplay s;
     overlayOpen := o; bodyOverflow := ov |}.

(** [open(newItems, startIndex = 0)].  The start index is an integer:
    the caller, a thumbnail's click handler, passes an array index. *)
Definition open (newItems : option (list Item)) (startIndex : option Z)
    (s : State) : Completion State :=
  let l := default [] newItems in
  let start := default 0 startIndex in
  let i := Z.max 0 (Z.min start (len l - 1)) in
  match render (set_items_idx l i s) with
  | Returned s' => Returned (set_open true "hidden" s')
  | Thrown s' => Thrown s'
  end.

Definition close (s : State) : State := set_open false "" s.

(** [%] is the remainder of truncated division: [Z.rem]. *)
Definition prev (s : State) : Completion State :=
  if decide (items s = []) then Returned s
  else render (set_items_idx (items s)
                 (Z.rem (idx s - 1 + len (items s)) (len (items s))) s).

Definition next (s : State) : Completion State :=
  if decide (items s = []) then Returned s
  else render (set_items_idx (items s)
                 (Z.rem (idx s + 1) (len (items s))) s).

(** What can happen to a lightbox: a call of the exported [open] or
    [close], a click on a button or on the overlay, a key press. *)
Inductive Event : Type :=
| CallOpen (newItems : option (list Item)) (startIndex : option Z)
| CallClose
| ClickPrev
| ClickNext
| ClickClose
| ClickOverlay
| KeyDown (key : string).

Definition keydown (key : string) (s : State) : Completion State :=
  if negb (overlayOpen s) then Returned s
  else if decide (key = "Escape") then Returned (close s)
  else if decide (key = "ArrowLeft") then prev s
  else if decide (key = "ArrowRight") then next s
  else Returned s.

Definition handle (e : Event) (s : State) : Completion State :=
  match e with
  | CallOpen l i => open l i s
  | CallClose | ClickClose | ClickOverlay => Returned (close s)
  | ClickPrev => prev s
  | ClickNext => next s
  | KeyDown k => keydown k s
  end.

(** After an exception in a handler the page lives on with the state
    the handler left. *)
Definition state_of (c : Completion State) : State :=
  match c with Returned s => s | Thrown s => s end.

Definition run (es : list Event) (s : State) : State :=
  fold_left (fun st e => state_of (handle e st)) es s.

(** The states a lightbox can be in. *)
Inductive reachable : State -> Prop :=
| reach_init src0 alt0 prev0 next0 overflow0 open0 :
    reachable (createLightbox src0 alt0 prev0 next0 overflow0 open0)
| reach_step e s :
    reachable s -> reachable (state_of (handle e s)).

(** The bound on [idx]. *)
Definition in_range (s : State) : Prop :=
  items s <> [] -> 0 <= idx s < len (items s).

End Lightbox.

(** ** assets/gallery.js *)

Module Gallery.

(** *** The page and its surroundings *)

(** What [fetch] and [res.json()] can do: the promise rejects (network
    failure), or it resolves to a response with its [ok] flag and a body
    that parses as a manifest ([Some]) or does not ([None]). *)
Inductive FetchResult : Type :=
| Rejected
| Response (ok : bool) (body : option Manifest).

Record Env : Type := {
  hostname : string;                 (* window.location.hostname *)
  pathname : string;                 (* window.location.pathname *)
  tabParam : option string;          (* URLSearchParams(...).get("tab") *)
  galleryUrlAttr : option string;    (* body[data-gallery-url] *)
  projectSlugAttr : option string;   (* body[data-project-slug] *)
  fetch : string -> FetchResult;
}.

Record Flag : Type := { flagClass : string; flagText : string }.

Record Card : Type := {
  cardClasses : list string;
  coverHref : string;
  coverAlt : string;
  coverSrc : string;
  statusFlag : option Flag;
  titleHref : string;
  titleLabel : string;
  detailHref : string;
}.

Inductive VideoCard : Type :=
| EmbedFrame (src : string)
| FileVideo (src : string)
| EmptyVideoCard.

(** A thumbnail; [thumbItems] and [thumbIndex] are the arguments its
    click handler gives to [lb.open]. *)
Record Thumb : Type := {
  thumbSrc : string;
  thumbAlt : string;
  thumbItems : list Lightbox.Item;
  thumbIndex : Z;
}.

Record Section : Type := {
  phaseKey : string;                      (* dataset.phase *)
  heading : string;
  videoWrap : option (list VideoCard);
  thumbGrid : option (list Thumb);
  sectionHidden : bool;                   (* class "hidden" *)
}.

Inductive Node : Type :=
| Markup (html : string)               (* what an innerHTML assignment left *)
| Box (className html : string)        (* a div with a class and innerHTML *)
| CardNode (c : Card)
| InfoItem (k v : string)
| SectionNode (s : Section)
| TabButton (key label : string) (active : bool).

Record Badge : Type := { badgeClass : string; badgeText : string }.

(** The elements the two renderers look up.  An element the code guards
    with [if (!el)] is optional; the others ([#projectTitle], [#infoList],
    [#overviewSection], [#gallerySections], [#tabs] and the lightbox
    overlay) are dereferenced at once and belong to the project page
    template.  Properties that are set to a
    constant and never read back (cursor, tooltip, lazy loading) are not
    kept. *)
Record Document : Type := {
  projectsGrid : option (list Node);      (* #projectsGrid *)
  projectMount : option (list Node);      (* #projectMount *)
  projectTitle : string;                  (* #projectTitle, its text *)
  statusBadge : option Badge;             (* #statusBadge *)
  projectSubtitle : option (string * string);  (* text, style.display *)
  overviewSection : list Node;            (* #overviewSection *)
  infoList : list Node;                   (* #infoList *)
  gallerySections : list Node;            (* #gallerySections *)
  tabs : list Node;                       (* #tabs *)
  overviewBlock : option bool;            (* #overviewBlock, class "hidden" *)
}.

(** [el.innerHTML = html]. *)
Definition innerHTML (html : string) : list Node :=
  if decide (html = "") then [] else [Markup html].

Definition set_projectsGrid (c : list Node) (d : Document) : Document :=
  {| projectsGrid := Some c; projectMount := projectMount d;
     projectTitle := projectTitle d; statusBadge := statusBadge d;
     projectSubtitle := projectSubtitle d;
     overviewSection := overviewSection d; infoList := infoList d;
     gallerySections := gallerySections d; tabs := tabs d;
     overviewBlock := overviewBlock d |}.

Definition set_projectMount (c : list Node) (d : Document) : Document :=
  {| projectsGrid := projectsGrid d; projectMount := Some c;
     projectTitle := projectTitle d; statusBadge := statusBadge d;
     projectSubtitle := projectSubtitle d;
     overviewSection := overviewSection d; infoList := infoList d;
     gallerySections := gallerySections d; tabs := tabs d;
     overviewBlock := overviewBlock d |}.

Definition dq : string := String (ascii_of_nat 34) EmptyString.

(** The grey card both renderers use for a message. *)
Definition mutedStyle : string :=
  " style=" +:+ dq +:+ "padding:16px;color:var(--muted)" +:+ dq.

Definition messageCard (text : string) : string :=
  "<div class=" +:+ dq +:+ "card" +:+ dq +:+ mutedStyle +:+ ">"
    +:+ text +:+ "</div>".

Definition noProjectsNote : string :=
  "<div" +:+ mutedStyle +:+ ">还没有项目。把照片放进 <code>projects/&lt;slug&gt;/before|during|after</code>，然后运行 <code>python3 tools/build.py</code> 生成索引。</div>".

Definition noMediaNote : string :=
  "<div" +:+ mutedStyle +:+ ">这个项目还没有媒体内容。把照片放进该项目的 before/during/after 文件夹后再运行构建脚本即可。</div>".

(** *** Base path *)

Definition BASE_PATH (host path : string) : string :=
  if Js.endsWith host "github.io" then
    match Js.filterBoolean (Js.split "/" path) with
    | first :: _ => "/" +:+ first
    | [] => ""
    end
  else "".

(** [/^https?:\/\//i.test(u)]. *)
Definition isExternal (u : string) : bool :=
  Js.startsWith (Js.lowerPrefix 7 u) "http://"
  || Js.startsWith (Js.lowerPrefix 8 u) "https://".

(** [u.replace(/^\.\//, "")]. *)
Definition stripDotSlash (u : string) : string :=
  if Js.startsWith u "./" then Js.drop 2 u else u.

Definition withBase (base : string) (url : option string) : string :=
  match url with
  | None => ""
  | Some u =>
      if decide (u = "") then ""
      else if isExternal u then u
      else if bool_decide (base <> "") && Js.startsWith u (base +:+ "/")
      then u
      else if Js.startsWith u "/" then base +:+ u
      else base +:+ "/" +:+ stripDotSlash u
  end.

Definition safeText (v : option string) : string :=
  Js.trim (default "" v).

Definition hasPhaseContent (phase : option Phase) : bool :=
  match phase with
  | None => false
  | Some ph =>
      let imgs := default [] (images ph) in
      let vids := default [] (videos ph) in
      bool_decide (0 < length imgs)%nat || bool_decide (0 < length vids)%nat
  end.

Definition hasOverviewContent (p : Project) : bool :=
  Js.truthy (location p) || Js.truthy (date p) || Js.truthy (projectType p)
  || Js.truthy (scope p) || Js.truthy (client p) || Js.truthy (status p)
  || Js.truthy (buildingArea p) || Js.truthy (notes p)
  || Js.truthy (summary p).

(** [Array.prototype.sort] is stable, and for a comparator that orders
    consistently the sorted array is then determined by the input (lemma
    [sortBy_unique] below); the model is the stable insertion sort.
    [cmp a b <= 0] keeps [a] before [b]. *)
Fixpoint insertBy {A : Type} (cmp : A -> A -> Z) (x : A) (l : list A)
    : list A :=
  match l with
  | [] => [x]
  | y :: r => if cmp x y <=? 0 then x :: l else y :: insertBy cmp x r
  end.

Fixpoint sortBy {A : Type} (cmp : A -> A -> Z) (l : list A) : list A :=
  match l with
  | [] => []
  | x :: r => insertBy cmp x (sortBy cmp r)
  end.

(** [p.phases?.k]. *)
Definition phaseOf (k : Phases -> option Phase) (p : Project)
    : option Phase :=
  match phases p with
  | None => None
  | Some ps => k ps
  end.

(** [switchTab] and its helpers work on the class lists. *)
Definition setActive (tab : string) (n : Node) : Node :=
  match n with
  | TabButton k l _ => TabButton k l (bool_decide (k = tab))
  | _ => n
  end.

Definition setHidden (f : Section -> bool) (n : Node) : Node :=
  match n with
  | SectionNode s =>
      SectionNode {| phaseKey := phaseKey s; heading := heading s;
                     videoWrap := videoWrap s; thumbGrid := thumbGrid s;
                     sectionHidden := f s |}
  | _ => n
  end.

(** Whether a section is hidden once [tab] is the active one:
    [showMediaAll(false)], [showMediaAll(true)] or [showOnlyPhase(tab)]. *)
Definition hiddenUnder (tab : string) : Section -> bool :=
  if decide (tab = "overview") then fun _ => true
  else if decide (tab = "all") then fun _ => false
  else fun s => bool_decide (phaseKey s <> tab).

Definition switchTab (tab : string) (d : Document) : Document :=
  {| projectsGrid := projectsGrid d; projectMount := projectMount d;
     projectTitle := projectTitle d; statusBadge := statusBadge d;
     projectSubtitle := projectSubtitle d;
     overviewSection := overviewSection d; infoList := infoList d;
     gallerySections := setHidden (hiddenUnder tab) <$> gallerySections d;
     tabs := setActive tab <$> tabs d;
     overviewBlock :=
       (fun _ => bool_decide (tab <> "overview")) <$> overviewBlock d |}.

Definition buildInfoItem (k v : string) : Node := InfoItem k v.

(** The array [tabList] of [renderProject]. *)
Definition tabList (p : Project) : list (string * string) :=
  let has k := hasPhaseContent (phaseOf k p) in
  let anyMedia := has renderings || has before || has during || has after in
  (if hasOverviewContent p then [("overview", "Overview")] else [])
  ++ (if anyMedia then [("all", "All")] else [])
  ++ (if has renderings then [("renderings", "Renderings")] else [])
  ++ (if has before then [("before", "Before")] else [])
  ++ (if has during then [("during", "During")] else [])
  ++ (if has after then [("after", "After")] else []).

(** The tab [renderProject] hands to [switchTab] at the end. *)
Definition defaultTab (tl : list (string * string)) (want : string)
    : string :=
  let available : gset string := list_to_set (fst <$> tl) in
  let has k := bool_decide (k ∈ available) in
  let first := match tl with (k, _) :: _ => k | [] => "overview" end in
  let chosen :=
    if bool_decide (want = "overview") && has "overview" then "overview"
    else if (bool_decide (want = "all") || bool_decide (want = "media"))
            && has "all" then "all"
    else if has want then want
    else first in
  if negb (has chosen) && has "all" then "all" else chosen.

(** [fixedImages] of [renderPhase]: the images with their paths under
    the base path, as the lightbox gets them. *)
Definition fixImage (base : string) (x : Image) : Lightbox.Item :=
  {| Lightbox.itemLarge := withBase base (srcLarge x);
     Lightbox.itemThumb := withBase base (srcThumb x);
     Lightbox.itemAlt := alt x |}.

Definition videoCard (base : string) (v : Video) : VideoCard :=
  if bool_decide (kind v = Some "embed") && Js.truthy (url v)
  then EmbedFrame (default "" (url v))
  else if bool_decide (kind v = Some "file") && Js.truthy (url v)
  then FileVideo (withBase base (url v))
  else EmptyVideoCard.

Definition thumbOf (fixedImages : list Lightbox.Item)
    (i : nat) (img : Lightbox.Item) : Thumb :=
  {| thumbSrc := Lightbox.itemThumb img;
     thumbAlt := Js.orElse (Lightbox.itemAlt img) "";
     thumbItems := fixedImages;
     thumbIndex := Z.of_nat i |}.

(** [renderPhase]; [None] is its [null]. *)
Definition renderPhase (base : string) (key title : string)
    (phase : option Phase) : option Section :=
  match phase with
  | None => None
  | Some ph =>
      let imgs := default [] (images ph) in
      let vids := default [] (videos ph) in
      if bool_decide (length imgs = 0%nat) && bool_decide (length vids = 0%nat)
      then None
      else
        let fixedImages := fixImage base <$> imgs in
        Some {| phaseKey := key; heading := title;
                videoWrap :=
                  if bool_decide (length vids = 0%nat) then None
                  else Some (videoCard base <$> vids);
                thumbGrid :=
                  if bool_decide (length imgs = 0%nat) then None
                  else Some (imap (thumbOf fixedImages) fixedImages);
                sectionHidden := false |}
  end.

(** The field list of the overview, before the empty values are
    skipped. *)
Definition overviewFields (p : Project) : list (string * string) :=
  [ ("Location", safeText (location p));
    ("Date", safeText (date p));
    ("Project Type", safeText (projectType p));
    ("Scope", safeText (scope p));
    ("Summary", safeText (summary p));
    ("Notes", safeText (notes p));
    ("Client", safeText (client p));
    ("Status", safeText (status p));
    ("Building Area", safeText (buildingArea p)) ].

(** The children of [#infoList] after the loop and the fallback. *)
Definition infoItems (p : Project) : list Node :=
  let rows :=
    (fun kv => buildInfoItem kv.1 kv.2)
      <$> List.filter (fun kv => bool_decide (kv.2 <> "")) (overviewFields p) in
  match rows with
  | [] => [buildInfoItem "Info" "No details provided yet."]
  | _ => rows
  end.

(** The array [sections]: the four phases in order, [null]s dropped. *)
Definition sectionsOf (base : string) (p : Project) : list Section :=
  omap id
    [ renderPhase base "renderings" "Renderings" (phaseOf renderings p);
      renderPhase base "before" "Before" (phaseOf before p);
      renderPhase base "during" "During" (phaseOf during p);
      renderPhase base "after" "After" (phaseOf after p) ].

(** [(data.projects || []).find((x) => x.slug === slug)]. *)
Definition findProject (slugAttr : option string) (data : Manifest)
    : option Project :=
  List.find (fun x => bool_decide (Some (slug x) = slugAttr))
            (default [] (projects data)).

Definition basePathOf (env : Env) : string :=
  BASE_PATH (hostname env) (pathname env).

(** The URL [renderHome] fetches, and the one [renderProject] fetches. *)
Definition homeDataUrl (env : Env) : string :=
  Js.orElse (galleryUrlAttr env) "generated/gallery.json".
Definition homeManifestUrl (env : Env) : string :=
  withBase (basePathOf env) (Some (homeDataUrl env)).
Definition projectManifestUrl (env : Env) : string :=
  withBase (basePathOf env) (galleryUrlAttr env).

(** *** Vocabulary of the specification *)

(** The number of images and videos of a phase; a phase that is missing
    has none. *)
Definition mediaCount (phase : option Phase) : nat :=
  match phase with
  | None => 0
  | Some ph =>
      (length (default [] (images ph)) + length (default [] (videos ph)))%nat
  end.

(** The four phases: tab key, tab label and heading, accessor. *)
Definition phaseTable : list (string * string * (Phases -> option Phase)) :=
  [ ("renderings", "Renderings", renderings);
    ("before", "Before", before);
    ("during", "During", during);
    ("after", "After", after) ].

(** The nine metadata fields of the overview: label and raw value. *)
Definition metadataFields (p : Project) : list (string * option string) :=
  [ ("Location", location p);
    ("Date", date p);
    ("Project Type", projectType p);
    ("Scope", scope p);
    ("Summary", summary p);
    ("Notes", notes p);
    ("Client", client p);
    ("Status", status p);
    ("Building Area", buildingArea p) ].

Section WithHost.
Context `{Host}.

Definition statusClass (st : option string) : string :=
  let s := Js.trim (toLowerCase (Js.orElse st "")) in
  if decide (s = "") then "" else Js.dashRuns false s.

Definition buildProjectCard (base : string) (p : Project) : Card :=
  let mediaUrl := "projects/" +:+ slug p +:+ "/?tab=all" in
  let overviewUrl := "projects/" +:+ slug p +:+ "/?tab=overview" in
  let sc := statusClass (status p) in
  {| cardClasses :=
       ["card"; "project-card"]
       ++ (if decide (sc = "") then [] else ["status-" +:+ sc]);
     coverHref := withBase base (Some mediaUrl);
     coverAlt := Js.orElse (title p) (slug p);
     coverSrc := withBase base (Some (Js.orElse (coverThumb p) ""));
     statusFlag :=
       if Js.truthy (status p)
       then Some {| flagClass := "status-flag " +:+ statusClass (status p);
                    flagText := default "" (status p) |}
       else None;
     titleHref := withBase base (Some overviewUrl);
     titleLabel := Js.orElse (title p) (slug p);
     detailHref := withBase base (Some mediaUrl) |}.

Definition sortKeyOf (p : Project) : string := Js.orElse (sortKey p) "".

(** The comparator of [renderHome]. *)
Definition byKeyDescending (a b : Project) : Z :=
  localeCompare (sortKeyOf b) (sortKeyOf a).

Definition renderHome (env : Env) (d : Document) : Completion Document :=
  match projectsGrid d with
  | None => Returned d
  | Some _ =>
      let base := basePathOf env in
      let dataUrl := homeDataUrl env in
      match fetch env (withBase base (Some dataUrl)) with
      | Rejected => Thrown d
      | Response false _ =>
          Returned (set_projectsGrid
                      (innerHTML (messageCard ("Failed to load " +:+ dataUrl)))
                      d)
      | Response true None => Thrown d
      | Response true (Some data) =>
          let ps := sortBy byKeyDescending (default [] (projects data)) in
          match ps with
          | [] => Returned (set_projectsGrid [Box "card" noProjectsNote] d)
          | _ =>
              Returned (set_projectsGrid
                          ((fun p => CardNode (buildProjectCard base p)) <$> ps)
                          d)
          end
      end
  end.

(** The part of [renderProject] after the project was found, up to
    the tab buttons; [switchTab] comes after it. *)
Definition buildProjectPage (base : string) (slugAttr : option string)
    (p : Project) (d : Document) : Document :=
  let sections := sectionsOf base p in
  {| projectsGrid := projectsGrid d;
     projectMount := projectMount d;
     projectTitle := Js.orElse (title p) (default "" slugAttr);
     statusBadge :=
       if Js.truthy (status p)
       then Some {| badgeClass := "badge status " +:+ statusClass (status p);
                    badgeText := default "" (status p) |}
       else None;
     projectSubtitle := (fun _ => ("", "none")) <$> projectSubtitle d;
     overviewSection := innerHTML "";
     infoList := infoItems p;
     gallerySections :=
       match sections with
       | [] => [Box "card" noMediaNote]
       | _ => SectionNode <$> sections
       end;
     tabs := (fun t => TabButton t.1 t.2 false) <$> tabList p;
     overviewBlock := overviewBlock d |}.

Definition renderProject (env : Env) (d : Document) : Completion Document :=
  match projectMount d with
  | None => Returned d
  | Some _ =>
      let base := basePathOf env in
      let slugAttr := projectSlugAttr env in
      let dataUrl := galleryUrlAttr env in
      match fetch env (withBase base dataUrl) with
      | Rejected => Thrown d
      | Response false _ =>
          Returned (set_projectMount
                      (innerHTML (messageCard
                         ("Failed to load " +:+ Js.interpolate dataUrl)))
                      d)
      | Response true None => Thrown d
      | Response true (Some data) =>
          match findProject slugAttr data with
          | None =>
              Returned (set_projectMount
                          (innerHTML (messageCard
                             ("未找到项目：" +:+ Js.interpolate slugAttr)))
                          d)
          | Some p =>
              let want := toLowerCase (Js.orElse (tabParam env) "") in
              Returned (switchTab (defaultTab (tabList p) want)
                          (buildProjectPage base slugAttr p d))
          end
      end
  end.

(** The [DOMContentLoaded] handler: [await renderHome()] and then
    [await renderProject()]; a rejection of the first ends it. *)
Definition onDOMContentLoaded (env : Env) (d : Document)
    : Completion Document :=
  match renderHome env d with
  | Returned d' => renderProject env d'
  | Thrown d' => Thrown d'
  end.

End WithHost.

End Gallery.

(** ** Sample data for the closed instances *)

Module Sample.

Definition item (name : string) : Lightbox.Item :=
  {| Lightbox.itemLarge := "/generated/s1/before/large/" +:+ name;
     Lightbox.itemThumb := "/generated/s1/before/thumb/" +:+ name;
     Lightbox.itemAlt := None |}.

Definition threeItems : list Lightbox.Item :=
  [item "a.jpg"; item "b.jpg"; item "c.jpg"].

Definition freshLightbox : Lightbox.State :=
  Lightbox.createLightbox "" "" "" "" "" false.

(** A thumbnail click that asks for an index past the end. *)
Definition openedAtEnd : Lightbox.State :=
  Lightbox.state_of
    (Lightbox.handle (Lightbox.CallOpen (Some threeItems) (Some 7))
       freshLightbox).


Definition imageA : Image :=
  {| srcThumb := Some "generated/s1/before/thumb/a.jpg";
     srcLarge := Some "generated/s1/before/large/a.jpg";
     alt := None |}.

Definition beforeOnly : Phases :=
  {| renderings := None;
     before := Some {| images := Some [imageA]; videos := None |};
     during := None;
     after := None |}.

(** A project with a location, a status and one "before" image. *)
Definition school : Project :=
  {| slug := "school"; title := Some "School"; location := Some "Harbin";
     date := None; projectType := None; scope := None; client := None;
     status := Some "In Progress"; buildingArea := None; notes := None;
     summary := None; sortKey := Some "2024-05"; coverThumb := None;
     phases := Some beforeOnly |}.

(** A project with metadata and no media, and one with nothing. *)
Definition library : Project :=
  {| slug := "library"; title := None; location := Some "Daqing";
     date := Some "2023"; projectType := None; scope := None;
     client := None; status := None; buildingArea := None; notes := None;
     summary := None; sortKey := Some "2023-11"; coverThumb := None;
     phases := None |}.

Definition bare : Project :=
  {| slug := "bare"; title := None; location := None; date := None;
     projectType := None; scope := None; client := None; status := None;
     buildingArea := None; notes := None; summary := None; sortKey := None;
     coverThumb := None; phases := None |}.

Definition manifest : Manifest :=
  {| projects := Some [library; school; bare] |}.

(** A page served from localhost whose fetch answers [r]. *)
Definition envWith (tab : option string) (slugAttr : option string)
    (r : Gallery.FetchResult) : Gallery.Env :=
  {| Gallery.hostname := "localhost";
     Gallery.pathname := "/projects/school/";
     Gallery.tabParam := tab;
     Gallery.galleryUrlAttr := Some "generated/gallery.json";
     Gallery.projectSlugAttr := slugAttr;
     Gallery.fetch := fun _ => r |}.

(** The home page before rendering: a grid, no project mount. *)
Definition homeDocument : Gallery.Document :=
  {| Gallery.projectsGrid := Some [];
     Gallery.projectMount := None;
     Gallery.projectTitle := "";
     Gallery.statusBadge := None;
     Gallery.projectSubtitle := None;
     Gallery.overviewSection := [];
     Gallery.infoList := [];
     Gallery.gallerySections := [];
     Gallery.tabs := [];
     Gallery.overviewBlock := None |}.

(** A project page before rendering: a mount, no grid. *)
Definition projectDocument : Gallery.Document :=
  {| Gallery.projectsGrid := None;
     Gallery.projectMount := Some [];
     Gallery.projectTitle := "";
     Gallery.statusBadge := None;
     Gallery.projectSubtitle := Some ("Loading", "");
     Gallery.overviewSection := [];
     Gallery.infoList := [];
     Gallery.gallerySections := [];
     Gallery.tabs := [];
     Gallery.overviewBlock := Some false |}.

End Sample.

(** * Properties *)

(** ** More of the lightbox *)

Module LightboxView.
Import Lightbox.

(** The state that shows entry [j]: what [render] leaves once [idx] is
    [j]; a [j] outside the array leaves the state alone. *)
Definition showAt (j : Z) (s : State) : State :=
  match at_index (items s) j with
  | Some it => display it (set_items_idx (items s) j s)
  | None => s
  end.

(** The image element shows the entry at [idx], and the two buttons are
    there exactly when there is more than one entry. *)
Definition shows_current (s : State) : Prop :=
  items s <> [] ->
  exists it,
    at_index (items s) (idx s) = Some it
    /\ imgSrc s = itemLarge it
    /\ imgAlt s = Js.orElse (itemAlt it) ""
    /\ prevDisplay s = (if 1 <? len (items s) then "block" else "none")
    /\ nextDisplay s = (if 1 <? len (items s) then "block" else "none").

End LightboxView.

(** ** More of the host *)

(** The other law of a collation that orders consistently: what sorts
    before or with something that sorts before or with a third does so
    with the third. *)
Definition collation_trans `{Host} : Prop :=
  forall a b c : string,
    localeCompare a b <= 0 -> localeCompare b c <= 0 -> localeCompare a c <= 0.

(** ** assets/site.js *)

Module Site.

(** [s.replace(/\/+$/, "")]: the slashes at the end go. *)
Fixpoint stripTrailingSlashes (s : string) : string :=
  match s with
  | EmptyString => EmptyString
  | String c r =>
      let r' := stripTrailingSlashes r in
      if decide (c = "/"%char) then
        if decide (r' = "") then "" else String c r'
      else String c r'
  end.

(** [s.replace(pat, "")] for a string [pat]: the first occurrence goes,
    the later ones stay. *)
Fixpoint removeFirst (pat s : string) : string :=
  match s with
  | EmptyString => EmptyString
  | String c r =>
      if String.prefix pat s then Js.drop (String.length pat) s
      else String c (removeFirst pat r)
  end.

(** [href.replace("./","").replace("../","")]. *)
Definition navTarget (href : string) : string :=
  removeFirst "../" (removeFirst "./" href).

(** An element with [data-nav]: its [href] attribute, if it has one, and
    whether its class list holds [active]. *)
Record NavLink : Type := {
  hrefAttr : option string;
  navActive : bool;
}.

(** The callback of [forEach]; [getAttribute] gives [null] for a missing
    attribute, and [null.replace] throws. *)
Definition markLink (path : string) (a : NavLink) : Completion NavLink :=
  match hrefAttr a with
  | None => Thrown a
  | Some h =>
      let href := stripTrailingSlashes h in
      if decide (href = "") then Returned a
      else if Js.endsWith path (navTarget href)
      then Returned {| hrefAttr := hrefAttr a; navActive := true |}
      else Returned a
  end.

(** [forEach] in document order; an exception ends it and leaves the
    links after it as they were. *)
Fixpoint markLinks (path : string) (links : list NavLink)
    : Completion (list NavLink) :=
  match links with
  | [] => Returned []
  | a :: rest =>
      match markLink path a with
      | Thrown a' => Thrown (a' :: rest)
      | Returned a' =>
          match markLinks path rest with
          | Returned rest' => Returned (a' :: rest')
          | Thrown rest' => Thrown (a' :: rest')
          end
      end
  end.

Definition setActiveNav (pathname : string) (links : list NavLink)
    : Completion (list NavLink) :=
  markLinks (stripTrailingSlashes pathname) links.

(** The links after the call, however it ended. *)
Definition linksOf (c : Completion (list NavLink)) : list NavLink :=
  match c with Returned l => l | Thrown l => l end.

End Site.

(** ** More sample data *)

Module Fixture.

Definition imageNamed (name : string) : Image :=
  {| srcThumb := Some ("generated/s1/after/thumb/" +:+ name);
     srcLarge := Some ("generated/s1/after/large/" +:+ name);
     alt := Some name |}.

Definition afterPhase : Phase :=
  {| images := Some [imageNamed "a.jpg"; imageNamed "b.jpg"];
     videos := None |}.

(** Two projects of the same month: their sort keys compare equal. *)
Definition gym : Project :=
  {| slug := "gym"; title := Some "Gym"; location := None; date := None;
     projectType := None; scope := None; client := None; status := None;
     buildingArea := None; notes := None; summary := None;
     sortKey := Some "2024-05"; coverThumb := None; phases := None |}.

Definition twoOfMay : Manifest :=
  {| projects := Some [Sample.school; gym] |}.

(** A link without [href] between two with one. *)
Definition homeLink : Site.NavLink :=
  {| Site.hrefAttr := Some "index.html"; Site.navActive := false |}.
Definition brokenLink : Site.NavLink :=
  {| Site.hrefAttr := None; Site.navActive := false |}.
Definition contactLink : Site.NavLink :=
  {| Site.hrefAttr := Some "contact.html"; Site.navActive := false |}.

End Fixture.

(** ** The project page on a template that lacks elements

    [Gallery.renderProject] is the renderer on a page that has every
    element it dereferences.  The HTML of the pages is not among the
    sources, so the module below takes the elements the page has as an
    argument and follows the calls of [renderProject] in their order:
    each write stands where the source has it, and a dereference of a
    missing element ends the call with what was written before it. *)

Module Pages.
Import Gallery.

(** The elements [renderProject] dereferences without a guard once the
    project is found, in the order it first touches them, and whether the
    page has each.  The four lightbox elements are those
    [createLightbox] calls a method on before it returns: the overlay
    [#lightbox] ([overlay.querySelector]) and the buttons [#lbPrev],
    [#lbNext] and [#lbClose] inside it ([addEventListener]);
    [#lightboxImg] is only touched when a thumbnail is clicked. *)
Record Template : Type := {
  hasProjectTitle : bool;           (* #projectTitle *)
  hasOverviewSection : bool;        (* #overviewSection *)
  hasInfoList : bool;               (* #infoList *)
  hasLightbox : bool;               (* #lightbox *)
  hasLbPrev : bool;                 (* #lightbox #lbPrev *)
  hasLbNext : bool;                 (* #lightbox #lbNext *)
  hasLbClose : bool;                (* #lightbox #lbClose *)
  hasGallerySections : bool;        (* #gallerySections *)
  hasTabs : bool;                   (* #tabs *)
}.

(** [createLightbox()] returns: none of its dereferences is of [null]. *)
Definition createLightboxReturns (t : Template) : bool :=
  hasLightbox t && hasLbPrev t && hasLbNext t && hasLbClose t.

(** The page has every element [renderProject] needs. *)
Definition complete (t : Template) : bool :=
  hasProjectTitle t && hasOverviewSection t && hasInfoList t
  && createLightboxReturns t && hasGallerySections t && hasTabs t.

(** [overviewWrap.innerHTML = ""]. *)
Definition clearOverview (d : Document) : Document :=
  {| projectsGrid := projectsGrid d; projectMount := projectMount d;
     projectTitle := projectTitle d; statusBadge := statusBadge d;
     projectSubtitle := projectSubtitle d;
     overviewSection := innerHTML "";
     infoList := infoList d; gallerySections := gallerySections d;
     tabs := tabs d; overviewBlock := overviewBlock d |}.

(** [infoList.innerHTML = ""] and the rows appended to it. *)
Definition writeInfoList (p : Project) (d : Document) : Document :=
  {| projectsGrid := projectsGrid d; projectMount := projectMount d;
     projectTitle := projectTitle d; statusBadge := statusBadge d;
     projectSubtitle := projectSubtitle d;
     overviewSection := overviewSection d;
     infoList := infoItems p;
     gallerySections := gallerySections d;
     tabs := tabs d; overviewBlock := overviewBlock d |}.

(** [gs.innerHTML = ""] and the sections, or the note, appended to it. *)
Definition writeSections (base : string) (p : Project) (d : Document)
    : Document :=
  {| projectsGrid := projectsGrid d; projectMount := projectMount d;
     projectTitle := projectTitle d; statusBadge := statusBadge d;
     projectSubtitle := projectSubtitle d;
     overviewSection := overviewSection d; infoList := infoList d;
     gallerySections :=
       match sectionsOf base p with
       | [] => [Box "card" noMediaNote]
       | _ => SectionNode <$> sectionsOf base p
       end;
     tabs := tabs d; overviewBlock := overviewBlock d |}.

(** [tabs.innerHTML = ""] and the buttons appended to it. *)
Definition writeTabs (p : Project) (d : Document) : Document :=
  {| projectsGrid := projectsGrid d; projectMount := projectMount d;
     projectTitle := projectTitle d; statusBadge := statusBadge d;
     projectSubtitle := projectSubtitle d;
     overviewSection := overviewSection d; infoList := infoList d;
     gallerySections := gallerySections d;
     tabs := (fun t => TabButton t.1 t.2 false) <$> tabList p;
     overviewBlock := overviewBlock d |}.

Section WithHost.
Context `{Host}.

(** The title's text, the badge and the subtitle (lines 263 to 285). *)
Definition writeHeading (slugAttr : option string) (p : Project)
    (d : Document) : Document :=
  {| projectsGrid := projectsGrid d; projectMount := projectMount d;
     projectTitle := Js.orElse (title p) (default "" slugAttr);
     statusBadge :=
       if Js.truthy (status p)
       then Some {| badgeClass := "badge status " +:+ statusClass (status p);
                    badgeText := default "" (status p) |}
       else None;
     projectSubtitle := (fun _ => ("", "none")) <$> projectSubtitle d;
     overviewSection := overviewSection d; infoList := infoList d;
     gallerySections := gallerySections d;
     tabs := tabs d; overviewBlock := overviewBlock d |}.

(** [renderProject] from the point where the project [p] is found, on a
    page with the elements of [tpl]: a dereference of an element the page
    lacks throws a [TypeError], and what was written before it stays
    written. *)
Definition renderFound (tpl : Template) (env : Env) (p : Project)
    (d : Document) : Completion Document :=
  let base := basePathOf env in
  let slugAttr := projectSlugAttr env in
  if negb (hasProjectTitle tpl) then Thrown d else
  let d1 := writeHeading slugAttr p d in
  if negb (hasOverviewSection tpl) then Thrown d1 else
  let d2 := clearOverview d1 in
  if negb (hasInfoList tpl) then Thrown d2 else
  let d3 := writeInfoList p d2 in
  if negb (createLightboxReturns tpl) then Thrown d3 else
  if negb (hasGallerySections tpl) then Thrown d3 else
  let d4 := writeSections base p d3 in
  if negb (hasTabs tpl) then Thrown d4 else
  let d5 := writeTabs p d4 in
  let want := toLowerCase (Js.orElse (tabParam env) "") in
  Returned (switchTab (defaultTab (tabList p) want) d5).

(** [renderProject] on a page with the elements of [tpl]. *)
Definition renderProjectOnPage (tpl : Template) (env : Env) (d : Document)
    : Completion Document :=
  match projectMount d with
  | None => Returned d
  | Some _ =>
      let base := basePathOf env in
      let slugAttr := projectSlugAttr env in
      let dataUrl := galleryUrlAttr env in
      match fetch env (withBase base dataUrl) with
      | Rejected => Thrown d
      | Response false _ =>
          Returned (set_projectMount
                      (innerHTML (messageCard
                         ("Failed to load " +:+ Js.interpolate dataUrl)))
                      d)
      | Response true None => Thrown d
      | Response true (Some data) =>
          match findProject slugAttr data with
          | None =>
              Returned (set_projectMount
                          (innerHTML (messageCard
                             ("未找到项目：" +:+ Js.interpolate slugAttr)))
                          d)
          | Some p => renderFound tpl env p d
          end
      end
  end.

End WithHost.

(** The document a call leaves, however it ended. *)
Definition documentOf (c : Completion Document) : Document :=
  match c with Returned d => d | Thrown d => d end.

(** A page with every element but [#tabs]. *)
Definition withoutTabs : Template :=
  {| hasProjectTitle := true; hasOverviewSection := true;
     hasInfoList := true; hasLightbox := true; hasLbPrev := true;
     hasLbNext := true; hasLbClose := true; hasGallerySections := true;
     hasTabs := false |}.

End Pages.

(** ** The definitions at work *)

Section Examples.
Import Gallery.

Example BASE_PATH_project_site :
  BASE_PATH "someone.github.io" "/site/projects/school/" = "/site".
Proof. reflexivity. Qed.

Example BASE_PATH_localhost :
  BASE_PATH "localhost" "/projects/school/" = "".
Proof. reflexivity. Qed.

Example withBase_relative :
  withBase "/site" (Some "generated/gallery.json")
  = "/site/generated/gallery.json".
Proof. reflexivity. Qed.

Example withBase_dot_slash :
  withBase "/site" (Some "./generated/a.jpg") = "/site/generated/a.jpg".
Proof. reflexivity. Qed.

Example withBase_root_absolute :
  withBase "/site" (Some "/generated/a.jpg") = "/site/generated/a.jpg".
Proof. reflexivity. Qed.

Example withBase_external_any_case :
  withBase "/site" (Some "HTTPS://video.example/embed/1")
  = "HTTPS://video.example/embed/1".
Proof. reflexivity. Qed.

Example withBase_null : withBase "/site" None = "".
Proof. reflexivity. Qed.

(** The base path itself is not "the base path and a slash". *)
Example withBase_base_alone : withBase "/site" (Some "/site") = "/site/site".
Proof. reflexivity. Qed.

Example trim_spaces : Js.trim "  Harbin, 2024  " = "Harbin, 2024".
Proof. reflexivity. Qed.

(** A no-break space, U+00A0, is two bytes. *)
Example trim_no_break_space :
  Js.trim (String (ascii_of_nat 194) (String (ascii_of_nat 160) "x ")) = "x".
Proof. reflexivity. Qed.

Example safeText_missing : safeText None = "".
Proof. reflexivity. Qed.

Example statusClass_in_progress :
  @statusClass asciiHost (Some "In  Progress ") = "in-progress".
Proof. reflexivity. Qed.

Example tabList_school :
  tabList Sample.school
  = [("overview", "Overview"); ("all", "All"); ("before", "Before")].
Proof. reflexivity. Qed.

Example defaultTab_unknown :
  defaultTab (tabList Sample.school) "during" = "overview".
Proof. vm_compute. reflexivity. Qed.

Example defaultTab_no_tabs : defaultTab (tabList Sample.bare) "all" = "overview".
Proof. vm_compute. reflexivity. Qed.

Example home_order :
  slug <$> sortBy (@byKeyDescending asciiHost)
             [Sample.library; Sample.school; Sample.bare]
  = ["school"; "library"; "bare"].
Proof. reflexivity. Qed.

Example lightbox_clamped : Lightbox.idx Sample.openedAtEnd = 2.
Proof. reflexivity. Qed.

Example lightbox_next_wraps :
  Lightbox.idx (Lightbox.state_of (Lightbox.next Sample.openedAtEnd)) = 0.
Proof. reflexivity. Qed.

Example lightbox_prev_wraps :
  Lightbox.idx
    (Lightbox.run [Lightbox.ClickNext; Lightbox.ClickPrev; Lightbox.ClickPrev]
       Sample.openedAtEnd) = 1.
Proof. reflexivity. Qed.

End Examples.

(** ** The lightbox *)

Section LightboxFacts.
Import Lightbox.

Lemma len_pos (l : list Item) : l <> [] -> 0 < len l.
Proof. destruct l; [congruence | unfold len; simpl; lia]. Qed.

Lemma at_index_in_range (l : list Item) (i : Z) :
  0 <= i < len l -> exists it, at_index l i = Some it.
Proof.
  intros Hi. unfold at_index, len in *.
  destruct (Z.ltb_spec i 0) as [?|_]; [lia |].
  apply lookup_lt_is_Some_2. lia.
Qed.

Lemma at_index_Some (l : list Item) (i : Z) (it : Item) :
  at_index l i = Some it -> 0 <= i < len l.
Proof.
  unfold at_index, len.
  destruct (Z.ltb_spec i 0) as [?|?]; [discriminate |].
  intros Hl. apply lookup_lt_Some in Hl. lia.
Qed.

(** With the index in range [render] shows the entry at [idx]. *)
Lemma render_in_range (s : State) :
  items s <> [] -> 0 <= idx s < len (items s) ->
  exists it, at_index (items s) (idx s) = Some it
             /\ render s = Returned (display it s).
Proof.
  intros Hne Hi. destruct (at_index_in_range _ _ Hi) as [it Hit].
  exists it. split; [exact Hit |].
  unfold render. rewrite decide_False by exact Hne. now rewrite Hit.
Qed.

Lemma render_empty (s : State) : items s = [] -> render s = Returned s.
Proof. intros He. unfold render. now rewrite decide_True. Qed.

(** [render] changes neither [items] nor [idx], whatever it does. *)
Lemma render_keeps (s : State) :
  items (state_of (render s)) = items s /\ idx (state_of (render s)) = idx s.
Proof.
  unfold render. destruct (decide (items s = [])); [easy |].
  destruct (at_index (items s) (idx s)); easy.
Qed.

Lemma clamp_in_range (start n : Z) :
  0 < n -> 0 <= Z.max 0 (Z.min start (n - 1)) < n.
Proof. lia. Qed.

Lemma rem_next_in_range (i n : Z) :
  0 <= i < n -> Z.rem (i + 1) n = (i + 1) mod n /\ 0 <= (i + 1) mod n < n.
Proof.
  intros Hi. split.
  - apply Z.rem_mod_nonneg; lia.
  - apply Z.mod_pos_bound. lia.
Qed.

Lemma rem_prev_in_range (i n : Z) :
  0 <= i < n -> 0 <= Z.rem (i - 1 + n) n < n.
Proof.
  intros Hi. rewrite Z.rem_mod_nonneg by lia. apply Z.mod_pos_bound. lia.
Qed.

(** What [open] leaves for a non-empty array. *)
Lemma open_in_range (l : list Item) (start : option Z) (s : State) :
  l <> [] ->
  exists it s',
    open (Some l) start s = Returned s'
    /\ items s' = l
    /\ idx s' = Z.max 0 (Z.min (default 0 start) (len l - 1))
    /\ at_index l (idx s') = Some it
    /\ imgSrc s' = itemLarge it
    /\ overlayOpen s' = true.
Proof.
  intros Hne. unfold open. cbv zeta.
  change (default [] (Some l)) with l.
  set (i := Z.max 0 (Z.min (default 0 start) (len l - 1))).
  assert (Hi : 0 <= i < len l) by (apply clamp_in_range, len_pos, Hne).
  destruct (render_in_range (set_items_idx l i s) Hne Hi) as (it & Hit & Hr).
  rewrite Hr. exists it. eexists. split; [reflexivity |]. simpl. auto.
Qed.

Lemma open_empty (start : option Z) (newItems : option (list Item))
    (s : State) :
  default [] newItems = [] ->
  open newItems start s
  = Returned (set_open true "hidden" (set_items_idx [] 0 s)).
Proof.
  intros He. unfold open. cbv zeta. rewrite He. unfold len. simpl length.
  replace (Z.max 0 (Z.min (default 0 start) (Z.of_nat 0 - 1))) with 0 by lia.
  now rewrite render_empty.
Qed.

Lemma in_range_open (newItems : option (list Item)) (start : option Z)
    (s : State) :
  in_range (state_of (open newItems start s)).
Proof.
  destruct (decide (default [] newItems = [])) as [He|Hne].
  - rewrite open_empty by exact He. intros Hn. now simpl in Hn.
  - destruct newItems as [l|]; [simpl in Hne | now simpl in Hne].
    destruct (open_in_range l start s Hne) as (it & s' & -> & Hl & Hi & _).
    simpl. intros _. rewrite Hi, Hl. apply clamp_in_range, len_pos, Hne.
Qed.

Lemma in_range_next (s : State) : in_range s -> in_range (state_of (next s)).
Proof.
  intros Hs. unfold next. destruct (decide (items s = [])) as [He|Hne].
  - exact Hs.
  - destruct (render_keeps (set_items_idx (items s)
                              (Z.rem (idx s + 1) (len (items s))) s))
      as [Hl Hi].
    intros _. rewrite Hi, Hl. simpl.
    destruct (rem_next_in_range (idx s) (len (items s)) (Hs Hne)) as [-> ?].
    assumption.
Qed.

Lemma in_range_prev (s : State) : in_range s -> in_range (state_of (prev s)).
Proof.
  intros Hs. unfold prev. destruct (decide (items s = [])) as [He|Hne].
  - exact Hs.
  - destruct (render_keeps (set_items_idx (items s)
                (Z.rem (idx s - 1 + len (items s)) (len (items s))) s))
      as [Hl Hi].
    intros _. rewrite Hi, Hl. simpl.
    apply rem_prev_in_range, Hs, Hne.
Qed.

Lemma in_range_handle (e : Event) (s : State) :
  in_range s -> in_range (state_of (handle e s)).
Proof.
  intros Hs. destruct e; simpl;
    auto using in_range_open, in_range_next, in_range_prev.
  unfold keydown. destruct (negb (overlayOpen s)); [exact Hs |].
  repeat case_decide; simpl; auto using in_range_next, in_range_prev.
Qed.

Lemma reachable_in_range (s : State) : reachable s -> in_range s.
Proof.
  induction 1 as [| e s _ IH].
  - intros Hn. now simpl in Hn.
  - now apply in_range_handle.
Qed.

(** Every run of events from a fresh lightbox ends in a reachable state. *)
Lemma reachable_run (es : list Event) (s : State) :
  reachable s -> reachable (run es s).
Proof.
  revert s. induction es as [|e es IH]; intros s Hs; [exact Hs |].
  apply IH. now constructor.
Qed.

(** In range, no function of the lightbox throws. *)
Lemma render_returns (s : State) :
  in_range s -> exists s', render s = Returned s'.
Proof.
  intros Hs. destruct (decide (items s = [])) as [He|Hne].
  - exists s. now apply render_empty.
  - destruct (render_in_range s Hne (Hs Hne)) as (it & _ & ->). eauto.
Qed.

Lemma next_returns (s : State) :
  in_range s -> exists s', next s = Returned s'.
Proof.
  intros Hs. unfold next. destruct (decide (items s = [])) as [He|Hne];
    [eauto |].
  apply render_returns. intros _. simpl.
  destruct (rem_next_in_range (idx s) (len (items s)) (Hs Hne)) as [-> ?].
  assumption.
Qed.

Lemma prev_returns (s : State) :
  in_range s -> exists s', prev s = Returned s'.
Proof.
  intros Hs. unfold prev. destruct (decide (items s = [])) as [He|Hne];
    [eauto |].
  apply render_returns. intros _. simpl. apply rem_prev_in_range, Hs, Hne.
Qed.

Lemma open_returns (newItems : option (list Item)) (start : option Z)
    (s : State) :
  exists s', open newItems start s = Returned s'.
Proof.
  destruct (decide (default [] newItems = [])) as [He|Hne].
  - rewrite open_empty by exact He. eauto.
  - destruct newItems as [l|]; [simpl in Hne | now simpl in Hne].
    destruct (open_in_range l start s Hne) as (it & s' & -> & _). eauto.
Qed.

Lemma handle_returns (e : Event) (s : State) :
  in_range s -> exists s', handle e s = Returned s'.
Proof.
  intros Hs. destruct e; simpl;
    eauto using open_returns, next_returns, prev_returns.
  unfold keydown. destruct (negb (overlayOpen s)); [eauto |].
  repeat case_decide; eauto using next_returns, prev_returns.
Qed.

End LightboxFacts.

Section LightboxClaims.
Import Lightbox.

(** C2.  In a lightbox that holds a non-empty array, [next] returns,
    leaves the array alone, moves [idx] to [(idx + 1) mod length] and shows
    the entry at the new index; from the last index, [length - 1], the new
    index is 0 and the entry shown is the first of the array. *)
Theorem next_advances_and_wraps (s : State) :
  reachable s -> items s <> [] ->
  exists s' it,
    next s = Returned s'
    /\ items s' = items s
    /\ idx s' = (idx s + 1) mod len (items s)
    /\ at_index (items s) (idx s') = Some it
    /\ imgSrc s' = itemLarge it
    /\ imgAlt s' = Js.orElse (itemAlt it) ""
    /\ (idx s = len (items s) - 1 -> idx s' = 0 /\ head (items s) = Some it).
Proof.
  intros Hr Hne. pose proof (reachable_in_range s Hr Hne) as Hi.
  destruct (rem_next_in_range _ _ Hi) as [Hrem Hj].
  unfold next. rewrite decide_False by exact Hne. rewrite Hrem.
  set (j := (idx s + 1) mod len (items s)) in *.
  destruct (render_in_range (set_items_idx (items s) j s) Hne Hj)
    as (it & Hit & ->).
  exists (display it (set_items_idx (items s) j s)), it. simpl in *.
  repeat split; try assumption.
  - subst j. rewrite H. replace (len (items s) - 1 + 1) with (len (items s)) by lia.
    apply Z.mod_same. lia.
  - assert (j = 0) as Hj0.
    { subst j. rewrite H.
      replace (len (items s) - 1 + 1) with (len (items s)) by lia.
      apply Z.mod_same. lia. }
    rewrite Hj0 in Hit. unfold at_index in Hit. simpl in Hit.
    now rewrite head_lookup.
Qed.

Lemma next_advances_and_wraps_witness :
  reachable Sample.openedAtEnd /\ items Sample.openedAtEnd <> []
  /\ exists s' it,
       next Sample.openedAtEnd = Returned s'
       /\ items s' = items Sample.openedAtEnd
       /\ idx s' = (idx Sample.openedAtEnd + 1)
                     mod len (items Sample.openedAtEnd)
       /\ at_index (items Sample.openedAtEnd) (idx s') = Some it
       /\ imgSrc s' = itemLarge it
       /\ imgAlt s' = Js.orElse (itemAlt it) ""
       /\ (idx Sample.openedAtEnd = len (items Sample.openedAtEnd) - 1 ->
           idx s' = 0 /\ head (items Sample.openedAtEnd) = Some it).
Proof.
  assert (Hr : reachable Sample.openedAtEnd)
    by (apply reach_step, reach_init).
  assert (Hne : items Sample.openedAtEnd <> []) by discriminate.
  split; [exact Hr |]. split; [exact Hne |].
  exact (next_advances_and_wraps Sample.openedAtEnd Hr Hne).
Defined.

(** C9.  In every state the lightbox can reach, [0 <= idx < items.length]
    holds when [items] is not empty and [items[idx]] is an entry; [open]
    with a non-empty array puts any start index, negative or past the
    end, at [max 0 (min start (length - 1))], which is in range; [prev]
    and [next] keep the bound; neither [render] nor any handler throws;
    and with [items] empty [prev], [next] and [render] return the state
    as it was. *)
Theorem lightbox_index_in_range (s : State) :
  reachable s ->
  in_range s
  /\ (items s <> [] -> is_Some (at_index (items s) (idx s)))
  /\ (forall l start, l <> [] ->
        exists s', open (Some l) start s = Returned s'
                   /\ items s' = l
                   /\ idx s' = Z.max 0 (Z.min (default 0 start) (len l - 1))
                   /\ 0 <= idx s' < len l)
  /\ in_range (state_of (prev s))
  /\ in_range (state_of (next s))
  /\ (exists s', render s = Returned s')
  /\ (forall e, exists s', handle e s = Returned s' /\ in_range s')
  /\ (items s = [] ->
        prev s = Returned s /\ next s = Returned s /\ render s = Returned s).
Proof.
  intros Hr. pose proof (reachable_in_range s Hr) as Hs.
  split; [exact Hs |]. split.
  { intros Hne. destruct (at_index_in_range _ _ (Hs Hne)) as [it ->]. eauto. }
  split.
  { intros l start Hne.
    destruct (open_in_range l start s Hne) as (it & s' & Ho & Hl & Hi & _).
    exists s'. repeat split; try assumption;
      rewrite Hi; apply clamp_in_range, len_pos, Hne. }
  split; [now apply in_range_prev |]. split; [now apply in_range_next |].
  split; [now apply render_returns |]. split.
  { intros e. destruct (handle_returns e s Hs) as [s' He].
    exists s'. split; [exact He |].
    pose proof (in_range_handle e s Hs) as Hh. now rewrite He in Hh. }
  intros He. unfold prev, next. rewrite !decide_True by exact He.
  repeat split. now apply render_empty.
Qed.

Lemma lightbox_index_in_range_witness :
  reachable Sample.openedAtEnd
  /\ idx Sample.openedAtEnd = 2
  /\ in_range Sample.openedAtEnd.
Proof.
  assert (Hr : reachable Sample.openedAtEnd)
    by (apply reach_step, reach_init).
  split; [exact Hr |]. split; [reflexivity |].
  exact (proj1 (lightbox_index_in_range Sample.openedAtEnd Hr)).
Defined.

End LightboxClaims.

(** ** Strings *)

Section StringFacts.

Lemma prefix_nil (s : string) : String.prefix "" s = true.
Proof. now destruct s. Qed.

Lemma prefix_cons (c d : ascii) (p s : string) :
  String.prefix (String c p) (String d s)
  = if ascii_dec c d then String.prefix p s else false.
Proof. reflexivity. Qed.

Lemma prefix_refl_app (p s : string) : String.prefix p (p +:+ s) = true.
Proof.
  induction p as [|c p IH]; [apply prefix_nil |].
  change (String c p +:+ s) with (String c (p +:+ s)). rewrite prefix_cons.
  destruct (ascii_dec c c); [exact IH | congruence].
Qed.

Lemma prefix_app_cancel (b p s : string) :
  String.prefix (b +:+ p) (b +:+ s) = String.prefix p s.
Proof.
  induction b as [|c b IH]; [reflexivity |].
  change (String c b +:+ p) with (String c (b +:+ p)).
  change (String c b +:+ s) with (String c (b +:+ s)). rewrite prefix_cons.
  destruct (ascii_dec c c); [exact IH | congruence].
Qed.

Lemma prefix_slash (u : string) :
  String.prefix "/" u = true -> exists r, u = "/" +:+ r.
Proof.
  destruct u as [|c r]; [discriminate |]. rewrite prefix_cons.
  destruct (ascii_dec "/" c) as [<-|]; [| discriminate].
  intros _. now exists r.
Qed.

End StringFacts.

(** ** The base path *)

Section WithBaseFacts.
Import Gallery.

Lemma withBase_empty (base : string) : withBase base (Some "") = "".
Proof. reflexivity. Qed.

(** The shapes [withBase] returns as they are. *)
Lemma withBase_fixed (base w : string) :
  w = "" \/ isExternal w = true
  \/ Js.startsWith w (base +:+ "/") = true ->
  withBase base (Some w) = w.
Proof.
  intros Hw. unfold withBase.
  destruct (decide (w = "")) as [->|Hne]; [reflexivity |].
  destruct (isExternal w) eqn:Hext; [reflexivity |].
  destruct Hw as [?|[?|Hp]]; [congruence | congruence |].
  destruct (decide (base = "")) as [->|Hb].
  - change ("" +:+ "/") with "/" in *.
    rewrite bool_decide_false by (intros Hf; now apply Hf).
    simpl andb. now rewrite Hp.
  - rewrite bool_decide_true by exact Hb. simpl andb. now rewrite Hp.
Qed.

Lemma withBase_shape (base u : string) :
  let w := withBase base (Some u) in
  w = "" \/ isExternal w = true \/ Js.startsWith w (base +:+ "/") = true.
Proof.
  unfold withBase.
  destruct (decide (u = "")) as [->|Hne]; [now left |].
  destruct (isExternal u) eqn:Hext; [right; now left |].
  destruct (bool_decide (base <> "") && Js.startsWith u (base +:+ "/"))
    eqn:Hhas.
  { apply andb_prop in Hhas as [_ Hp]. right; now right. }
  right; right. unfold Js.startsWith.
  destruct (String.prefix "/" u) eqn:Hs.
  - apply prefix_slash in Hs as [r ->].
    rewrite prefix_app_cancel. apply (prefix_refl_app "/").
  - rewrite prefix_app_cancel. apply (prefix_refl_app "/").
Qed.

End WithBaseFacts.

Section WithBaseClaims.
Import Gallery.

(** C10.  [withBase] is idempotent for every string and every base
    path, the computed [BASE_PATH] among them: applying it to its own
    result gives that result.  A URL that starts with [http://] or
    [https://] and a URL that already starts with the base path and a
    slash come back unchanged. *)
Theorem withBase_idempotent (base u r : string) :
  withBase base (Some (withBase base (Some u))) = withBase base (Some u)
  /\ withBase base (Some ("http://" +:+ r)) = "http://" +:+ r
  /\ withBase base (Some ("https://" +:+ r)) = "https://" +:+ r
  /\ withBase base (Some (base +:+ "/" +:+ r)) = base +:+ "/" +:+ r.
Proof.
  split; [apply withBase_fixed, withBase_shape |].
  split; [apply withBase_fixed; right; left; reflexivity |].
  split; [apply withBase_fixed; right; left; reflexivity |].
  apply withBase_fixed. right; right. unfold Js.startsWith.
  rewrite prefix_app_cancel. apply (prefix_refl_app "/").
Qed.

End WithBaseClaims.

(** ** Sorting *)

Section SortFacts.
Import Gallery.
Context {A : Type} (cmp : A -> A -> Z).

(** [a] may stand before [b]. *)
Local Abbreviation before_ok := (fun a b : A => cmp a b <= 0).

(** The comparator never puts two elements each strictly after the
    other. *)
Hypothesis cmp_total : forall a b, 0 < cmp a b -> cmp b a <= 0.

Lemma insertBy_perm (x : A) (l : list A) : insertBy cmp x l ≡ₚ x :: l.
Proof.
  induction l as [|y r IH]; [reflexivity |]. simpl.
  destruct (cmp x y <=? 0); [reflexivity |].
  rewrite IH. apply Permutation_swap.
Qed.

Lemma sortBy_perm (l : list A) : sortBy cmp l ≡ₚ l.
Proof.
  induction l as [|x r IH]; [reflexivity |]. simpl.
  rewrite insertBy_perm. now rewrite IH.
Qed.

Lemma insertBy_hd (x y : A) (l : list A) :
  before_ok y x -> HdRel before_ok y l -> HdRel before_ok y (insertBy cmp x l).
Proof.
  intros Hyx Hl. destruct l as [|z r]; simpl; [now constructor |].
  destruct (cmp x z <=? 0); constructor; [exact Hyx |].
  now inversion Hl.
Qed.

Lemma insertBy_sorted (x : A) (l : list A) :
  Sorted before_ok l -> Sorted before_ok (insertBy cmp x l).
Proof.
  induction 1 as [|y r Hr IH Hhd]; simpl; [repeat constructor |].
  destruct (Z.leb_spec (cmp x y) 0) as [Hle|Hgt].
  - constructor; [now constructor | now constructor].
  - constructor; [exact IH |].
    apply insertBy_hd; [apply cmp_total, Hgt | exact Hhd].
Qed.

Lemma sortBy_sorted (l : list A) : Sorted before_ok (sortBy cmp l).
Proof.
  induction l as [|x r IH]; simpl; [constructor | now apply insertBy_sorted].
Qed.

(** Neighbours of a sorted list, by position. *)
Lemma Sorted_neighbours (R : A -> A -> Prop) (l : list A) :
  Sorted R l ->
  forall (i : nat) (a b : A), l !! i = Some a -> l !! S i = Some b -> R a b.
Proof.
  induction 1 as [|x r Hr IH Hhd]; intros i a b Ha Hb; [discriminate |].
  destruct i as [|i]; simpl in *.
  - injection Ha as <-. destruct r as [|y r']; [discriminate |].
    injection Hb as <-. now inversion Hhd.
  - eapply IH; eassumption.
Qed.

End SortFacts.

(** Why the insertion sort stands for [Array.prototype.sort]: for a
    comparator that orders consistently (sign antisymmetry, transitivity),
    a list that is sorted and keeps, within each class of elements that
    compare equal, the order of the input, is the output of [sortBy].
    Every stable sort returns that list. *)

Section SortUnique.
Import Gallery.
Context {A : Type} (cmp : A -> A -> Z).

Local Abbreviation le := (fun a b : A => cmp a b <= 0).
Local Abbreviation same a := (fun b : A => cmp a b =? 0).

Hypothesis cmp_antisym : forall a b, Z.sgn (cmp a b) = - Z.sgn (cmp b a).
Hypothesis cmp_trans : forall a b c, cmp a b <= 0 -> cmp b c <= 0 -> cmp a c <= 0.

Lemma cmp_refl (a : A) : cmp a a = 0.
Proof. pose proof (cmp_antisym a a). lia. Qed.

Lemma same_sym (a b : A) : same a b = same b a.
Proof.
  pose proof (cmp_antisym a b).
  destruct (Z.eqb_spec (cmp a b) 0), (Z.eqb_spec (cmp b a) 0); lia.
Qed.

Lemma same_le (a b : A) : same a b = true <-> (le a b /\ le b a).
Proof. pose proof (cmp_antisym a b). rewrite Z.eqb_eq. lia. Qed.

Lemma same_trans (a b c : A) :
  same a b = true -> same b c = true -> same a c = true.
Proof.
  rewrite !same_le. intros [Hab Hba] [Hbc Hcb]. split; eauto.
Qed.

Lemma insertBy_stable (x z : A) (l : list A) :
  List.filter (same z) (insertBy cmp x l) = List.filter (same z) (x :: l).
Proof.
  induction l as [|y r IH]; [reflexivity |]. simpl insertBy.
  destruct (Z.leb_spec (cmp x y) 0) as [Hle|Hgt]; [reflexivity |].
  simpl List.filter in *. rewrite IH.
  destruct (same z y) eqn:Hy, (same z x) eqn:Hx; try reflexivity.
  exfalso. rewrite same_sym in Hx.
  pose proof (same_trans _ _ _ Hx Hy) as Hxy. apply same_le in Hxy. lia.
Qed.

Lemma sortBy_stable (z : A) (l : list A) :
  List.filter (same z) (sortBy cmp l) = List.filter (same z) l.
Proof.
  induction l as [|x r IH]; [reflexivity |]. simpl sortBy.
  rewrite insertBy_stable. simpl. now rewrite IH.
Qed.

Lemma filter_same_head (a : A) (l : list A) :
  List.filter (same a) (a :: l) = a :: List.filter (same a) l.
Proof. simpl. now rewrite cmp_refl. Qed.

Lemma le_Transitive : Transitive le.
Proof. intros a b c. apply cmp_trans. Qed.

Lemma heads_agree (a b : A) (r1 r2 : list A) :
  Sorted le (a :: r1) -> Sorted le (b :: r2) ->
  (forall z, List.filter (same z) (a :: r1) = List.filter (same z) (b :: r2)) ->
  a = b.
Proof.
  intros S1 S2 Hf.
  apply (@Sorted_StronglySorted _ _ le_Transitive) in S1, S2.
  apply StronglySorted_inv in S1 as [_ Ha], S2 as [_ Hb].
  rewrite Forall_forall in Ha, Hb.
  pose proof (Hf a) as Fa. pose proof (Hf b) as Fb.
  rewrite filter_same_head in Fa, Fb.
  simpl List.filter in Fa, Fb. rewrite (same_sym b a) in Fb.
  destruct (same a b) eqn:Hab; [now injection Fa |].
  assert (Hin_a : In a r2).
  { apply (proj1 (filter_In (same a) a r2)). rewrite <- Fa. now left. }
  assert (Hin_b : In b r1).
  { apply (proj1 (filter_In (same b) b r1)). rewrite Fb. now left. }
  assert (Hs : same a b = true)
    by (apply same_le; split; [apply Ha | apply Hb];
        now apply list_elem_of_In).
  cbv beta in Hs. congruence.
Qed.

Lemma sorted_stable_unique (l1 l2 : list A) :
  Sorted le l1 -> Sorted le l2 ->
  (forall z, List.filter (same z) l1 = List.filter (same z) l2) ->
  l1 = l2.
Proof.
  revert l2. induction l1 as [|a r1 IH]; intros [|b r2] S1 S2 Hf.
  - reflexivity.
  - specialize (Hf b). rewrite filter_same_head in Hf. discriminate Hf.
  - specialize (Hf a). rewrite filter_same_head in Hf. discriminate Hf.
  - assert (a = b) as <- by (eapply heads_agree; eassumption).
    f_equal. apply IH.
    + now inversion S1.
    + now inversion S2.
    + intros z. specialize (Hf z). simpl in Hf.
      destruct (same z a); [now injection Hf | exact Hf].
Qed.

Lemma sortBy_unique (l l' : list A) :
  Sorted le l' ->
  (forall z, List.filter (same z) l' = List.filter (same z) l) ->
  l' = sortBy cmp l.
Proof.
  intros Hs Hf. apply sorted_stable_unique; [exact Hs | |].
  - apply sortBy_sorted. intros a b Hab. pose proof (cmp_antisym a b). lia.
  - intros z. now rewrite sortBy_stable.
Qed.

End SortUnique.

Section HomeClaims.
Import Gallery.
Context `{Host}.

Lemma byKeyDescending_total :
  collation_antisym ->
  forall a b, 0 < byKeyDescending a b -> byKeyDescending b a <= 0.
Proof.
  intros Hanti a b Hab. unfold byKeyDescending in *.
  pose proof (Hanti (sortKeyOf b) (sortKeyOf a)) as Hs. lia.
Qed.

(** C3.  With a collation whose sign flips when its operands are
    swapped, [renderHome] on a manifest that loaded fills the grid with
    one card per project, built by [buildProjectCard], in an order [ps]
    that is a rearrangement of the manifest's projects and in which every
    project's sort key compares greater than or equal to the sort key of
    the project after it, a missing sort key counting as the empty
    string.  (With no project at all the grid holds the note instead.) *)
Theorem home_cards_in_descending_order
    (env : Env) (d : Document) (c : list Node) (data : Manifest) :
  collation_antisym ->
  projectsGrid d = Some c ->
  fetch env (homeManifestUrl env) = Response true (Some data) ->
  exists (ps : list Project) (d' : Document),
    renderHome env d = Returned d'
    /\ ps ≡ₚ default [] (projects data)
    /\ projectsGrid d'
       = Some (match ps with
               | [] => [Box "card" noProjectsNote]
               | _ => (fun p => CardNode (buildProjectCard (basePathOf env) p))
                        <$> ps
               end)
    /\ forall (i : nat) (a b : Project),
         ps !! i = Some a -> ps !! S i = Some b ->
         0 <= localeCompare (Js.orElse (sortKey a) "")
                            (Js.orElse (sortKey b) "").
Proof.
  intros Hanti Hgrid Hfetch.
  set (ps := sortBy byKeyDescending (default [] (projects data))).
  exists ps. unfold renderHome. rewrite Hgrid.
  unfold homeManifestUrl in Hfetch. cbv zeta. rewrite Hfetch. fold ps.
  exists (set_projectsGrid
            (match ps with
             | [] => [Box "card" noProjectsNote]
             | _ => (fun p => CardNode (buildProjectCard (basePathOf env) p))
                      <$> ps
             end) d).
  split; [now destruct ps |].
  split; [apply sortBy_perm |].
  split; [reflexivity |].
  intros i a b Ha Hb.
  pose proof (Sorted_neighbours _ ps
                (sortBy_sorted byKeyDescending
                   (byKeyDescending_total Hanti) _) i a b Ha Hb) as Hab.
  cbv beta in Hab. unfold byKeyDescending, sortKeyOf in Hab.
  pose proof (Hanti (Js.orElse (sortKey a) "") (Js.orElse (sortKey b) "")).
  lia.
Qed.

End HomeClaims.

Section HomeWitness.
Import Gallery.

Lemma byteCompare_antisym : @collation_antisym asciiHost.
Proof.
  intros a b. simpl. unfold byteCompare.
  rewrite (String.compare_antisym a b).
  now destruct (String.compare b a).
Qed.

Lemma home_cards_in_descending_order_witness :
  let env := Sample.envWith None None (Response true (Some Sample.manifest)) in
  @collation_antisym asciiHost
  /\ projectsGrid Sample.homeDocument = Some []
  /\ fetch env (homeManifestUrl env) = Response true (Some Sample.manifest)
  /\ exists (ps : list Project) (d' : Document),
       @renderHome asciiHost env Sample.homeDocument = Returned d'
       /\ ps ≡ₚ [Sample.library; Sample.school; Sample.bare]
       /\ forall (i : nat) (a b : Project),
            ps !! i = Some a -> ps !! S i = Some b ->
            0 <= byteCompare (Js.orElse (sortKey a) "")
                             (Js.orElse (sortKey b) "").
Proof.
  intros env.
  split; [exact byteCompare_antisym |].
  split; [reflexivity |]. split; [reflexivity |].
  destruct (@home_cards_in_descending_order asciiHost env
              Sample.homeDocument [] Sample.manifest
              byteCompare_antisym eq_refl eq_refl)
    as (ps & d' & Hr & Hp & _ & Hs).
  exists ps, d'. auto.
Defined.

End HomeWitness.

(** ** The project page *)

Section ProjectFacts.
Import Gallery.
Context `{Host}.

(** What [renderProject] returns once the project is found. *)
Lemma renderProject_found (env : Env) (d : Document) (c : list Node)
    (data : Manifest) (p : Project) :
  projectMount d = Some c ->
  fetch env (projectManifestUrl env) = Response true (Some data) ->
  findProject (projectSlugAttr env) data = Some p ->
  renderProject env d
  = Returned
      (switchTab
         (defaultTab (tabList p) (toLowerCase (Js.orElse (tabParam env) "")))
         (buildProjectPage (basePathOf env) (projectSlugAttr env) p d)).
Proof.
  intros Hm Hf Hp. unfold renderProject. rewrite Hm. cbv zeta.
  unfold projectManifestUrl in Hf. now rewrite Hf, Hp.
Qed.

Lemma tabs_rendered (t base : string) (slugAttr : option string)
    (p : Project) (d : Document) :
  tabs (switchTab t (buildProjectPage base slugAttr p d))
  = setActive t <$> ((fun x => TabButton x.1 x.2 false) <$> tabList p).
Proof. reflexivity. Qed.

Lemma gallerySections_rendered (t base : string) (slugAttr : option string)
    (p : Project) (d : Document) :
  gallerySections (switchTab t (buildProjectPage base slugAttr p d))
  = setHidden (hiddenUnder t)
      <$> (match sectionsOf base p with
           | [] => [Box "card" noMediaNote]
           | _ => SectionNode <$> sectionsOf base p
           end).
Proof. reflexivity. Qed.

Lemma infoList_rendered (t base : string) (slugAttr : option string)
    (p : Project) (d : Document) :
  infoList (switchTab t (buildProjectPage base slugAttr p d)) = infoItems p.
Proof. reflexivity. Qed.

Lemma hasPhaseContent_count (phase : option Phase) :
  hasPhaseContent phase = true <-> (0 < mediaCount phase)%nat.
Proof.
  destruct phase as [ph|]; simpl; [| split; [discriminate | lia]].
  rewrite orb_true_iff, !bool_decide_eq_true. lia.
Qed.

Lemma renderPhase_None (base key title : string) (phase : option Phase) :
  renderPhase base key title phase = None <-> mediaCount phase = 0%nat.
Proof.
  destruct phase as [ph|]; simpl; [| easy].
  destruct (default [] (images ph)) as [|i imgs],
           (default [] (videos ph)) as [|v vids]; simpl; split;
    intros; try discriminate; try reflexivity; lia.
Qed.

Lemma renderPhase_Some_key (base key title : string) (phase : option Phase)
    (s : Section) :
  renderPhase base key title phase = Some s ->
  phaseKey s = key /\ heading s = title /\ sectionHidden s = false.
Proof.
  destruct phase as [ph|]; simpl; [| discriminate].
  destruct (_ && _); [discriminate |]. intros [= <-]. auto.
Qed.

End ProjectFacts.

Section TabFacts.
Import Gallery.

Lemma elem_of_phaseTable (key title : string) (get : Phases -> option Phase) :
  (key, title, get) ∈ phaseTable ->
  (key = "renderings" /\ title = "Renderings" /\ get = renderings)
  \/ (key = "before" /\ title = "Before" /\ get = before)
  \/ (key = "during" /\ title = "During" /\ get = during)
  \/ (key = "after" /\ title = "After" /\ get = after).
Proof.
  unfold phaseTable. rewrite !elem_of_cons, elem_of_nil.
  intros [E|[E|[E|[E|[]]]]]; injection E as -> -> ->; auto 10.
Qed.

(** The keys of [tabList], one Boolean per possible tab. *)
Lemma tabList_keys (p : Project) :
  let has k := hasPhaseContent (phaseOf k p) in
  let keys := (tabList p).*1 in
  bool_decide ("renderings" ∈ keys) = has renderings
  /\ bool_decide ("before" ∈ keys) = has before
  /\ bool_decide ("during" ∈ keys) = has during
  /\ bool_decide ("after" ∈ keys) = has after
  /\ bool_decide ("all" ∈ keys)
     = (has renderings || has before || has during || has after)
  /\ bool_decide ("overview" ∈ keys) = hasOverviewContent p
  /\ (forall k, k ∈ keys ->
        k ∈ ["overview"; "all"; "renderings"; "before"; "during"; "after"]).
Proof.
  unfold tabList. cbv zeta.
  destruct (hasOverviewContent p),
           (hasPhaseContent (phaseOf renderings p)),
           (hasPhaseContent (phaseOf before p)),
           (hasPhaseContent (phaseOf during p)),
           (hasPhaseContent (phaseOf after p));
    (repeat split; [vm_compute; reflexivity .. |]);
    simpl; intros k; rewrite !elem_of_cons; tauto.
Qed.

(** A tab button with a key is among the buttons exactly when the key
    is in the tab list, whichever tab is active. *)
Lemma tab_button_key (t key : string) (tl : list (string * string)) :
  (exists l a, TabButton key l a
               ∈ setActive t <$> ((fun x => TabButton x.1 x.2 false) <$> tl))
  <-> key ∈ tl.*1.
Proof.
  rewrite <- list_fmap_compose. split.
  - intros (l & a & Hin). apply list_elem_of_fmap in Hin as ([k l'] & E & Hin).
    simpl in E. injection E as -> -> ->.
    apply list_elem_of_fmap. now exists (k, l').
  - intros Hin. apply list_elem_of_fmap in Hin as ([k l] & -> & Hin).
    exists l, (bool_decide (k = t)). apply list_elem_of_fmap.
    now exists (k, l).
Qed.

(** A section with a phase's key is among the sections exactly when
    the phase has media. *)
Lemma section_with_key (base : string) (p : Project)
    (key title : string) (get : Phases -> option Phase) :
  (key, title, get) ∈ phaseTable ->
  (exists s, s ∈ sectionsOf base p /\ phaseKey s = key)
  <-> (0 < mediaCount (phaseOf get p))%nat.
Proof.
  intros Hin. apply elem_of_phaseTable in Hin. unfold sectionsOf. split.
  - intros (s & Hs & Hk).
    apply list_elem_of_omap in Hs as (o & Ho & Hid). simpl in Hid. subst o.
    assert (Hkey : forall k t (g : Phases -> option Phase),
               Some s = renderPhase base k t (phaseOf g p) ->
               phaseKey s = k /\ (0 < mediaCount (phaseOf g p))%nat).
    { intros k t g E. symmetry in E. split.
      - now apply renderPhase_Some_key in E.
      - destruct (mediaCount (phaseOf g p)) eqn:Hc; [| lia].
        apply (renderPhase_None base k t) in Hc. congruence. }
    rewrite !elem_of_cons, elem_of_nil in Ho.
    destruct Ho as [E|[E|[E|[E|[]]]]]; apply Hkey in E as [Hk' Hpos];
      rewrite Hk in Hk'; subst key;
      destruct Hin as [(E & _ & ->)|[(E & _ & ->)|[(E & _ & ->)|(E & _ & ->)]]];
      (exact Hpos || discriminate E).
  - intros Hpos.
    assert (Hsome : exists s, renderPhase base key title (phaseOf get p) = Some s).
    { destruct (renderPhase base key title (phaseOf get p)) as [s|] eqn:E;
        [now exists s |].
      apply renderPhase_None in E. lia. }
    destruct Hsome as [s Hs]. exists s. split.
    + apply list_elem_of_omap. exists (Some s). split; [| reflexivity].
      rewrite <- Hs, !elem_of_cons.
      destruct Hin as [(-> & -> & ->)|[(-> & -> & ->)|[(-> & -> & ->)|(-> & -> & ->)]]];
        auto 10.
    + now apply renderPhase_Some_key in Hs.
Qed.


Lemma section_nodes (f : Section -> bool) (sections : list Section)
    (key : string) :
  (exists s, SectionNode s
             ∈ setHidden f <$> (match sections with
                                | [] => [Box "card" noMediaNote]
                                | _ => SectionNode <$> sections
                                end)
             /\ phaseKey s = key)
  <-> exists s0, s0 ∈ sections /\ phaseKey s0 = key.
Proof.
  destruct sections as [|a l].
  - split; intros (s & Hs & _); [| now apply elem_of_nil in Hs].
    apply list_elem_of_singleton in Hs. discriminate Hs.
  - set (l' := a :: l).
    change (match l' with
            | [] => [Box "card" noMediaNote]
            | _ => SectionNode <$> l'
            end) with (SectionNode <$> l').
    rewrite <- list_fmap_compose. split.
    + intros (s & Hs & Hk).
      apply list_elem_of_fmap in Hs as (s0 & E & Hin).
      simpl in E. injection E as ->. now exists s0.
    + intros (s0 & Hin & Hk).
      eexists. split; [apply list_elem_of_fmap; exists s0; split;
                         [reflexivity | exact Hin] |].
      exact Hk.
Qed.

(** [defaultTab] with the set of keys read as the list of keys. *)
Lemma defaultTab_unfold (tl : list (string * string)) (want : string) :
  defaultTab tl want
  = let has k := bool_decide (k ∈ tl.*1) in
    let first := match tl with (k, _) :: _ => k | [] => "overview" end in
    let chosen :=
      if bool_decide (want = "overview") && has "overview" then "overview"
      else if (bool_decide (want = "all") || bool_decide (want = "media"))
              && has "all" then "all"
      else if has want then want
      else first in
    if negb (has chosen) && has "all" then "all" else chosen.
Proof.
  assert (Hset : forall k, bool_decide (k ∈ (list_to_set tl.*1 : gset string))
                           = bool_decide (k ∈ tl.*1))
    by (intros k; apply bool_decide_ext, elem_of_list_to_set).
  unfold defaultTab. cbv zeta. now rewrite !Hset.
Qed.

(** The three ways [defaultTab] decides, for a tab list that has no tab
    called [media]. *)
Lemma defaultTab_cases (tl : list (string * string)) (want : string) :
  "media" ∉ tl.*1 ->
  (want ∈ tl.*1 -> defaultTab tl want = want)
  /\ (want = "media" -> "all" ∈ tl.*1 -> defaultTab tl want = "all")
  /\ (want ∉ tl.*1 -> ~ (want = "media" /\ "all" ∈ tl.*1) ->
      defaultTab tl want = default "overview" (head tl.*1)).
Proof.
  intros Hmedia. rewrite defaultTab_unfold. cbv beta zeta.
  match goal with
  | |- context [negb (bool_decide (?c ∈ _))] => set (chosen := c)
  end.
  assert (Hfinal : forall k, k ∈ tl.*1 -> chosen = k ->
            (if negb (bool_decide (chosen ∈ tl.*1))
                && bool_decide ("all" ∈ tl.*1)
             then "all" else chosen) = k).
  { intros k Hk ->. now rewrite (bool_decide_true _ Hk). }
  repeat split.
  - intros Hin. apply Hfinal; [exact Hin |]. subst chosen.
    repeat case_bool_decide; simpl; congruence.
  - intros -> Hall. apply Hfinal; [exact Hall |]. subst chosen.
    repeat case_bool_decide; simpl; congruence.
  - intros Hnot Hnm.
    assert (Hc : chosen = match tl with (k, _) :: _ => k | [] => "overview" end).
    { subst chosen. repeat case_bool_decide; simpl; subst; intuition congruence. }
    destruct tl as [|[k l] tl].
    + rewrite Hc. reflexivity.
    + apply Hfinal; [apply elem_of_cons; now left | exact Hc].
Qed.

End TabFacts.

Section ProjectClaims.
Import Gallery.
Context `{Host}.

Lemma no_media_no_content (p : Project) :
  (forall key title get, (key, title, get) ∈ phaseTable ->
     mediaCount (phaseOf get p) = 0%nat) ->
  hasPhaseContent (phaseOf renderings p) = false
  /\ hasPhaseContent (phaseOf before p) = false
  /\ hasPhaseContent (phaseOf during p) = false
  /\ hasPhaseContent (phaseOf after p) = false.
Proof.
  intros Hno.
  assert (Hz : forall key title get, (key, title, get) ∈ phaseTable ->
                 hasPhaseContent (phaseOf get p) = false).
  { intros key title get Hin. apply not_true_is_false. intros Ht.
    apply hasPhaseContent_count in Ht.
    rewrite (Hno key title get Hin) in Ht. lia. }
  unfold phaseTable in Hz.
  repeat split; eapply Hz; rewrite !elem_of_cons; auto 10.
Qed.

(** C1.  On a page whose project [p] was found in the manifest,
    [renderProject] returns, and for each of the four phases: a tab
    button with the phase's key is among the buttons exactly when the
    phase has at least one image or video; [renderPhase] gives [null]
    exactly when it has none; a gallery section with the phase's key is
    on the page exactly when it has some.  When no phase has media, the
    only button there can be is the one for the overview, and the
    gallery holds the note and no section. *)
Theorem tabs_only_for_phases_with_media
    (env : Env) (d : Document) (c : list Node) (data : Manifest)
    (p : Project) :
  projectMount d = Some c ->
  fetch env (projectManifestUrl env) = Response true (Some data) ->
  findProject (projectSlugAttr env) data = Some p ->
  exists d' : Document,
    renderProject env d = Returned d'
    /\ (forall key title get, (key, title, get) ∈ phaseTable ->
          let phase := phaseOf get p in
          ((exists label active, TabButton key label active ∈ tabs d')
           <-> (0 < mediaCount phase)%nat)
          /\ (renderPhase (basePathOf env) key title phase = None
              <-> mediaCount phase = 0%nat)
          /\ ((exists s, SectionNode s ∈ gallerySections d'
                         /\ phaseKey s = key)
              <-> (0 < mediaCount phase)%nat))
    /\ ((forall key title get, (key, title, get) ∈ phaseTable ->
           mediaCount (phaseOf get p) = 0%nat) ->
        (forall key label active,
           TabButton key label active ∈ tabs d' -> key = "overview")
        /\ (length (tabs d') <= 1)%nat
        /\ gallerySections d' = [Box "card" noMediaNote]).
Proof.
  intros Hm Hf Hp. eexists. split; [exact (renderProject_found _ _ _ _ _ Hm Hf Hp) |].
  set (t := defaultTab _ _). split.
  - intros key title get Hin phase. subst phase. split; [| split].
    + rewrite tabs_rendered, tab_button_key.
      rewrite <- hasPhaseContent_count.
      destruct (tabList_keys p) as (Kr & Kb & Kd & Ka & _).
      apply elem_of_phaseTable in Hin
        as [(-> & -> & ->)|[(-> & -> & ->)|[(-> & -> & ->)|(-> & -> & ->)]]];
        [rewrite <- Kr | rewrite <- Kb | rewrite <- Kd | rewrite <- Ka];
        now rewrite bool_decide_eq_true.
    + apply renderPhase_None.
    + rewrite gallerySections_rendered, section_nodes.
      now apply section_with_key with (title := title).
  - intros Hno. destruct (no_media_no_content p Hno) as (Hr & Hb & Hd & Ha).
    assert (Htl : tabList p = if hasOverviewContent p
                              then [("overview", "Overview")] else []).
    { unfold tabList. cbv zeta. rewrite Hr, Hb, Hd, Ha. simpl.
      now destruct (hasOverviewContent p). }
    assert (Hsec : sectionsOf (basePathOf env) p = []).
    { unfold sectionsOf.
      rewrite !(proj2 (renderPhase_None _ _ _ _))
        by (eapply Hno; unfold phaseTable; rewrite !elem_of_cons; auto 10).
      reflexivity. }
    rewrite tabs_rendered, gallerySections_rendered, Htl, Hsec.
    destruct (hasOverviewContent p); cbn [fmap list_fmap length];
      repeat split; try lia.
    + intros key label active Hin. apply list_elem_of_singleton in Hin.
      now injection Hin as -> _ _.
    + intros key label active Hin. now apply elem_of_nil in Hin.
Qed.

End ProjectClaims.

Section ProjectClaims2.
Import Gallery.
Context `{Host}.

(** The double quote of the HTML the renderers write. *)
Local Abbreviation quot := (String (ascii_of_nat 34) EmptyString).

Lemma tabList_no_media_tab (p : Project) : "media" ∉ (tabList p).*1.
Proof.
  intros Hin. destruct (tabList_keys p) as (_ & _ & _ & _ & _ & _ & Hk).
  apply Hk in Hin. rewrite !elem_of_cons, elem_of_nil in Hin.
  intuition discriminate.
Qed.

(** C4 (amended).  On a page whose project was found, [renderProject]
    ends with [switchTab t] on the page it built, where [t] comes from
    the lowercased [tab] parameter [want]: [t] is [want] when [want] is
    the key of a tab of the project; [t] is ["all"] when [want] is
    ["media"] and the project has the tab ["all"]; otherwise [t] is the
    key of the first tab of the project, and ["overview"] when the
    project has no tab. *)
Theorem initial_tab_from_parameter
    (env : Env) (d : Document) (c : list Node) (data : Manifest)
    (p : Project) :
  projectMount d = Some c ->
  fetch env (projectManifestUrl env) = Response true (Some data) ->
  findProject (projectSlugAttr env) data = Some p ->
  let want := toLowerCase (Js.orElse (tabParam env) "") in
  let keys := (tabList p).*1 in
  exists t : string,
    renderProject env d
    = Returned (switchTab t (buildProjectPage (basePathOf env)
                               (projectSlugAttr env) p d))
    /\ (want ∈ keys -> t = want)
    /\ (want = "media" -> "all" ∈ keys -> t = "all")
    /\ (want ∉ keys -> ~ (want = "media" /\ "all" ∈ keys) ->
        t = default "overview" (head keys)).
Proof.
  intros Hm Hf Hp want keys.
  exists (defaultTab (tabList p) want).
  split; [exact (renderProject_found _ _ _ _ _ Hm Hf Hp) |].
  exact (defaultTab_cases (tabList p) want (tabList_no_media_tab p)).
Qed.

Lemma findProject_None (slugAttr : option string) (data : Manifest) :
  (forall x, x ∈ default [] (projects data) -> Some (slug x) <> slugAttr) ->
  findProject slugAttr data = None.
Proof.
  unfold findProject. induction (default [] (projects data)) as [|y l IH];
    intros Hno; [reflexivity |]. simpl.
  rewrite bool_decide_false by (apply Hno, elem_of_cons; now left).
  apply IH. intros x Hx. apply Hno, elem_of_cons. now right.
Qed.

(** C6.  When the manifest loaded and none of its projects has the slug
    of the page's [data-project-slug] attribute, [renderProject] returns,
    and in the document it leaves the mount element holds the "not found"
    card with the slug of the attribute ([null] when the page has none)
    and nothing else, while the title, the badge, the subtitle, the
    overview, the info list, the gallery sections, the tabs, the overview
    block and the grid are what they were: nothing of the project page is
    built.  (The fields are the elements as the code looks them up; what is
    stated is what the call writes to each.) *)
Theorem missing_project_renders_not_found
    (env : Env) (d : Document) (c : list Node) (data : Manifest) :
  projectMount d = Some c ->
  fetch env (projectManifestUrl env) = Response true (Some data) ->
  (forall x, x ∈ default [] (projects data) ->
     Some (slug x) <> projectSlugAttr env) ->
  exists d' : Document,
    renderProject env d = Returned d'
    /\ projectMount d'
       = Some [Markup ("<div class=" +:+ quot +:+ "card" +:+ quot
                       +:+ " style=" +:+ quot
                       +:+ "padding:16px;color:var(--muted)" +:+ quot
                       +:+ ">未找到项目："
                       +:+ Js.interpolate (projectSlugAttr env)
                       +:+ "</div>")]
    /\ projectsGrid d' = projectsGrid d
    /\ projectTitle d' = projectTitle d
    /\ statusBadge d' = statusBadge d
    /\ projectSubtitle d' = projectSubtitle d
    /\ overviewSection d' = overviewSection d
    /\ infoList d' = infoList d
    /\ gallerySections d' = gallerySections d
    /\ tabs d' = tabs d
    /\ overviewBlock d' = overviewBlock d.
Proof.
  intros Hm Hf Hno. eexists. split.
  - unfold renderProject. rewrite Hm. cbv zeta.
    unfold projectManifestUrl in Hf.
    rewrite Hf, (findProject_None _ _ Hno). reflexivity.
  - cbn [projectMount projectsGrid projectTitle statusBadge projectSubtitle
         overviewSection infoList gallerySections tabs overviewBlock
         set_projectMount].
    repeat split.
Qed.

(** C5 (amended).  When the manifest fetch resolves with a response
    that is not [ok], [renderHome] and [renderProject] return, and in the
    document they leave the mount element (the grid for the home page, the
    project mount for a project page) holds the card "Failed to load" with
    the URL ([generated/gallery.json] when the home page has no attribute,
    [null] when the project page has none) and nothing else, while every
    other element is what it was.  When the fetch rejects, both throw and
    the document is as it was. *)
Theorem failed_response_renders_error
    (env : Env) (d : Document) (c : list Node) :
  (projectsGrid d = Some c ->
   forall body, fetch env (homeManifestUrl env) = Response false body ->
   exists d' : Document,
     renderHome env d = Returned d'
     /\ projectsGrid d'
        = Some [Markup ("<div class=" +:+ quot +:+ "card" +:+ quot
                        +:+ " style=" +:+ quot
                        +:+ "padding:16px;color:var(--muted)" +:+ quot
                        +:+ ">Failed to load "
                        +:+ Js.orElse (galleryUrlAttr env)
                                      "generated/gallery.json"
                        +:+ "</div>")]
     /\ projectMount d' = projectMount d
     /\ projectTitle d' = projectTitle d
     /\ statusBadge d' = statusBadge d
     /\ projectSubtitle d' = projectSubtitle d
     /\ overviewSection d' = overviewSection d
     /\ infoList d' = infoList d
     /\ gallerySections d' = gallerySections d
     /\ tabs d' = tabs d
     /\ overviewBlock d' = overviewBlock d)
  /\ (projectMount d = Some c ->
      forall body, fetch env (projectManifestUrl env) = Response false body ->
      exists d' : Document,
        renderProject env d = Returned d'
        /\ projectMount d'
           = Some [Markup ("<div class=" +:+ quot +:+ "card" +:+ quot
                           +:+ " style=" +:+ quot
                           +:+ "padding:16px;color:var(--muted)" +:+ quot
                           +:+ ">Failed to load "
                           +:+ Js.interpolate (galleryUrlAttr env)
                           +:+ "</div>")]
        /\ projectsGrid d' = projectsGrid d
        /\ projectTitle d' = projectTitle d
        /\ statusBadge d' = statusBadge d
        /\ projectSubtitle d' = projectSubtitle d
        /\ overviewSection d' = overviewSection d
        /\ infoList d' = infoList d
        /\ gallerySections d' = gallerySections d
        /\ tabs d' = tabs d
        /\ overviewBlock d' = overviewBlock d)
  /\ (projectsGrid d = Some c ->
      fetch env (homeManifestUrl env) = Rejected ->
      renderHome env d = Thrown d)
  /\ (projectMount d = Some c ->
      fetch env (projectManifestUrl env) = Rejected ->
      renderProject env d = Thrown d).
Proof.
  unfold homeManifestUrl, projectManifestUrl, renderHome, renderProject.
  split; [| split; [| split]].
  - intros Hg body Hf. rewrite Hg. cbv zeta. rewrite Hf. eexists.
    split; [reflexivity |].
    cbn [projectMount projectsGrid projectTitle statusBadge projectSubtitle
         overviewSection infoList gallerySections tabs overviewBlock
         set_projectsGrid].
    repeat split.
  - intros Hm body Hf. rewrite Hm. cbv zeta. rewrite Hf. eexists.
    split; [reflexivity |].
    cbn [projectMount projectsGrid projectTitle statusBadge projectSubtitle
         overviewSection infoList gallerySections tabs overviewBlock
         set_projectMount].
    repeat split.
  - intros Hg Hf. rewrite Hg. cbv zeta. now rewrite Hf.
  - intros Hm Hf. rewrite Hm. cbv zeta. now rewrite Hf.
Qed.

End ProjectClaims2.

Section OverviewClaims.
Import Gallery.
Context `{Host}.

Lemma overviewFields_metadata (p : Project) :
  overviewFields p = (fun kv => (kv.1, safeText kv.2)) <$> metadataFields p.
Proof. reflexivity. Qed.

(** The labels of the nine fields are distinct, and none is the label
    of the fallback row. *)
Lemma metadataFields_labels (p : Project) :
  NoDup (metadataFields p).*1 /\ "Info" ∉ (metadataFields p).*1.
Proof.
  split.
  - apply (bool_decide_unpack _). vm_compute. exact I.
  - apply (bool_decide_unpack _). vm_compute. exact I.
Qed.

Lemma NoDup_fst_functional {V : Type} (l : list (string * V))
    (k : string) (v1 v2 : V) :
  NoDup l.*1 -> (k, v1) ∈ l -> (k, v2) ∈ l -> v1 = v2.
Proof.
  induction l as [|[k' v'] l IH]; intros Hnd H1 H2.
  - now apply elem_of_nil in H1.
  - simpl in Hnd. apply NoDup_cons in Hnd as [Hk Hnd].
    apply elem_of_cons in H1 as [E1|H1], H2 as [E2|H2].
    + congruence.
    + injection E1 as -> ->. exfalso. apply Hk.
      apply list_elem_of_fmap. now exists (k', v2).
    + injection E2 as -> ->. exfalso. apply Hk.
      apply list_elem_of_fmap. now exists (k', v1).
    + now apply IH.
Qed.

(** The rows of the info list: one per field with a value that is not
    empty; the fallback row carries the label [Info]. *)
Lemma info_row (p : Project) (label v : string) :
  label <> "Info" ->
  InfoItem label v ∈ infoItems p
  <-> (label, v) ∈ overviewFields p /\ v <> "".
Proof.
  intros Hl. unfold infoItems, buildInfoItem. cbv zeta.
  set (kept := List.filter _ (overviewFields p)).
  assert (Hkept : forall k x, (k, x) ∈ kept
                              <-> (k, x) ∈ overviewFields p /\ x <> "").
  { intros k x. subst kept. rewrite !list_elem_of_In, filter_In. simpl.
    now rewrite bool_decide_eq_true. }
  assert (Hrows : InfoItem label v ∈ (fun kv => InfoItem kv.1 kv.2) <$> kept
                  <-> (label, v) ∈ kept).
  { rewrite list_elem_of_fmap. split.
    - intros ([k x] & E & Hin). simpl in E. now injection E as -> ->.
    - intros Hin. now exists (label, v). }
  rewrite <- Hkept. destruct kept as [|kv kept'] eqn:Ek.
  - simpl. rewrite list_elem_of_singleton, elem_of_nil.
    split; [intros [= ? _]; contradiction | tauto].
  - rewrite <- Hrows. reflexivity.
Qed.

Lemma safeText_nonempty (value : option string) :
  safeText value <> "" <-> exists s, value = Some s /\ Js.trim s <> "".
Proof.
  destruct value as [s|]; unfold safeText; simpl.
  - split; [intros Hs; now exists s | now intros (s' & [= <-] & Hs)].
  - split; [intros Hs; now contradiction Hs | now intros (s' & [=] & _)].
Qed.

(** C7.  On a page whose project [p] was found, [renderProject]
    returns, and for each of the nine metadata fields the info list has
    a row with the field's label exactly when the field has a value that
    is not empty after trimming; the row then shows the trimmed value; a
    field that is missing has no row. *)
Theorem overview_rows_for_nonempty_fields
    (env : Env) (d : Document) (c : list Node) (data : Manifest)
    (p : Project) :
  projectMount d = Some c ->
  fetch env (projectManifestUrl env) = Response true (Some data) ->
  findProject (projectSlugAttr env) data = Some p ->
  exists d' : Document,
    renderProject env d = Returned d'
    /\ forall (label : string) (value : option string),
         (label, value) ∈ metadataFields p ->
         ((exists v, InfoItem label v ∈ infoList d')
          <-> (exists s, value = Some s /\ Js.trim s <> ""))
         /\ (forall v, InfoItem label v ∈ infoList d' -> v = safeText value)
         /\ (value = None -> forall v, InfoItem label v ∉ infoList d').
Proof.
  intros Hm Hf Hp. eexists.
  split; [exact (renderProject_found _ _ _ _ _ Hm Hf Hp) |].
  intros label value Hin. rewrite infoList_rendered.
  destruct (metadataFields_labels p) as [Hnd Hinfo].
  assert (Hl : label <> "Info").
  { intros ->. apply Hinfo, list_elem_of_fmap. now exists ("Info", value). }
  assert (Hself : (label, safeText value) ∈ overviewFields p).
  { rewrite overviewFields_metadata. apply list_elem_of_fmap.
    now exists (label, value). }
  assert (Hval : forall v, (label, v) ∈ overviewFields p -> v = safeText value).
  { intros v Hv. rewrite overviewFields_metadata in Hv.
    apply list_elem_of_fmap in Hv as ([k x] & E & Hx). simpl in E.
    injection E as -> ->.
    now rewrite (NoDup_fst_functional _ _ _ _ Hnd Hin Hx). }
  assert (Hrow : forall v, InfoItem label v ∈ infoItems p
                           <-> v = safeText value /\ safeText value <> "").
  { intros v. rewrite (info_row p label v Hl). split.
    - intros [Hv Hne]. rewrite <- (Hval v Hv). auto.
    - intros [-> Hne]. auto. }
  split; [| split].
  - rewrite <- safeText_nonempty. split.
    + intros [v Hv]. now apply Hrow in Hv.
    + intros Hne. exists (safeText value). now apply Hrow.
  - intros v Hv. now apply Hrow in Hv.
  - intros -> v Hv. apply Hrow in Hv as [_ Hne]. now apply Hne.
Qed.

End OverviewClaims.

(** ** Closed instances *)

Section ClosedInstances.
Import Gallery.

Local Abbreviation quot := (String (ascii_of_nat 34) EmptyString).

Lemma tabs_only_for_phases_with_media_witness :
  let env := Sample.envWith None (Some "school")
               (Response true (Some Sample.manifest)) in
  projectMount Sample.projectDocument = Some []
  /\ fetch env (projectManifestUrl env) = Response true (Some Sample.manifest)
  /\ findProject (projectSlugAttr env) Sample.manifest = Some Sample.school
  /\ exists d' : Document,
       @renderProject asciiHost env Sample.projectDocument = Returned d'
       /\ ((exists label active, TabButton "before" label active ∈ tabs d')
           <-> (0 < mediaCount (phaseOf before Sample.school))%nat).
Proof.
  intros env. split; [reflexivity |]. split; [reflexivity |].
  split; [reflexivity |].
  destruct (@tabs_only_for_phases_with_media asciiHost env
              Sample.projectDocument [] Sample.manifest Sample.school
              eq_refl eq_refl eq_refl) as (d' & Hr & Hph & _).
  exists d'. split; [exact Hr |].
  apply (Hph "before" "Before" before).
  unfold phaseTable. rewrite !elem_of_cons. auto.
Defined.

Lemma initial_tab_from_parameter_witness :
  let env := Sample.envWith (Some "Before") (Some "school")
               (Response true (Some Sample.manifest)) in
  projectMount Sample.projectDocument = Some []
  /\ fetch env (projectManifestUrl env) = Response true (Some Sample.manifest)
  /\ findProject (projectSlugAttr env) Sample.manifest = Some Sample.school
  /\ exists t : string,
       @renderProject asciiHost env Sample.projectDocument
       = Returned (switchTab t
                     (@buildProjectPage asciiHost (basePathOf env)
                        (projectSlugAttr env) Sample.school
                        Sample.projectDocument))
       /\ t = "before".
Proof.
  intros env. split; [reflexivity |]. split; [reflexivity |].
  split; [reflexivity |].
  destruct (@initial_tab_from_parameter asciiHost env
              Sample.projectDocument [] Sample.manifest Sample.school
              eq_refl eq_refl eq_refl) as (t & Hr & Hin & _).
  exists t. split; [exact Hr |].
  apply Hin. apply (bool_decide_unpack _). vm_compute. exact I.
Defined.

(** Against C4 as stated: with [?tab=media] on a project that has an
    overview and media, [media] is not the key of a tab and the first
    tab is [overview], yet [switchTab] gets [all], and the page differs
    from the one [switchTab("overview")] leaves. *)
Lemma tab_media_selects_all_not_first :
  let env := Sample.envWith (Some "media") (Some "school")
               (Response true (Some Sample.manifest)) in
  let page := @buildProjectPage asciiHost (basePathOf env)
                (projectSlugAttr env) Sample.school Sample.projectDocument in
  (@toLowerCase asciiHost (Js.orElse (tabParam env) "")) = "media"
  /\ ("media" ∉ (tabList Sample.school).*1)
  /\ head (tabList Sample.school).*1 = Some "overview"
  /\ @renderProject asciiHost env Sample.projectDocument
     = Returned (switchTab "all" page)
  /\ @renderProject asciiHost env Sample.projectDocument
     <> Returned (switchTab "overview" page).
Proof.
  intros env page. split; [reflexivity |].
  split; [apply (bool_decide_unpack _); vm_compute; exact I |].
  split; [reflexivity |].
  split; [vm_compute; reflexivity |].
  intros E.
  apply (f_equal (fun r => match r with
                           | Returned x | Thrown x => overviewBlock x
                           end)) in E.
  vm_compute in E. discriminate E.
Qed.

Lemma missing_project_renders_not_found_witness :
  let env := Sample.envWith None (Some "missing")
               (Response true (Some Sample.manifest)) in
  projectMount Sample.projectDocument = Some []
  /\ fetch env (projectManifestUrl env) = Response true (Some Sample.manifest)
  /\ (forall x, x ∈ default [] (projects Sample.manifest) ->
        Some (slug x) <> projectSlugAttr env)
  /\ exists d' : Document,
       @renderProject asciiHost env Sample.projectDocument = Returned d'
       /\ projectMount d'
          = Some [Markup ("<div class=" +:+ quot +:+ "card" +:+ quot
                          +:+ " style=" +:+ quot
                          +:+ "padding:16px;color:var(--muted)" +:+ quot
                          +:+ ">未找到项目：missing</div>")]
       /\ tabs d' = [].
Proof.
  intros env.
  assert (Hno : forall x, x ∈ default [] (projects Sample.manifest) ->
                  Some (slug x) <> projectSlugAttr env).
  { intros x Hx. simpl in Hx. rewrite !elem_of_cons, elem_of_nil in Hx.
    destruct Hx as [->|[->|[->|[]]]]; discriminate. }
  split; [reflexivity |]. split; [reflexivity |]. split; [exact Hno |].
  destruct (@missing_project_renders_not_found asciiHost env
              Sample.projectDocument [] Sample.manifest
              eq_refl eq_refl Hno)
    as (d' & Hr & Hmount & _ & _ & _ & _ & _ & _ & _ & Ht & _).
  exists d'. split; [exact Hr |]. split; [exact Hmount | exact Ht].
Defined.

Lemma overview_rows_for_nonempty_fields_witness :
  let env := Sample.envWith None (Some "school")
               (Response true (Some Sample.manifest)) in
  projectMount Sample.projectDocument = Some []
  /\ fetch env (projectManifestUrl env) = Response true (Some Sample.manifest)
  /\ findProject (projectSlugAttr env) Sample.manifest = Some Sample.school
  /\ exists d' : Document,
       @renderProject asciiHost env Sample.projectDocument = Returned d'
       /\ ((exists v, InfoItem "Date" v ∈ infoList d')
           <-> (exists s, date Sample.school = Some s /\ Js.trim s <> "")).
Proof.
  intros env. split; [reflexivity |]. split; [reflexivity |].
  split; [reflexivity |].
  destruct (@overview_rows_for_nonempty_fields asciiHost env
              Sample.projectDocument [] Sample.manifest Sample.school
              eq_refl eq_refl eq_refl) as (d' & Hr & Hrows).
  exists d'. split; [exact Hr |].
  apply (Hrows "Date" (date Sample.school)).
  unfold metadataFields. rewrite !elem_of_cons. auto.
Defined.

Lemma failed_response_renders_error_witness :
  let env := Sample.envWith None (Some "school") (Response false None) in
  projectsGrid Sample.homeDocument = Some []
  /\ fetch env (homeManifestUrl env) = Response false None
  /\ projectMount Sample.projectDocument = Some []
  /\ fetch env (projectManifestUrl env) = Response false None
  /\ (exists d' : Document,
        @renderHome asciiHost env Sample.homeDocument = Returned d'
        /\ projectsGrid d'
           = Some [Markup ("<div class=" +:+ quot +:+ "card" +:+ quot
                           +:+ " style=" +:+ quot
                           +:+ "padding:16px;color:var(--muted)" +:+ quot
                           +:+ ">Failed to load generated/gallery.json</div>")])
  /\ (exists d' : Document,
        @renderProject asciiHost env Sample.projectDocument = Returned d'
        /\ projectMount d'
           = Some [Markup ("<div class=" +:+ quot +:+ "card" +:+ quot
                           +:+ " style=" +:+ quot
                           +:+ "padding:16px;color:var(--muted)" +:+ quot
                           +:+ ">Failed to load generated/gallery.json</div>")]
        /\ tabs d' = []).
Proof.
  intros env. split; [reflexivity |]. split; [reflexivity |].
  split; [reflexivity |]. split; [reflexivity |].
  destruct (@failed_response_renders_error asciiHost env
              Sample.homeDocument []) as (Hhome & _).
  destruct (@failed_response_renders_error asciiHost env
              Sample.projectDocument []) as (_ & Hproject & _).
  destruct (Hhome eq_refl None eq_refl) as (d1 & Hr1 & Hg1 & _).
  destruct (Hproject eq_refl None eq_refl)
    as (d2 & Hr2 & Hm2 & _ & _ & _ & _ & _ & _ & _ & Ht2 & _).
  split; [exists d1; split; [exact Hr1 | exact Hg1] |].
  exists d2. split; [exact Hr2 |]. split; [exact Hm2 | exact Ht2].
Defined.

(** Against C5 as stated: a fetch that fails because its promise
    rejects.  Both renderers throw; the mount is as it was and holds no
    message. *)
Lemma rejected_fetch_renders_no_message :
  let env := Sample.envWith None (Some "school") Rejected in
  fetch env (homeManifestUrl env) = Rejected
  /\ fetch env (projectManifestUrl env) = Rejected
  /\ @renderHome asciiHost env Sample.homeDocument
     = Thrown Sample.homeDocument
  /\ @renderHome asciiHost env Sample.homeDocument
     <> Returned (set_projectsGrid
                    [Markup (messageCard ("Failed to load " +:+ homeDataUrl env))]
                    Sample.homeDocument)
  /\ @renderProject asciiHost env Sample.projectDocument
     = Thrown Sample.projectDocument
  /\ @renderProject asciiHost env Sample.projectDocument
     <> Returned (set_projectMount
                    [Markup (messageCard
                               ("Failed to load "
                                +:+ Js.interpolate (galleryUrlAttr env)))]
                    Sample.projectDocument).
Proof.
  intros env. repeat split; try reflexivity; intros E; discriminate E.
Qed.

End ClosedInstances.

(** * More properties of the code *)

(** ** The lightbox *)

Section LightboxMore.
Import Lightbox LightboxView.

Lemma display_shows_current (it : Item) (s : State) :
  at_index (items s) (idx s) = Some it -> shows_current (display it s).
Proof. intros Hit _. exists it. simpl. auto. Qed.

Lemma render_shows_current (s : State) :
  in_range s -> shows_current (state_of (render s)).
Proof.
  intros Hs. destruct (decide (items s = [])) as [He|Hne].
  - rewrite render_empty by exact He. intros Hn. contradiction.
  - destruct (render_in_range s Hne (Hs Hne)) as (it & Hit & ->).
    now apply display_shows_current.
Qed.

Lemma shows_current_set_open (o : bool) (ov : string) (s : State) :
  shows_current s -> shows_current (set_open o ov s).
Proof. intros Hs. exact Hs. Qed.

Lemma shows_current_next (s : State) :
  in_range s -> shows_current s -> shows_current (state_of (next s)).
Proof.
  intros Hr Hs. unfold next. destruct (decide (items s = [])) as [He|Hne];
    [exact Hs |].
  apply render_shows_current. intros _. simpl.
  destruct (rem_next_in_range (idx s) (len (items s)) (Hr Hne)) as [-> ?].
  assumption.
Qed.

Lemma shows_current_prev (s : State) :
  in_range s -> shows_current s -> shows_current (state_of (prev s)).
Proof.
  intros Hr Hs. unfold prev. destruct (decide (items s = [])) as [He|Hne];
    [exact Hs |].
  apply render_shows_current. intros _. simpl.
  apply rem_prev_in_range, Hr, Hne.
Qed.

Lemma shows_current_open (newItems : option (list Item)) (start : option Z)
    (s : State) :
  shows_current (state_of (open newItems start s)).
Proof.
  destruct (decide (default [] newItems = [])) as [He|Hne].
  - rewrite open_empty by exact He. intros Hn. now simpl in Hn.
  - destruct newItems as [l|]; [simpl in Hne | now simpl in Hne].
    unfold open. cbv zeta. change (default [] (Some l)) with l.
    set (i := Z.max 0 (Z.min (default 0 start) (len l - 1))).
    assert (Hi : 0 <= i < len l) by (apply clamp_in_range, len_pos, Hne).
    destruct (render_in_range (set_items_idx l i s) Hne Hi) as (it & Hit & ->).
    simpl state_of. apply shows_current_set_open.
    now apply display_shows_current.
Qed.

Lemma shows_current_handle (e : Event) (s : State) :
  in_range s -> shows_current s -> shows_current (state_of (handle e s)).
Proof.
  intros Hr Hs. destruct e; simpl;
    auto using shows_current_open, shows_current_next, shows_current_prev,
               shows_current_set_open.
  unfold keydown. destruct (negb (overlayOpen s)); [exact Hs |].
  repeat case_decide; simpl;
    auto using shows_current_next, shows_current_prev, shows_current_set_open.
Qed.

Lemma reachable_shows_current (s : State) : reachable s -> shows_current s.
Proof.
  induction 1 as [| e s Hr IH].
  - intros Hn. now simpl in Hn.
  - apply shows_current_handle; [now apply reachable_in_range | exact IH].
Qed.

(** X1.  In every state the lightbox can reach with a non-empty array,
    the image element shows the entry at [idx] (its large source, its alt
    text or the empty string), and the previous and next buttons are
    displayed exactly when the array has more than one entry. *)
Theorem lightbox_shows_entry_at_idx (s : State) :
  reachable s -> items s <> [] ->
  exists it,
    at_index (items s) (idx s) = Some it
    /\ imgSrc s = itemLarge it
    /\ imgAlt s = Js.orElse (itemAlt it) ""
    /\ (prevDisplay s = "block" <-> 1 < len (items s))
    /\ (nextDisplay s = "block" <-> 1 < len (items s))
    /\ (prevDisplay s = "none" <-> len (items s) = 1)
    /\ (nextDisplay s = "none" <-> len (items s) = 1).
Proof.
  intros Hr Hne.
  destruct (reachable_shows_current s Hr Hne) as (it & Hit & Hsrc & Halt & Hp & Hn).
  pose proof (len_pos _ Hne) as Hpos.
  exists it. rewrite Hp, Hn.
  destruct (Z.ltb_spec 1 (len (items s))); repeat split; auto;
    try (intros; lia); try discriminate.
Qed.

Lemma lightbox_shows_entry_at_idx_witness :
  reachable Sample.openedAtEnd /\ items Sample.openedAtEnd <> []
  /\ exists it,
       at_index (items Sample.openedAtEnd) (idx Sample.openedAtEnd) = Some it
       /\ imgSrc Sample.openedAtEnd = itemLarge it.
Proof.
  assert (Hr : reachable Sample.openedAtEnd) by (apply reach_step, reach_init).
  assert (Hne : items Sample.openedAtEnd <> []) by discriminate.
  split; [exact Hr |]. split; [exact Hne |].
  destruct (lightbox_shows_entry_at_idx Sample.openedAtEnd Hr Hne)
    as (it & Hit & Hsrc & _).
  exists it. split; [exact Hit | exact Hsrc].
Defined.


(** *** Moving through the array *)

Lemma showAt_in_range (j : Z) (s : State) :
  0 <= j < len (items s) ->
  exists it, at_index (items s) j = Some it
             /\ showAt j s = display it (set_items_idx (items s) j s).
Proof.
  intros Hj. destruct (at_index_in_range _ _ Hj) as [it Hit].
  exists it. split; [exact Hit |]. unfold showAt. now rewrite Hit.
Qed.

Lemma showAt_fields (j : Z) (s : State) :
  0 <= j < len (items s) ->
  items (showAt j s) = items s /\ idx (showAt j s) = j
  /\ overlayOpen (showAt j s) = overlayOpen s
  /\ bodyOverflow (showAt j s) = bodyOverflow s.
Proof.
  intros Hj. destruct (showAt_in_range j s Hj) as (it & _ & ->). simpl. auto.
Qed.

Lemma showAt_showAt (i j : Z) (s : State) :
  0 <= i < len (items s) -> 0 <= j < len (items s) ->
  showAt j (showAt i s) = showAt j s.
Proof.
  intros Hi Hj. destruct (showAt_in_range i s Hi) as (iti & _ & ->).
  destruct (at_index_in_range _ _ Hj) as [itj Hitj].
  unfold showAt. simpl. now rewrite Hitj.
Qed.

(** A state that shows its current entry is [showAt] of its own index. *)
Lemma showAt_self (s : State) :
  items s <> [] -> shows_current s -> showAt (idx s) s = s.
Proof.
  intros Hne Hs. destruct (Hs Hne) as (it & Hit & Hsrc & Halt & Hp & Hn).
  unfold showAt. rewrite Hit. destruct s; simpl in *. now subst.
Qed.

Lemma next_showAt (s : State) :
  items s <> [] -> in_range s ->
  state_of (next s) = showAt ((idx s + 1) mod len (items s)) s.
Proof.
  intros Hne Hr. destruct (rem_next_in_range _ _ (Hr Hne)) as [Hrem Hj].
  unfold next. rewrite decide_False by exact Hne. rewrite Hrem.
  destruct (render_in_range (set_items_idx (items s)
                               ((idx s + 1) mod len (items s)) s) Hne Hj)
    as (it & Hit & ->).
  simpl in Hit. unfold showAt. now rewrite Hit.
Qed.

Lemma prev_showAt (s : State) :
  items s <> [] -> in_range s ->
  state_of (prev s) = showAt ((idx s - 1) mod len (items s)) s.
Proof.
  intros Hne Hr. pose proof (Hr Hne) as Hi.
  assert (Hrem : Z.rem (idx s - 1 + len (items s)) (len (items s))
                 = (idx s - 1) mod len (items s)).
  { rewrite Z.rem_mod_nonneg by lia.
    rewrite <- (Z_mod_plus_full (idx s - 1) 1 (len (items s))).
    f_equal. lia. }
  assert (Hj : 0 <= (idx s - 1) mod len (items s) < len (items s))
    by (apply Z.mod_pos_bound; lia).
  unfold prev. rewrite decide_False by exact Hne. rewrite Hrem.
  destruct (render_in_range (set_items_idx (items s)
                               ((idx s - 1) mod len (items s)) s) Hne Hj)
    as (it & Hit & ->).
  simpl in Hit. unfold showAt. now rewrite Hit.
Qed.

Lemma mod_succ_pred (i n : Z) :
  0 <= i < n -> ((i + 1) mod n - 1) mod n = i /\ ((i - 1) mod n + 1) mod n = i.
Proof.
  intros Hi. split.
  - rewrite Zminus_mod_idemp_l. replace (i + 1 - 1) with i by lia.
    apply Z.mod_small, Hi.
  - rewrite Zplus_mod_idemp_l. replace (i - 1 + 1) with i by lia.
    apply Z.mod_small, Hi.
Qed.

(** X2.  In a lightbox that holds a non-empty array, [prev] undoes [next]
    and [next] undoes [prev]: after the two clicks the whole state, index
    and image shown included, is what it was. *)
Theorem prev_and_next_are_inverse (s : State) :
  reachable s -> items s <> [] ->
  state_of (prev (state_of (next s))) = s
  /\ state_of (next (state_of (prev s))) = s.
Proof.
  intros Hreach Hne.
  pose proof (reachable_in_range s Hreach) as Hr.
  pose proof (reachable_shows_current s Hreach) as Hs.
  pose proof (Hr Hne) as Hi.
  pose proof (len_pos _ Hne) as Hpos.
  destruct (mod_succ_pred _ _ Hi) as [Hsp Hps].
  assert (Hn : 0 <= (idx s + 1) mod len (items s) < len (items s))
    by (apply Z.mod_pos_bound; lia).
  assert (Hp : 0 <= (idx s - 1) mod len (items s) < len (items s))
    by (apply Z.mod_pos_bound; lia).
  split.
  - rewrite (next_showAt s Hne Hr).
    destruct (showAt_fields _ s Hn) as (Hit & Hidx & _).
    rewrite prev_showAt.
    + rewrite Hit, Hidx, Hsp, showAt_showAt by assumption.
      now apply showAt_self.
    + now rewrite Hit.
    + intros _. now rewrite Hit, Hidx.
  - rewrite (prev_showAt s Hne Hr).
    destruct (showAt_fields _ s Hp) as (Hit & Hidx & _).
    rewrite next_showAt.
    + rewrite Hit, Hidx, Hps, showAt_showAt by assumption.
      now apply showAt_self.
    + now rewrite Hit.
    + intros _. now rewrite Hit, Hidx.
Qed.

Lemma prev_and_next_are_inverse_witness :
  reachable Sample.openedAtEnd /\ items Sample.openedAtEnd <> []
  /\ state_of (prev (state_of (next Sample.openedAtEnd))) = Sample.openedAtEnd.
Proof.
  assert (Hr : reachable Sample.openedAtEnd) by (apply reach_step, reach_init).
  assert (Hne : items Sample.openedAtEnd <> []) by discriminate.
  split; [exact Hr |]. split; [exact Hne |].
  exact (proj1 (prev_and_next_are_inverse Sample.openedAtEnd Hr Hne)).
Defined.

Lemma iter_next_showAt (k : nat) (s : State) :
  items s <> [] -> in_range s -> shows_current s ->
  Nat.iter k (fun st => state_of (next st)) s
  = showAt ((idx s + Z.of_nat k) mod len (items s)) s.
Proof.
  intros Hne Hr Hs. pose proof (Hr Hne) as Hi.
  pose proof (len_pos _ Hne) as Hpos.
  induction k as [|k IH].
  - simpl. rewrite Z.add_0_r, Z.mod_small by exact Hi.
    symmetry. now apply showAt_self.
  - simpl Nat.iter. rewrite IH.
    assert (Hk : 0 <= (idx s + Z.of_nat k) mod len (items s) < len (items s))
      by (apply Z.mod_pos_bound; lia).
    destruct (showAt_fields _ s Hk) as (Hit & Hidx & _).
    rewrite next_showAt; [| now rewrite Hit | intros _; now rewrite Hit, Hidx].
    rewrite Hit, Hidx, Zplus_mod_idemp_l.
    replace (idx s + Z.of_nat k + 1) with (idx s + Z.of_nat (S k)) by lia.
    apply showAt_showAt; [exact Hk |]. apply Z.mod_pos_bound. lia.
Qed.

(** X3.  In a lightbox that holds [n > 0] entries, [k] clicks on next move
    the index to [(idx + k) mod n], and [n] clicks bring back the very
    state they started from. *)
Theorem next_cycles_through_the_array (s : State) (k : nat) :
  reachable s -> items s <> [] ->
  idx (Nat.iter k (fun st => state_of (next st)) s)
  = (idx s + Z.of_nat k) mod len (items s)
  /\ Nat.iter (length (items s)) (fun st => state_of (next st)) s = s.
Proof.
  intros Hreach Hne.
  pose proof (reachable_in_range s Hreach) as Hr.
  pose proof (reachable_shows_current s Hreach) as Hs.
  pose proof (Hr Hne) as Hi. pose proof (len_pos _ Hne) as Hpos.
  split.
  - rewrite iter_next_showAt by assumption.
    apply showAt_fields, Z.mod_pos_bound. lia.
  - rewrite iter_next_showAt by assumption. fold (len (items s)).
    rewrite <- (Z.mul_1_l (len (items s))) at 1.
    rewrite Z_mod_plus_full, Z.mod_small by exact Hi.
    now apply showAt_self.
Qed.

Lemma next_cycles_through_the_array_witness :
  reachable Sample.openedAtEnd /\ items Sample.openedAtEnd <> []
  /\ Nat.iter 3 (fun st => state_of (next st)) Sample.openedAtEnd
     = Sample.openedAtEnd.
Proof.
  assert (Hr : reachable Sample.openedAtEnd) by (apply reach_step, reach_init).
  assert (Hne : items Sample.openedAtEnd <> []) by discriminate.
  split; [exact Hr |]. split; [exact Hne |].
  exact (proj2 (next_cycles_through_the_array Sample.openedAtEnd 0 Hr Hne)).
Defined.


(** *** Keys and the empty array *)

Lemma keydown_closed (k : string) (s : State) :
  overlayOpen s = false -> keydown k s = Returned s.
Proof. intros Ho. unfold keydown. now rewrite Ho. Qed.

Lemma run_keys_closed (ks : list string) (s : State) :
  overlayOpen s = false -> run (KeyDown <$> ks) s = s.
Proof.
  intros Ho. induction ks as [|k ks IH]; [reflexivity |].
  simpl. unfold run in *. simpl. now rewrite keydown_closed.
Qed.

(** X4.  While the overlay is closed the keyboard does nothing: any
    sequence of key presses leaves the state as it is.  With the overlay
    open, Escape closes it without touching the array, the index or the
    image, and the keys pressed after it are ignored. *)
Theorem keys_ignored_while_closed (ks : list string) (s : State) :
  (overlayOpen s = false -> run (KeyDown <$> ks) s = s)
  /\ (overlayOpen s = true ->
      run (KeyDown <$> "Escape" :: ks) s = close s
      /\ items (close s) = items s /\ idx (close s) = idx s
      /\ imgSrc (close s) = imgSrc s /\ overlayOpen (close s) = false).
Proof.
  split; [apply run_keys_closed |].
  intros Ho. split; [| repeat split].
  change (run (KeyDown <$> "Escape" :: ks) s)
    with (run (KeyDown <$> ks) (state_of (keydown "Escape" s))).
  unfold keydown. rewrite Ho. simpl negb. cbv iota.
  rewrite decide_True by reflexivity. simpl state_of.
  now apply run_keys_closed.
Qed.

Lemma keys_ignored_while_closed_witness :
  overlayOpen Sample.freshLightbox = false
  /\ run (KeyDown <$> ["ArrowRight"; "ArrowLeft"; "Escape"]) Sample.freshLightbox
     = Sample.freshLightbox.
Proof.
  split; [reflexivity |].
  exact (proj1 (keys_ignored_while_closed
                  ["ArrowRight"; "ArrowLeft"; "Escape"] Sample.freshLightbox)
               eq_refl).
Defined.

(** X5.  [open] with an empty array, or with none, whatever the start
    index: the overlay opens and the page stops scrolling, but [render]
    returns at once, so the image element keeps the source and the alt
    text it had, and [prev] and [next] then do nothing. *)
Theorem open_with_nothing_to_show
    (newItems : option (list Item)) (start : option Z) (s : State) :
  default [] newItems = [] ->
  exists s',
    open newItems start s = Returned s'
    /\ overlayOpen s' = true /\ bodyOverflow s' = "hidden"
    /\ items s' = [] /\ idx s' = 0
    /\ imgSrc s' = imgSrc s /\ imgAlt s' = imgAlt s
    /\ prevDisplay s' = prevDisplay s /\ nextDisplay s' = nextDisplay s
    /\ next s' = Returned s' /\ prev s' = Returned s'.
Proof.
  intros He. eexists. split; [now apply open_empty |].
  repeat split.
Qed.

Lemma open_with_nothing_to_show_witness :
  default [] (@None (list Item)) = []
  /\ exists s',
       open None (Some (-3)) Sample.openedAtEnd = Returned s'
       /\ overlayOpen s' = true
       /\ imgSrc s' = imgSrc Sample.openedAtEnd.
Proof.
  split; [reflexivity |].
  destruct (open_with_nothing_to_show None (Some (-3)) Sample.openedAtEnd
              eq_refl) as (s' & Ho & Hov & _ & _ & _ & Hsrc & _).
  exists s'. auto.
Defined.

End LightboxMore.

(** ** The base path and the URLs under it *)

Section BasePathMore.
Import Gallery.

Local Abbreviation chars := String.list_ascii_of_string.

Lemma chars_inj (s t : string) : chars s = chars t -> s = t.
Proof.
  intros E. rewrite <- (String.string_of_list_ascii_of_string s),
                    <- (String.string_of_list_ascii_of_string t).
  now rewrite E.
Qed.

Lemma chars_rev_app (s1 s2 : string) :
  chars (String.rev_app s1 s2) = rev (chars s1) ++ chars s2.
Proof.
  revert s2. induction s1 as [|c s1 IH]; intros s2; [reflexivity |].
  simpl. rewrite IH. simpl. now rewrite <- app_assoc.
Qed.

Lemma chars_rev (s : string) : chars (String.rev s) = rev (chars s).
Proof. unfold String.rev. rewrite chars_rev_app. simpl. apply app_nil_r. Qed.

Lemma chars_app (s t : string) : chars (s +:+ t) = chars s ++ chars t.
Proof.
  induction s as [|c s IH]; [reflexivity |].
  change (String c s +:+ t) with (String c (s +:+ t)). simpl. now rewrite IH.
Qed.

Lemma rev_rev_app (seg cur : string) :
  String.rev (String.rev_app seg cur) = String.rev cur +:+ seg.
Proof.
  apply chars_inj.
  rewrite chars_rev, chars_rev_app, chars_app, chars_rev, rev_app_distr.
  now rewrite rev_involutive.
Qed.

Lemma elem_of_rev (c : ascii) (l : list ascii) : c ∈ rev l <-> c ∈ l.
Proof. rewrite !list_elem_of_In. symmetry. apply in_rev. Qed.

(** No segment of a split holds the separator. *)
Lemma split_go_no_sep (sep : ascii) (s cur e : string) :
  sep ∉ chars cur -> e ∈ Js.split_go sep cur s -> sep ∉ chars e.
Proof.
  revert cur. induction s as [|c r IH]; intros cur Hcur He; simpl in He.
  - apply list_elem_of_singleton in He as ->.
    rewrite chars_rev. now rewrite elem_of_rev.
  - destruct (decide (c = sep)) as [->|Hc].
    + apply elem_of_cons in He as [->|He].
      * rewrite chars_rev. now rewrite elem_of_rev.
      * apply (IH EmptyString); [apply not_elem_of_nil | exact He].
    + apply (IH (String c cur)); [| exact He].
      simpl. rewrite not_elem_of_cons. split; [congruence | exact Hcur].
Qed.

(** A segment that holds no separator, followed by one, is the first
    piece of the split. *)
Lemma split_go_segment (sep : ascii) (seg cur rest : string) :
  sep ∉ chars seg ->
  Js.split_go sep cur (seg +:+ String sep rest)
  = (String.rev cur +:+ seg) :: Js.split_go sep EmptyString rest.
Proof.
  revert cur. induction seg as [|c seg IH]; intros cur Hseg.
  - change ("" +:+ String sep rest) with (String sep rest). simpl.
    rewrite decide_True by reflexivity. f_equal.
    apply chars_inj. rewrite chars_app. simpl. now rewrite app_nil_r.
  - change (String c seg +:+ String sep rest)
      with (String c (seg +:+ String sep rest)).
    simpl in Hseg. apply not_elem_of_cons in Hseg as [Hc Hseg].
    simpl. rewrite decide_False by congruence.
    rewrite IH by exact Hseg. f_equal.
    apply chars_inj. rewrite !chars_app, !chars_rev. simpl.
    now rewrite <- app_assoc.
Qed.

(** The shape of every base path. *)
Lemma BASE_PATH_shape (host path : string) :
  BASE_PATH host path = ""
  \/ exists seg, BASE_PATH host path = "/" +:+ seg
                 /\ seg <> "" /\ "/"%char ∉ chars seg.
Proof.
  unfold BASE_PATH. destruct (Js.endsWith host "github.io"); [| now left].
  destruct (Js.filterBoolean (Js.split "/" path)) as [|seg l] eqn:Ef;
    [now left |].
  right. exists seg. split; [reflexivity |].
  assert (Hin : In seg (Js.filterBoolean (Js.split "/" path)))
    by (rewrite Ef; now left).
  unfold Js.filterBoolean in Hin. apply filter_In in Hin as [Hin Hne].
  apply bool_decide_eq_true in Hne. split; [exact Hne |].
  apply (split_go_no_sep "/" path EmptyString seg);
    [apply not_elem_of_nil | now apply list_elem_of_In].
Qed.

(** X6.  The base path is either empty or a slash followed by one
    non-empty path segment that holds no slash, so it never ends in a
    slash.  It is empty on every host whose name does not end in
    [github.io]; on a host that does, a path that starts with a slash and
    a segment gives the slash and that segment, whatever follows it. *)
Theorem BASE_PATH_is_the_first_segment (host path seg rest : string) :
  (BASE_PATH host path = ""
   \/ exists s, BASE_PATH host path = "/" +:+ s
                /\ s <> "" /\ "/"%char ∉ chars s)
  /\ (Js.endsWith host "github.io" = false -> BASE_PATH host path = "")
  /\ (Js.endsWith host "github.io" = true ->
      seg <> "" -> "/"%char ∉ chars seg ->
      BASE_PATH host ("/" +:+ seg) = "/" +:+ seg
      /\ BASE_PATH host ("/" +:+ seg +:+ "/" +:+ rest) = "/" +:+ seg)
  /\ (Js.endsWith host "github.io" = true -> BASE_PATH host "/" = "").
Proof.
  split; [apply BASE_PATH_shape |].
  split; [intros Hh; unfold BASE_PATH; now rewrite Hh |].
  split; [| intros Hh; unfold BASE_PATH; rewrite Hh; reflexivity].
  intros Hh Hne Hseg. unfold BASE_PATH. rewrite Hh. split.
  - assert (Hs : Js.split "/" ("/" +:+ seg) = [""; seg]).
    { unfold Js.split. change ("/" +:+ seg) with (String "/" seg).
      simpl. f_equal.
      assert (Hgo : forall cur, "/"%char ∉ chars seg ->
                Js.split_go "/" cur seg = [String.rev_app cur EmptyString +:+ seg]).
      { clear. intros cur. revert cur.
        induction seg as [|c seg IH]; intros cur Hs; simpl.
        - f_equal. apply chars_inj. rewrite chars_app. simpl.
          now rewrite app_nil_r.
        - simpl in Hs. apply not_elem_of_cons in Hs as [Hc Hs].
          rewrite decide_False by congruence. rewrite IH by exact Hs.
          f_equal. apply chars_inj.
          rewrite !chars_app, !chars_rev_app. simpl.
          now rewrite <- !app_assoc. }
      now rewrite Hgo. }
    rewrite Hs. simpl. rewrite bool_decide_true by exact Hne. reflexivity.
  - assert (Hs : exists l, Js.split "/" ("/" +:+ seg +:+ "/" +:+ rest)
                           = "" :: seg :: l).
    { unfold Js.split.
      change ("/" +:+ seg +:+ "/" +:+ rest)
        with (String "/" (seg +:+ String "/" rest)).
      simpl. rewrite split_go_segment by exact Hseg. eauto. }
    destruct Hs as [l ->]. simpl.
    rewrite bool_decide_true by exact Hne. reflexivity.
Qed.

Lemma BASE_PATH_is_the_first_segment_witness :
  Js.endsWith "someone.github.io" "github.io" = true
  /\ "site" <> ""
  /\ ("/"%char ∉ chars "site")
  /\ BASE_PATH "someone.github.io" ("/" +:+ "site" +:+ "/" +:+ "projects/a/")
     = "/" +:+ "site".
Proof.
  assert (H1 : Js.endsWith "someone.github.io" "github.io" = true)
    by reflexivity.
  assert (H2 : "site" <> "") by discriminate.
  assert (H3 : "/"%char ∉ chars "site")
    by (apply (bool_decide_unpack _); vm_compute; exact I).
  split; [exact H1 |]. split; [exact H2 |]. split; [exact H3 |].
  exact (proj2 (proj1 (proj2 (proj2 (BASE_PATH_is_the_first_segment
           "someone.github.io" "" "site" "projects/a/"))) H1 H2 H3)).
Defined.

End BasePathMore.

Section UrlsMore.
Import Gallery.

Local Abbreviation chars := String.list_ascii_of_string.

(** Under a base path of the shape [BASE_PATH] gives, a string that
    starts with a slash carries the base only if the base is there. *)
Lemma withBase_plain_relative (host path u : string) :
  u <> "" -> isExternal u = false ->
  Js.startsWith u "/" = false -> Js.startsWith u "./" = false ->
  withBase (BASE_PATH host path) (Some u) = BASE_PATH host path +:+ "/" +:+ u.
Proof.
  intros Hne Hext Hslash Hdot. unfold withBase.
  rewrite decide_False by exact Hne. rewrite Hext.
  assert (Hhas : bool_decide (BASE_PATH host path <> "")
                 && Js.startsWith u (BASE_PATH host path +:+ "/") = false).
  { destruct (BASE_PATH_shape host path) as [->|(seg & -> & _)].
    - apply andb_false_iff. left. now apply bool_decide_eq_false.
    - apply andb_false_iff. right. unfold Js.startsWith in *.
      destruct u as [|c u]; [reflexivity |].
      change (("/" +:+ seg) +:+ "/") with (String "/" (seg +:+ "/")).
      rewrite prefix_cons in *.
      destruct (ascii_dec "/" c); [| reflexivity].
      now rewrite prefix_nil in Hslash. }
  rewrite Hhas, Hslash. unfold stripDotSlash. now rewrite Hdot.
Qed.

(** X7.  On every page, the three links of a project card are
    root-absolute under the base path: the cover and the Detail button
    both lead to [<base>/projects/<slug>/?tab=all], the title to
    [<base>/projects/<slug>/?tab=overview], whatever the slug. *)
Theorem card_links_under_base `{Host} (host path : string) (p : Project) :
  let base := BASE_PATH host path in
  let card := buildProjectCard base p in
  coverHref card = base +:+ "/projects/" +:+ slug p +:+ "/?tab=all"
  /\ detailHref card = coverHref card
  /\ titleHref card = base +:+ "/projects/" +:+ slug p +:+ "/?tab=overview".
Proof.
  intros base card. subst card base.
  unfold buildProjectCard. cbn [coverHref detailHref titleHref].
  rewrite !withBase_plain_relative by (reflexivity || discriminate).
  repeat split.
Qed.

(** X8.  [withBase] under the page's base path never gives a relative
    URL: the result is empty (exactly when the argument is missing or
    empty), or it is the external URL it was given, or it starts with a
    slash. *)
Theorem withBase_never_relative (host path : string) (url : option string) :
  let w := withBase (BASE_PATH host path) url in
  (w = "" <-> url = None \/ url = Some "")
  /\ (w = "" \/ (isExternal w = true /\ url = Some w)
      \/ Js.startsWith w "/" = true).
Proof.
  intros w. subst w.
  destruct url as [u|]; [| simpl; split; [split; auto | now left]].
  assert (Hroot : forall x, Js.startsWith (BASE_PATH host path +:+ "/" +:+ x) "/"
                            = true).
  { intros x. unfold Js.startsWith.
    destruct (BASE_PATH_shape host path) as [->|(seg & -> & _)].
    - apply (prefix_refl_app "/" x).
    - apply (prefix_refl_app "/" (seg +:+ "/" +:+ x)). }
  unfold withBase. destruct (decide (u = "")) as [->|Hne].
  { split; [split; auto | now left]. }
  destruct (isExternal u) eqn:Hext.
  { split; [split; [congruence | intros [|[= ?]]; congruence] | auto]. }
  assert (Hnonempty : forall x, BASE_PATH host path +:+ "/" +:+ x <> "").
  { intros x E. pose proof (Hroot x) as Hr. rewrite E in Hr. discriminate Hr. }
  destruct (bool_decide (BASE_PATH host path <> "")
            && Js.startsWith u (BASE_PATH host path +:+ "/")) eqn:Hhas.
  { apply andb_prop in Hhas as [_ Hp].
    split; [split; [congruence | intros [|[= ?]]; congruence] |].
    right; right. unfold Js.startsWith in *.
    destruct (BASE_PATH_shape host path) as [E|(seg & E & _)]; rewrite E in Hp.
    - exact Hp.
    - destruct u as [|c u]; [discriminate |].
      change (("/" +:+ seg) +:+ "/") with (String "/" (seg +:+ "/")) in Hp.
      rewrite prefix_cons in *. destruct (ascii_dec "/" c); [| discriminate].
      now rewrite prefix_nil. }
  destruct (Js.startsWith u "/") eqn:Hs.
  - apply prefix_slash in Hs as [r ->].
    split; [split; [intros E; now apply Hnonempty in E
                   | intros [|[= ?]]; congruence] |].
    right; right. apply Hroot.
  - split; [split; [intros E; now apply Hnonempty in E
                   | intros [|[= ?]]; congruence] |].
    right; right. apply Hroot.
Qed.

End UrlsMore.

(** ** Status classes *)

Section StatusMore.
Import Gallery.

Local Abbreviation chars := String.list_ascii_of_string.

Lemma dashRuns_no_space (n : nat) :
  forall (s : string) (inRun : bool), (String.length s <= n)%nat ->
  forall c, c ∈ chars (Js.dashRuns inRun s) -> Js.ws1 c = false.
Proof.
  induction n as [|n IH]; intros s inRun Hlen c Hc.
  - destruct s; [now apply elem_of_nil in Hc | simpl in Hlen; lia].
  - destruct s as [|a r]; [now apply elem_of_nil in Hc |].
    simpl in Hlen.
    assert (Hdash : forall k, (String.length k <= n)%nat ->
              c ∈ chars (if inRun then Js.dashRuns true k
                         else String "-" (Js.dashRuns true k)) ->
              Js.ws1 c = false).
    { intros k Hk Hin. destruct inRun; [now apply (IH k true) |].
      simpl in Hin. apply elem_of_cons in Hin as [->|Hin]; [reflexivity |].
      now apply (IH k true). }
    assert (Hkeep : Js.ws1 a = false ->
              c ∈ chars (String a (Js.dashRuns false r)) -> Js.ws1 c = false).
    { intros Ha Hin. simpl in Hin.
      apply elem_of_cons in Hin as [->|Hin]; [exact Ha |].
      apply (IH r false); [lia | exact Hin]. }
    cbn [Js.dashRuns] in Hc. destruct (Js.ws1 a) eqn:Ha.
    { apply (Hdash r); [lia | exact Hc]. }
    destruct r as [|b r2].
    { simpl in Hc. apply list_elem_of_singleton in Hc as ->. exact Ha. }
    simpl in Hlen. destruct (Js.ws2 a b).
    { apply (Hdash r2); [lia | exact Hc]. }
    destruct r2 as [|c3 r3]; [now apply Hkeep |].
    simpl in Hlen. destruct (Js.ws3 a b c3); [| now apply Hkeep].
    apply (Hdash r3); [lia | exact Hc].
Qed.

(** X9.  A status class never holds a space, a tab or a line break,
    whatever the status text and whatever the host's lowercasing gives; so
    every class token of a project card, the [status-...] one included, is
    free of them. *)
Theorem status_class_has_no_space `{Host}
    (st : option string) (base : string) (p : Project) :
  (forall c, c ∈ chars (statusClass st) -> Js.ws1 c = false)
  /\ (forall token c, token ∈ cardClasses (buildProjectCard base p) ->
        c ∈ chars token -> Js.ws1 c = false).
Proof.
  assert (Hsc : forall st' c, c ∈ chars (statusClass st') -> Js.ws1 c = false).
  { intros st' c. unfold statusClass. cbv zeta.
    destruct (decide (_ = "")); [intros Hc; now apply elem_of_nil in Hc |].
    now apply (dashRuns_no_space _ _ false (Nat.le_refl _)). }
  split; [apply Hsc |].
  intros token c Htok Hc. unfold buildProjectCard in Htok. simpl in Htok.
  rewrite !elem_of_cons in Htok. destruct Htok as [->|[->|Htok]].
  - revert Hc. generalize c. apply Forall_forall. vm_compute.
    repeat constructor.
  - revert Hc. generalize c. apply Forall_forall. vm_compute.
    repeat constructor.
  - destruct (decide (statusClass (status p) = "")) as [E|E];
      [now apply elem_of_nil in Htok |].
    apply list_elem_of_singleton in Htok as ->.
    change ("status-" +:+ statusClass (status p))
      with (String "s" (String "t" (String "a" (String "t" (String "u"
             (String "s" (String "-" (statusClass (status p))))))))) in Hc.
    simpl in Hc. rewrite !elem_of_cons in Hc.
    destruct Hc as [->|[->|[->|[->|[->|[->|[->|Hc]]]]]]]; try reflexivity.
    now apply (Hsc (status p)).
Qed.

End StatusMore.

(** ** The overview and the tabs *)

Section OverviewMore.
Import Gallery.
Context `{Host}.

Lemma filter_all_blank (l : list (string * string)) :
  List.filter (fun kv => bool_decide (kv.2 <> "")) l = []
  <-> forall k v, (k, v) ∈ l -> v = "".
Proof.
  induction l as [|[k v] l IH]; simpl.
  - split; [intros _ k v Hin; now apply elem_of_nil in Hin | reflexivity].
  - destruct (decide (v = "")) as [->|Hv].
    + rewrite bool_decide_false by (intros Hf; now apply Hf).
      rewrite IH. split.
      * intros Hl k' v' Hin. apply elem_of_cons in Hin as [[= -> ->]|Hin];
          [reflexivity | now apply (Hl k')].
      * intros Hl k' v' Hin. apply (Hl k'). apply elem_of_cons. now right.
    + rewrite bool_decide_true by exact Hv. split; [discriminate |].
      intros Hl. exfalso. apply Hv, (Hl k). apply elem_of_cons. now left.
Qed.

Lemma infoItems_fallback (p : Project) :
  infoItems p = [InfoItem "Info" "No details provided yet."]
  <-> forall label value, (label, value) ∈ metadataFields p ->
        safeText value = "".
Proof.
  assert (Hblank : (forall k v, (k, v) ∈ overviewFields p -> v = "")
                   <-> (forall label value, (label, value) ∈ metadataFields p ->
                          safeText value = "")).
  { rewrite overviewFields_metadata. split.
    - intros Hl label value Hin. apply (Hl label).
      apply list_elem_of_fmap. now exists (label, value).
    - intros Hl k v Hin. apply list_elem_of_fmap in Hin as ([k' x] & E & Hin).
      simpl in E. injection E as -> ->. now apply (Hl k'). }
  rewrite <- Hblank, <- filter_all_blank. unfold infoItems, buildInfoItem.
  cbv zeta. destruct (List.filter _ (overviewFields p)) as [|[k v] kept] eqn:Ek.
  - split; reflexivity.
  - split; [| discriminate]. intros E. exfalso.
    change ((fun kv : string * string => InfoItem kv.1 kv.2) <$> (k, v) :: kept)
      with (InfoItem k v
              :: ((fun kv : string * string => InfoItem kv.1 kv.2) <$> kept))
      in E.
    injection E as -> -> _.
    assert (Hin : In ("Info", "No details provided yet.")
                     (List.filter (fun kv => bool_decide (kv.2 <> ""))
                        (overviewFields p)))
      by (rewrite Ek; now left).
    apply filter_In in Hin as [Hin _]. apply list_elem_of_In in Hin.
    rewrite overviewFields_metadata in Hin.
    apply list_elem_of_fmap in Hin as ([k' x] & E & Hin). simpl in E.
    injection E as <- _.
    destruct (metadataFields_labels p) as [_ Hinfo]. apply Hinfo.
    apply list_elem_of_fmap. now exists ("Info", x).
Qed.

Lemma infoItems_not_empty (p : Project) : infoItems p <> [].
Proof.
  unfold infoItems. cbv zeta.
  destruct (List.filter _ (overviewFields p)); discriminate.
Qed.

(** X10.  On a page whose project was found the info list is never
    empty, and it is the single row "Info: No details provided yet."
    exactly when every one of the nine metadata fields is missing or
    blank after trimming. *)
Theorem info_list_never_empty
    (env : Env) (d : Document) (c : list Node) (data : Manifest)
    (p : Project) :
  projectMount d = Some c ->
  fetch env (projectManifestUrl env) = Response true (Some data) ->
  findProject (projectSlugAttr env) data = Some p ->
  exists d' : Document,
    renderProject env d = Returned d'
    /\ infoList d' <> []
    /\ (infoList d' = [InfoItem "Info" "No details provided yet."]
        <-> forall label value, (label, value) ∈ metadataFields p ->
              Js.trim (default "" value) = "").
Proof.
  intros Hm Hf Hp. eexists.
  split; [exact (renderProject_found _ _ _ _ _ Hm Hf Hp) |].
  rewrite infoList_rendered.
  split; [apply infoItems_not_empty | apply infoItems_fallback].
Qed.

Lemma truthy_field_has_overview (p : Project) (label s : string) :
  (label, Some s) ∈ metadataFields p -> s <> "" ->
  hasOverviewContent p = true.
Proof.
  intros Hin Hs. unfold metadataFields in Hin.
  assert (Ht : Js.truthy (Some s) = true) by (now apply bool_decide_eq_true).
  unfold hasOverviewContent.
  rewrite !elem_of_cons, elem_of_nil in Hin.
  destruct Hin as [E|[E|[E|[E|[E|[E|[E|[E|[E|[]]]]]]]]]];
    injection E as _ <-; rewrite Ht; rewrite ?orb_true_r; reflexivity.
Qed.

(** X11.  On a page whose project was found, an info list that shows a
    metadata row (any row but the fallback one) comes with an Overview
    tab: a field that is shown is a field that counts as overview
    content. *)
Theorem metadata_row_implies_overview_tab
    (env : Env) (d : Document) (c : list Node) (data : Manifest)
    (p : Project) :
  projectMount d = Some c ->
  fetch env (projectManifestUrl env) = Response true (Some data) ->
  findProject (projectSlugAttr env) data = Some p ->
  exists d' : Document,
    renderProject env d = Returned d'
    /\ forall label v,
         label <> "Info" -> InfoItem label v ∈ infoList d' ->
         hasOverviewContent p = true
         /\ exists title active, TabButton "overview" title active ∈ tabs d'.
Proof.
  intros Hm Hf Hp. eexists.
  split; [exact (renderProject_found _ _ _ _ _ Hm Hf Hp) |].
  intros label v Hl Hrow. rewrite infoList_rendered in Hrow.
  apply (info_row p label v Hl) in Hrow as [Hin Hv].
  rewrite overviewFields_metadata in Hin.
  apply list_elem_of_fmap in Hin as ([k value] & E & Hin). simpl in E.
  injection E as -> ->.
  apply safeText_nonempty in Hv as (s & -> & Hs).
  assert (Hne : s <> "") by (intros ->; now apply Hs).
  pose proof (truthy_field_has_overview p k s Hin Hne) as Hov.
  split; [exact Hov |].
  rewrite tabs_rendered. apply tab_button_key.
  destruct (tabList_keys p) as (_ & _ & _ & _ & _ & Ko & _).
  rewrite <- Ko in Hov. now apply bool_decide_eq_true in Hov.
Qed.

End OverviewMore.

Section TabsMore.
Import Gallery.

Lemma hiddenUnder_key (t : string) (s s' : Section) :
  phaseKey s = phaseKey s' -> hiddenUnder t s = hiddenUnder t s'.
Proof.
  intros E. unfold hiddenUnder.
  destruct (decide (t = "overview")); [reflexivity |].
  destruct (decide (t = "all")); [reflexivity |]. now rewrite E.
Qed.

Lemma setHidden_twice (t1 t2 : string) (n : Node) :
  setHidden (hiddenUnder t2) (setHidden (hiddenUnder t1) n)
  = setHidden (hiddenUnder t2) n.
Proof.
  destruct n; try reflexivity. simpl. f_equal. f_equal.
  now apply hiddenUnder_key.
Qed.

Lemma setActive_twice (t1 t2 : string) (n : Node) :
  setActive t2 (setActive t1 n) = setActive t2 n.
Proof. now destruct n. Qed.

Lemma switchTab_switchTab (t1 t2 : string) (d : Document) :
  switchTab t2 (switchTab t1 d) = switchTab t2 d.
Proof.
  unfold switchTab. simpl. f_equal.
  - rewrite <- list_fmap_compose. apply list_fmap_ext.
    intros i n _. apply setHidden_twice.
  - rewrite <- list_fmap_compose. apply list_fmap_ext.
    intros i n _. apply setActive_twice.
  - now destruct (overviewBlock d).
Qed.

(** X12.  Switching tabs leaves no trace of the tabs visited before:
    after any sequence of [switchTab] calls the document is the one a
    single call with the last tab gives; in particular a second call with
    the same tab changes nothing. *)
Theorem last_switchTab_wins (ts : list string) (t : string) (d : Document) :
  fold_left (fun doc tab => switchTab tab doc) (ts ++ [t]) d = switchTab t d
  /\ switchTab t (switchTab t d) = switchTab t d.
Proof.
  split; [| apply switchTab_switchTab].
  revert d. induction ts as [|t1 ts IH]; intros d; [reflexivity |].
  change (fold_left (fun doc tab => switchTab tab doc) ((t1 :: ts) ++ [t]) d)
    with (fold_left (fun doc tab => switchTab tab doc) (ts ++ [t])
            (switchTab t1 d)).
  rewrite IH. apply switchTab_switchTab.
Qed.


Lemma tab_button_active (t key label : string) (a : bool)
    (tl : list (string * string)) :
  TabButton key label a
  ∈ setActive t <$> ((fun x => TabButton x.1 x.2 false) <$> tl) ->
  a = bool_decide (key = t) /\ (key, label) ∈ tl.
Proof.
  rewrite <- list_fmap_compose. intros Hin.
  apply list_elem_of_fmap in Hin as ([k l] & E & Hin). simpl in E.
  now injection E as -> -> ->.
Qed.

Lemma defaultTab_available (p : Project) (want : string) :
  tabList p <> [] -> defaultTab (tabList p) want ∈ (tabList p).*1.
Proof.
  intros Hne.
  destruct (defaultTab_cases (tabList p) want (tabList_no_media_tab p))
    as (Hin & Hmedia & Hother).
  destruct (decide (want ∈ (tabList p).*1)) as [Hw|Hw];
    [now rewrite Hin |].
  destruct (decide (want = "media" /\ "all" ∈ (tabList p).*1)) as [[Hm Ha]|Hn].
  - now rewrite Hmedia.
  - rewrite Hother by assumption.
    destruct (tabList p) as [|[k l] tl]; [contradiction |].
    simpl. apply elem_of_cons. now left.
Qed.

(** The six tabs in the order the code pushes them. *)
Lemma tabList_sublist (p : Project) :
  tabList p `sublist_of`
    [ ("overview", "Overview"); ("all", "All"); ("renderings", "Renderings");
      ("before", "Before"); ("during", "During"); ("after", "After") ].
Proof.
  unfold tabList. cbv zeta.
  destruct (hasOverviewContent p),
           (hasPhaseContent (phaseOf renderings p)),
           (hasPhaseContent (phaseOf before p)),
           (hasPhaseContent (phaseOf during p)),
           (hasPhaseContent (phaseOf after p)); simpl;
    repeat first [ apply sublist_nil | apply sublist_skip | apply sublist_cons ].
Qed.

(** X13.  The tab list of a project is a selection, in this order, of
    Overview, All, Renderings, Before, During, After, each at most once;
    and it has the tab All exactly when it has the tab of at least one
    phase. *)
Theorem tab_list_structure (p : Project) :
  tabList p `sublist_of`
    [ ("overview", "Overview"); ("all", "All"); ("renderings", "Renderings");
      ("before", "Before"); ("during", "During"); ("after", "After") ]
  /\ NoDup (tabList p).*1
  /\ ("all" ∈ (tabList p).*1
      <-> exists k, k ∈ ["renderings"; "before"; "during"; "after"]
                    /\ k ∈ (tabList p).*1).
Proof.
  split; [apply tabList_sublist |]. split.
  - refine (sublist_NoDup _ _ _ (fmap_sublist fst _ _ (tabList_sublist p))).
    apply (bool_decide_unpack _). vm_compute. exact I.
  - destruct (tabList_keys p) as (Kr & Kb & Kd & Ka & Kall & _).
    rewrite <- (bool_decide_eq_true ("all" ∈ (tabList p).*1)), Kall.
    rewrite !orb_true_iff, <- Kr, <- Kb, <- Kd, <- Ka, !bool_decide_eq_true.
    split.
    + intros [[[Hk|Hk]|Hk]|Hk]; eexists; (split; [| exact Hk]);
        rewrite !elem_of_cons; auto 10.
    + intros (k & Hk & Hin). rewrite !elem_of_cons, elem_of_nil in Hk.
      destruct Hk as [->|[->|[->|[->|[]]]]]; auto.
Qed.

Section InitialTab.
Context `{Host}.

(** X14.  On a page whose project was found and has at least one tab,
    the tab [renderProject] selects is one of the project's tabs; its
    button is active and no other button is.  When the project has no tab
    at all, [switchTab] gets [overview]: there is no button, and the
    overview block, if the page has one, is shown. *)
Theorem initial_tab_is_available
    (env : Env) (d : Document) (c : list Node) (data : Manifest)
    (p : Project) :
  projectMount d = Some c ->
  fetch env (projectManifestUrl env) = Response true (Some data) ->
  findProject (projectSlugAttr env) data = Some p ->
  exists (t : string) (d' : Document),
    renderProject env d = Returned d'
    /\ d' = switchTab t (buildProjectPage (basePathOf env)
                           (projectSlugAttr env) p d)
    /\ (forall key label active,
          TabButton key label active ∈ tabs d' -> (active = true <-> key = t))
    /\ (tabList p <> [] ->
        t ∈ (tabList p).*1 /\ exists label, TabButton t label true ∈ tabs d')
    /\ (tabList p = [] ->
        t = "overview" /\ tabs d' = []
        /\ overviewBlock d' = (fun _ => false) <$> overviewBlock d).
Proof.
  intros Hm Hf Hp.
  exists (defaultTab (tabList p) (toLowerCase (Js.orElse (tabParam env) ""))).
  eexists.
  split; [exact (renderProject_found _ _ _ _ _ Hm Hf Hp) |].
  split; [reflexivity |]. rewrite tabs_rendered.
  generalize (toLowerCase (Js.orElse (tabParam env) "")). intros want.
  split; [| split].
  - intros key label active Hin.
    apply tab_button_active in Hin as [-> _]. apply bool_decide_eq_true.
  - intros Hne. pose proof (defaultTab_available p want Hne) as Hin.
    split; [exact Hin |].
    apply list_elem_of_fmap in Hin as ([k l] & Hk & Hin). simpl in Hk.
    rewrite Hk. exists l. rewrite <- list_fmap_compose.
    apply list_elem_of_fmap. exists (k, l). split; [| exact Hin]. simpl.
    now rewrite bool_decide_true by reflexivity.
  - intros He. rewrite He.
    assert (Ht : defaultTab [] want = "overview").
    { destruct (defaultTab_cases [] want) as (_ & _ & Hother);
        [apply not_elem_of_nil |].
      apply Hother; [apply not_elem_of_nil |].
      intros [_ Hall]. now apply elem_of_nil in Hall. }
    rewrite Ht. split; [reflexivity |]. split; [reflexivity |]. simpl.
    now destruct (overviewBlock d).
Qed.

End InitialTab.

End TabsMore.

(** ** Thumbnails and the lightbox *)

Section ThumbsMore.
Import Gallery.

(** X15.  For a phase with images, the section [renderPhase] builds has
    one thumbnail per image, in order; the thumbnail of image [i] shows
    its thumb path under the base path, and the call its click handler
    makes, [lb.open(fixedImages, i)], returns with the overlay open, the
    index at [i] and the image element on the large path of that same
    image under the base path, with its alt text. *)
Theorem thumbnail_opens_its_image
    (base key title : string) (ph : Phase) (imgs : list Image)
    (i : nat) (img : Image) (s : Lightbox.State) :
  images ph = Some imgs -> imgs !! i = Some img ->
  exists (sec : Section) (thumbs : list Thumb) (t : Thumb) (s' : Lightbox.State),
    renderPhase base key title (Some ph) = Some sec
    /\ thumbGrid sec = Some thumbs
    /\ length thumbs = length imgs
    /\ thumbs !! i = Some t
    /\ thumbSrc t = withBase base (srcThumb img)
    /\ thumbAlt t = Js.orElse (alt img) ""
    /\ Lightbox.open (Some (thumbItems t)) (Some (thumbIndex t)) s = Returned s'
    /\ Lightbox.idx s' = Z.of_nat i
    /\ length (Lightbox.items s') = length imgs
    /\ Lightbox.imgSrc s' = withBase base (srcLarge img)
    /\ Lightbox.imgAlt s' = Js.orElse (alt img) ""
    /\ Lightbox.overlayOpen s' = true.
Proof.
  intros Himgs Hi.
  pose proof (lookup_lt_Some _ _ _ Hi) as Hlt.
  set (fixedImages := fixImage base <$> imgs).
  assert (Hfix : fixedImages !! i = Some (fixImage base img))
    by (subst fixedImages; now rewrite list_lookup_fmap, Hi).
  assert (Hlen : length fixedImages = length imgs)
    by (subst fixedImages; apply length_fmap).
  assert (Hne : fixedImages <> [])
    by (intros E; rewrite E in Hfix; discriminate Hfix).
  set (t := thumbOf fixedImages i (fixImage base img)).
  destruct (open_in_range fixedImages (Some (Z.of_nat i)) s Hne)
    as (it & s' & Hopen & Hitems & Hidx & Hat & Hsrc & Hov).
  assert (Hidx' : Lightbox.idx s' = Z.of_nat i).
  { rewrite Hidx. unfold Lightbox.len. simpl default. lia. }
  assert (Hit : it = fixImage base img).
  { rewrite Hidx' in Hat. unfold Lightbox.at_index in Hat.
    destruct (Z.ltb_spec (Z.of_nat i) 0); [lia |].
    rewrite Nat2Z.id, Hfix in Hat. now injection Hat. }
  pose proof (shows_current_open (Some fixedImages) (Some (Z.of_nat i)) s)
    as Hshown.
  rewrite Hopen in Hshown. simpl Lightbox.state_of in Hshown.
  destruct Hshown as (it' & Hat' & _ & Halt & _); [now rewrite Hitems |].
  rewrite Hitems, Hat in Hat'. injection Hat' as <-.
  exists {| phaseKey := key; heading := title;
            videoWrap := if bool_decide (length (default [] (videos ph)) = 0%nat)
                         then None
                         else Some (videoCard base <$> default [] (videos ph));
            thumbGrid := Some (imap (thumbOf fixedImages) fixedImages);
            sectionHidden := false |},
         (imap (thumbOf fixedImages) fixedImages), t, s'.
  split.
  { unfold renderPhase. rewrite Himgs. simpl default.
    rewrite (bool_decide_false (length imgs = 0%nat)) by lia. reflexivity. }
  split; [reflexivity |].
  split; [now rewrite length_imap |].
  split; [now rewrite list_lookup_imap, Hfix |].
  split; [reflexivity |]. split; [reflexivity |].
  split; [exact Hopen |]. split; [exact Hidx' |].
  split; [now rewrite Hitems |].
  split; [now rewrite Hsrc, Hit |].
  split; [now rewrite Halt, Hit | exact Hov].
Qed.

End ThumbsMore.

(** ** The two renderers as a whole *)

Section RenderersMore.
Import Gallery Pages.
Context `{Host}.

(** On a page with every element the renderer of a template is
    [renderProject]. *)
Lemma renderProjectOnPage_complete (tpl : Template) (env : Env)
    (d : Document) :
  complete tpl = true -> renderProjectOnPage tpl env d = renderProject env d.
Proof.
  unfold complete. rewrite !andb_true_iff.
  intros [[[[[Et Eo] Ei] El] Eg] Eb].
  unfold renderProjectOnPage, renderProject, renderFound. cbv zeta.
  rewrite Et, Eo, Ei, El, Eg, Eb. reflexivity.
Qed.

Lemma renderProject_throws_untouched (env : Env) (d d' : Document) :
  renderProject env d = Thrown d' -> d' = d.
Proof.
  unfold renderProject. cbv zeta. destruct (projectMount d); [| discriminate].
  destruct (fetch env _) as [|[] [data|]]; try discriminate;
    try (now intros [= <-]).
  destruct (findProject _ _); discriminate.
Qed.

(** Every way [renderFound] can end: where it stops and what it has
    written by then. *)
Lemma renderFound_stages (tpl : Template) (env : Env) (p : Project)
    (d : Document) :
  let d1 := writeHeading (projectSlugAttr env) p d in
  let d3 := writeInfoList p (clearOverview d1) in
  let d4 := writeSections (basePathOf env) p d3 in
  (hasProjectTitle tpl = false /\ renderFound tpl env p d = Thrown d)
  \/ (hasProjectTitle tpl = true /\ hasOverviewSection tpl = false
      /\ renderFound tpl env p d = Thrown d1)
  \/ (hasProjectTitle tpl = true /\ hasOverviewSection tpl = true
      /\ hasInfoList tpl = false
      /\ renderFound tpl env p d = Thrown (clearOverview d1))
  \/ (hasProjectTitle tpl = true /\ hasOverviewSection tpl = true
      /\ hasInfoList tpl = true
      /\ createLightboxReturns tpl && hasGallerySections tpl = false
      /\ renderFound tpl env p d = Thrown d3)
  \/ (hasProjectTitle tpl = true /\ hasOverviewSection tpl = true
      /\ hasInfoList tpl = true
      /\ createLightboxReturns tpl && hasGallerySections tpl = true
      /\ hasTabs tpl = false
      /\ renderFound tpl env p d = Thrown d4)
  \/ (complete tpl = true
      /\ renderFound tpl env p d
         = Returned (switchTab
                       (defaultTab (tabList p)
                          (toLowerCase (Js.orElse (tabParam env) "")))
                       (writeTabs p d4))).
Proof.
  cbv zeta. unfold renderFound, complete. cbv zeta.
  destruct (hasProjectTitle tpl); [| left; now split].
  destruct (hasOverviewSection tpl); [| right; left; now repeat split].
  destruct (hasInfoList tpl); [| do 2 right; left; now repeat split].
  destruct (createLightboxReturns tpl);
    [| do 3 right; left; now repeat split].
  destruct (hasGallerySections tpl);
    [| do 3 right; left; now repeat split].
  destruct (hasTabs tpl); [| do 4 right; left; now repeat split].
  do 5 right. now split.
Qed.

(** X16.  What the two renderers leave behind, however they end.
    [renderHome] returns the document untouched when the page has no
    grid, writes to nothing but the grid, and when it throws has written
    nothing.  [renderProject] returns the document untouched when the
    page has no mount and never writes to the grid.  Once the project is
    found it writes to the page's elements in a fixed order and stops with
    a [TypeError] at the first one the page lacks ([#projectTitle],
    [#overviewSection], [#infoList], the lightbox overlay with its three
    buttons, [#gallerySections], [#tabs]): it returns exactly when the
    page has them all; without [#projectTitle] nothing is written; with it
    the title and the badge are written whatever comes after, and the
    overview, the info list and the sections are written exactly when
    every element up to theirs is there, while a call that throws leaves
    the tabs and the overview block as they were: a half-rendered page.
    A throw without a found project (a rejected fetch, a body that is not
    JSON) leaves the document as it was, and so does every throw on a page
    with all the elements. *)
Theorem what_the_renderers_leave_behind
    (tpl : Template) (env : Env) (d : Document) :
  (projectsGrid d = None -> renderHome env d = Returned d)
  /\ (let d' := documentOf (renderHome env d) in
      projectMount d' = projectMount d
      /\ projectTitle d' = projectTitle d
      /\ statusBadge d' = statusBadge d
      /\ projectSubtitle d' = projectSubtitle d
      /\ overviewSection d' = overviewSection d
      /\ infoList d' = infoList d
      /\ gallerySections d' = gallerySections d
      /\ tabs d' = tabs d
      /\ overviewBlock d' = overviewBlock d)
  /\ (forall d', renderHome env d = Thrown d' -> d' = d)
  /\ (projectMount d = None -> renderProjectOnPage tpl env d = Returned d)
  /\ projectsGrid (documentOf (renderProjectOnPage tpl env d))
     = projectsGrid d
  /\ (forall (c : list Node) (data : Manifest) (p : Project),
        projectMount d = Some c ->
        fetch env (projectManifestUrl env) = Response true (Some data) ->
        findProject (projectSlugAttr env) data = Some p ->
        let o := renderProjectOnPage tpl env d in
        let d' := documentOf o in
        let upToInfo :=
          hasProjectTitle tpl && hasOverviewSection tpl && hasInfoList tpl in
        (o = Returned d' <-> complete tpl = true)
        /\ (o = Thrown d' <-> complete tpl = false)
        /\ projectMount d' = projectMount d
        /\ (hasProjectTitle tpl = false -> d' = d)
        /\ (hasProjectTitle tpl = true ->
            projectTitle d'
            = Js.orElse (title p) (default "" (projectSlugAttr env))
            /\ statusBadge d'
               = (if Js.truthy (status p)
                  then Some {| badgeClass :=
                                 "badge status " +:+ statusClass (status p);
                               badgeText := default "" (status p) |}
                  else None)
            /\ projectSubtitle d'
               = (fun _ => ("", "none")) <$> projectSubtitle d)
        /\ overviewSection d'
           = (if hasProjectTitle tpl && hasOverviewSection tpl
              then [] else overviewSection d)
        /\ infoList d' = (if upToInfo then infoItems p else infoList d)
        /\ (complete tpl = false ->
            gallerySections d'
            = (if upToInfo && createLightboxReturns tpl
                  && hasGallerySections tpl
               then match sectionsOf (basePathOf env) p with
                    | [] => [Box "card" noMediaNote]
                    | _ => SectionNode <$> sectionsOf (basePathOf env) p
                    end
               else gallerySections d)
            /\ tabs d' = tabs d
            /\ overviewBlock d' = overviewBlock d))
  /\ (forall d', renderProjectOnPage tpl env d = Thrown d' ->
        d' = d
        \/ exists (data : Manifest) (p : Project),
             fetch env (projectManifestUrl env) = Response true (Some data)
             /\ findProject (projectSlugAttr env) data = Some p
             /\ hasProjectTitle tpl = true /\ complete tpl = false)
  /\ (complete tpl = true ->
      renderProjectOnPage tpl env d = renderProject env d
      /\ forall d', renderProject env d = Thrown d' -> d' = d).
Proof.
  split; [| split; [| split; [| split; [| split; [| split; [| split]]]]]].
  - unfold renderHome. now intros ->.
  - unfold renderHome. cbv zeta. destruct (projectsGrid d);
      [| now repeat split].
    destruct (fetch env _) as [|[] [data|]]; try (now repeat split).
    destruct (sortBy _ _); now repeat split.
  - intros d'. unfold renderHome. cbv zeta.
    destruct (projectsGrid d); [| discriminate].
    destruct (fetch env _) as [|[] [data|]]; try discriminate;
      try (now intros [= <-]).
    destruct (sortBy _ _); discriminate.
  - unfold renderProjectOnPage. now intros ->.
  - unfold renderProjectOnPage. cbv zeta.
    destruct (projectMount d); [| reflexivity].
    destruct (fetch env _) as [|[] [data|]]; try reflexivity.
    destruct (findProject _ _) as [p|]; [| reflexivity].
    destruct (renderFound_stages tpl env p d)
      as [(_ & ->)|[(_ & _ & ->)|[(_ & _ & _ & ->)|[(_ & _ & _ & _ & ->)|
          [(_ & _ & _ & _ & _ & ->)|(_ & ->)]]]]]; reflexivity.
  - intros c data p Hm Hf Hp. unfold projectManifestUrl in Hf.
    unfold renderProjectOnPage. rewrite Hm. cbv zeta. rewrite Hf, Hp.
    unfold complete.
    destruct (renderFound_stages tpl env p d)
      as [(Et & ->)|[(Et & Eo & ->)|[(Et & Eo & Ei & ->)|
          [(Et & Eo & Ei & Elg & ->)|[(Et & Eo & Ei & Elg & Eb & ->)|
          (Ec & ->)]]]]].
    + rewrite Et. cbn [documentOf andb].
      repeat split; try discriminate; try exact Hm.
    + rewrite Et, Eo. cbn [documentOf andb].
      repeat split; try discriminate; try exact Hm.
    + rewrite Et, Eo, Ei. cbn [documentOf andb].
      repeat split; try discriminate; try exact Hm.
    + rewrite Et, Eo, Ei. cbn [documentOf andb]. rewrite Elg. cbn [andb].
      repeat split; try discriminate; try exact Hm.
    + rewrite Et, Eo, Ei. cbn [documentOf andb]. rewrite Elg, Eb.
      cbn [andb].
      repeat split; try discriminate; try exact Hm.
    + unfold complete in Ec. rewrite Ec.
      rewrite !andb_true_iff in Ec.
      destruct Ec as [[[[[Et Eo] Ei] El] Eg] Eb]. rewrite Et, Eo, Ei.
      cbn [documentOf andb].
      repeat split; try discriminate; try exact Hm.
  - intros d'. unfold renderProjectOnPage, projectManifestUrl. cbv zeta.
    destruct (projectMount d); [| discriminate].
    destruct (fetch env _) as [|[] [data|]] eqn:Ef; try discriminate;
      try (intros [= <-]; now left).
    destruct (findProject _ _) as [p|] eqn:Ep; [| discriminate].
    destruct (hasProjectTitle tpl) eqn:Et.
    + intros Hthrown. right. exists data, p.
      split; [reflexivity |]. split; [exact Ep |]. split; [reflexivity |].
      destruct (complete tpl) eqn:Ec; [| reflexivity].
      destruct (renderFound_stages tpl env p d)
        as [(E & _)|[(_ & E & _)|[(_ & _ & E & _)|[(_ & _ & _ & E & _)|
            [(_ & _ & _ & _ & E & _)|(_ & E)]]]]];
        unfold complete in Ec; rewrite !andb_true_iff in Ec;
        destruct Ec as [[[[[Ht Ho] Hi] Hl] Hg] Hb]; try congruence.
      rewrite Hl, Hg in E. discriminate E.
    + unfold renderFound. rewrite Et. cbn [negb]. intros [= <-]. now left.
  - intros Ec. split; [now apply renderProjectOnPage_complete |].
    intros d'. apply renderProject_throws_untouched.
Qed.

(** X17.  When the manifest loaded, [renderHome] replaces whatever the
    grid held: with one card per project of the manifest, or, when the
    manifest has no [projects] key or an empty list, with the single note
    that there is no project yet. *)
Theorem home_grid_one_card_per_project
    (env : Env) (d : Document) (c : list Node) (data : Manifest) :
  projectsGrid d = Some c ->
  fetch env (homeManifestUrl env) = Response true (Some data) ->
  exists (d' : Document) (nodes : list Node),
    renderHome env d = Returned d'
    /\ projectsGrid d' = Some nodes
    /\ length nodes = Nat.max 1 (length (default [] (projects data)))
    /\ (default [] (projects data) = []
        <-> nodes = [Box "card" noProjectsNote])
    /\ (default [] (projects data) <> [] ->
        exists ps, ps ≡ₚ default [] (projects data)
                   /\ nodes = (fun p => CardNode
                                          (buildProjectCard (basePathOf env) p))
                                <$> ps).
Proof.
  intros Hgrid Hfetch. unfold renderHome. rewrite Hgrid. cbv zeta.
  unfold homeManifestUrl in Hfetch. rewrite Hfetch.
  pose proof (sortBy_perm byKeyDescending (default [] (projects data))) as Hperm.
  pose proof (Permutation_length Hperm) as Hlen.
  destruct (sortBy byKeyDescending (default [] (projects data)))
    as [|q ps] eqn:Es.
  - apply Permutation_nil_l in Hperm. rewrite <- Hperm.
    eexists. eexists. split; [reflexivity |]. split; [reflexivity |].
    split; [reflexivity |]. split; [split; reflexivity |]. now intros Hf.
  - eexists. eexists. split; [reflexivity |]. split; [reflexivity |].
    split; [| split].
    + rewrite length_fmap, <- Hlen. simpl. lia.
    + split; [| discriminate]. intros E. rewrite E in Hlen. discriminate Hlen.
    + intros _. exists (q :: ps). split; [exact Hperm | reflexivity].
Qed.

(** X18.  With a collation that orders consistently, the home page
    keeps the manifest's order among projects whose sort keys compare
    equal: for every key, the projects that compare equal to it come in
    the rendered order exactly as they come in the manifest. *)
Theorem home_order_is_stable
    (env : Env) (d : Document) (c : list Node) (data : Manifest) :
  collation_antisym -> collation_trans ->
  projectsGrid d = Some c ->
  fetch env (homeManifestUrl env) = Response true (Some data) ->
  default [] (projects data) <> [] ->
  exists ps : list Project,
    renderHome env d
    = Returned (set_projectsGrid
                  ((fun p => CardNode (buildProjectCard (basePathOf env) p))
                     <$> ps) d)
    /\ forall k : string,
         List.filter (fun y => localeCompare (Js.orElse (sortKey y) "") k =? 0) ps
         = List.filter (fun y => localeCompare (Js.orElse (sortKey y) "") k =? 0)
             (default [] (projects data)).
Proof.
  intros Hanti Htrans Hgrid Hfetch Hne.
  exists (sortBy byKeyDescending (default [] (projects data))). split.
  - unfold renderHome. rewrite Hgrid. cbv zeta.
    unfold homeManifestUrl in Hfetch. rewrite Hfetch.
    pose proof (sortBy_perm byKeyDescending (default [] (projects data)))
      as Hperm.
    destruct (sortBy byKeyDescending (default [] (projects data))) eqn:Es;
      [| reflexivity].
    apply Permutation_nil_l in Hperm. congruence.
  - intros k.
    set (z := {| slug := ""; title := None; location := None; date := None;
                 projectType := None; scope := None; client := None;
                 status := None; buildingArea := None; notes := None;
                 summary := None; sortKey := Some k; coverThumb := None;
                 phases := None |}).
    destruct (decide (k = "")) as [->|Hk].
    + apply (sortBy_stable byKeyDescending) with (z := z).
      * intros a b. apply Hanti.
      * intros a b c0 Hab Hbc. unfold byKeyDescending in *. eauto.
    + assert (Hz : forall y, byKeyDescending z y
                             = localeCompare (Js.orElse (sortKey y) "") k).
      { intros y. unfold byKeyDescending, sortKeyOf, z. simpl.
        now rewrite decide_False by exact Hk. }
      pose proof (sortBy_stable byKeyDescending
                    (fun a b => Hanti _ _)
                    (fun a b c0 Hab Hbc => Htrans _ _ _ Hbc Hab)
                    z (default [] (projects data))) as Hst.
      erewrite (List.filter_ext _ _ (fun y => eq_sym (f_equal (fun v => v =? 0) (Hz y)))).
      erewrite (List.filter_ext _ _ (fun y => eq_sym (f_equal (fun v => v =? 0) (Hz y))))
        at 1.
      exact Hst.
Qed.

End RenderersMore.

Section PageLoadMore.
Import Gallery.
Context `{Host}.

Lemma renderHome_keeps_mount (env : Env) (d d' : Document) :
  renderHome env d = Returned d' -> projectMount d' = projectMount d.
Proof.
  unfold renderHome. cbv zeta. destruct (projectsGrid d); [| now intros [= <-]].
  destruct (fetch env _) as [|[] [data|]]; try discriminate;
    try (now intros [= <-]).
  destruct (sortBy _ _); now intros [= <-].
Qed.

Lemma renderHome_throws_untouched (env : Env) (d d' : Document) :
  renderHome env d = Thrown d' -> d' = d.
Proof.
  unfold renderHome. cbv zeta. destruct (projectsGrid d); [| discriminate].
  destruct (fetch env _) as [|[] [data|]]; try discriminate;
    try (now intros [= <-]).
  destruct (sortBy _ _); discriminate.
Qed.

(** X19.  The page load handler runs [renderHome] and then
    [renderProject].  On a page without a grid it does what
    [renderProject] alone does, on a page without a project mount what
    [renderHome] alone does; and when [renderHome] throws, the handler
    throws with the document untouched and [renderProject] is not run,
    mount or no mount. *)
Theorem page_load_runs_the_renderer_of_the_page (env : Env) (d : Document) :
  (projectsGrid d = None -> onDOMContentLoaded env d = renderProject env d)
  /\ (projectMount d = None -> onDOMContentLoaded env d = renderHome env d)
  /\ (forall d', renderHome env d = Thrown d' ->
        onDOMContentLoaded env d = Thrown d).
Proof.
  unfold onDOMContentLoaded. split; [| split].
  - intros Hg. unfold renderHome at 1. now rewrite Hg.
  - intros Hm. destruct (renderHome env d) as [d'|d'] eqn:Eh; [| reflexivity].
    apply renderHome_keeps_mount in Eh. unfold renderProject.
    now rewrite Eh, Hm.
  - intros d' Eh. rewrite Eh. now apply renderHome_throws_untouched in Eh as ->.
Qed.

End PageLoadMore.

(** ** Navigation links (site.js) *)

Section SiteMore.
Import Site.

Local Abbreviation chars := String.list_ascii_of_string.

Lemma stripTrailingSlashes_app_slash (s : string) :
  stripTrailingSlashes (s +:+ "/") = stripTrailingSlashes s.
Proof.
  induction s as [|c r IH]; [reflexivity |].
  change (String c r +:+ "/") with (String c (r +:+ "/")). simpl.
  now rewrite IH.
Qed.

Lemma stripTrailingSlashes_no_slash (s : string) :
  "/"%char ∉ chars s -> stripTrailingSlashes s = s.
Proof.
  induction s as [|c r IH]; [reflexivity |]. simpl. intros Hs.
  apply not_elem_of_cons in Hs as [Hc Hs].
  rewrite decide_False by congruence. now rewrite IH.
Qed.

(** X20.  The trailing slashes of the address and of a link do not
    matter to the navigation: [setActiveNav] does the same for a pathname
    and for that pathname with one more slash at its end, and a link is
    treated as the link with its trailing slash removed. *)
Theorem nav_ignores_trailing_slashes
    (pathname h : string) (links : list NavLink) (active : bool) :
  setActiveNav (pathname +:+ "/") links = setActiveNav pathname links
  /\ markLink pathname {| hrefAttr := Some (h +:+ "/"); navActive := active |}
     = match markLink pathname {| hrefAttr := Some h; navActive := active |} with
       | Returned a =>
           Returned {| hrefAttr := Some (h +:+ "/"); navActive := navActive a |}
       | Thrown a =>
           Thrown {| hrefAttr := Some (h +:+ "/"); navActive := navActive a |}
       end.
Proof.
  split.
  - unfold setActiveNav. now rewrite stripTrailingSlashes_app_slash.
  - unfold markLink. simpl. rewrite stripTrailingSlashes_app_slash.
    destruct (decide (stripTrailingSlashes h = "")); [reflexivity |].
    now destruct (Js.endsWith pathname _).
Qed.


(** The link a callback leaves, however it ended. *)
Local Abbreviation linkOf c :=
  (match c with Returned a => a | Thrown a => a end).

Lemma markLink_effect (path : string) (a : NavLink) :
  hrefAttr (linkOf (markLink path a)) = hrefAttr a
  /\ (navActive a = true -> navActive (linkOf (markLink path a)) = true)
  /\ (navActive (linkOf (markLink path a)) = true ->
      navActive a = true
      \/ exists h, hrefAttr a = Some h
                   /\ stripTrailingSlashes h <> ""
                   /\ Js.endsWith path (navTarget (stripTrailingSlashes h))
                      = true).
Proof.
  unfold markLink. destruct (hrefAttr a) as [h|] eqn:Eh; [| now auto].
  cbv zeta. destruct (decide (stripTrailingSlashes h = "")); [now auto |].
  destruct (Js.endsWith path _) eqn:Ee; [| now auto].
  simpl. split; [reflexivity |]. split; [reflexivity |].
  intros _. right. now exists h.
Qed.

Lemma linksOf_cons (path : string) (a : NavLink) (rest : list NavLink) :
  linksOf (markLinks path (a :: rest))
  = linkOf (markLink path a)
      :: match markLink path a with
         | Returned _ => linksOf (markLinks path rest)
         | Thrown _ => rest
         end.
Proof.
  simpl. destruct (markLink path a); [| reflexivity].
  now destruct (markLinks path rest).
Qed.

Lemma markLinks_effect (path : string) (links : list NavLink) :
  length (linksOf (markLinks path links)) = length links
  /\ forall i a a',
       links !! i = Some a -> linksOf (markLinks path links) !! i = Some a' ->
       hrefAttr a' = hrefAttr a
       /\ (navActive a = true -> navActive a' = true)
       /\ (navActive a' = true ->
           navActive a = true
           \/ exists h, hrefAttr a = Some h
                        /\ stripTrailingSlashes h <> ""
                        /\ Js.endsWith path (navTarget (stripTrailingSlashes h))
                           = true).
Proof.
  induction links as [|b rest [IHlen IH]]; [split; [reflexivity | intros i a a' Hi; discriminate Hi] |].
  rewrite linksOf_cons. split.
  - simpl. destruct (markLink path b); simpl; now rewrite ?IHlen.
  - intros [|i] a a' Ha Ha'.
    + simpl in Ha, Ha'. injection Ha as <-. injection Ha' as <-.
      apply markLink_effect.
    + simpl in Ha, Ha'. destruct (markLink path b).
      * now apply (IH i).
      * rewrite Ha in Ha'. injection Ha' as <-. auto.
Qed.

(** X21.  [setActiveNav] only ever adds the class: however the call
    ends, there are as many links as before with the same [href]s, a link
    that was active still is, and a link that has become active has an
    [href] which, trailing slashes apart, is not empty and whose target
    the pathname ends with. *)
Theorem setActiveNav_only_adds (pathname : string) (links : list NavLink) :
  let out := linksOf (setActiveNav pathname links) in
  length out = length links
  /\ forall i a a',
       links !! i = Some a -> out !! i = Some a' ->
       hrefAttr a' = hrefAttr a
       /\ (navActive a = true -> navActive a' = true)
       /\ (navActive a' = true ->
           navActive a = true
           \/ exists h, hrefAttr a = Some h
                        /\ stripTrailingSlashes h <> ""
                        /\ Js.endsWith (stripTrailingSlashes pathname)
                             (navTarget (stripTrailingSlashes h)) = true).
Proof. apply markLinks_effect. Qed.

Lemma markLinks_all_href (path : string) (links : list NavLink) :
  (forall b, b ∈ links -> hrefAttr b <> None) ->
  exists out, markLinks path links = Returned out.
Proof.
  induction links as [|b rest IH]; intros Hall; [now eexists |].
  simpl. unfold markLink at 1.
  destruct (hrefAttr b) as [h|] eqn:Eh;
    [| exfalso; apply (Hall b); [apply elem_of_cons; now left | exact Eh]].
  destruct IH as [out ->];
    [intros x Hx; apply Hall, elem_of_cons; now right |].
  cbv zeta. destruct (decide _); [eauto |]. destruct (Js.endsWith _ _); eauto.
Qed.

(** X22.  A [data-nav] element without an [href] ends the loop with an
    exception: the links before it have been treated, it and every link
    after it are left exactly as they were.  With an [href] on every link
    the call returns. *)
Theorem missing_href_stops_the_loop
    (pathname : string) (before after : list NavLink) (a : NavLink) :
  (forall b, b ∈ before -> hrefAttr b <> None) ->
  (hrefAttr a = None ->
   exists before',
     setActiveNav pathname before = Returned before'
     /\ setActiveNav pathname (before ++ a :: after)
        = Thrown (before' ++ a :: after))
  /\ exists out, setActiveNav pathname before = Returned out.
Proof.
  intros Hall. unfold setActiveNav.
  destruct (markLinks_all_href (stripTrailingSlashes pathname) before Hall)
    as [out Hout].
  split; [| eauto]. intros Ha. exists out. split; [exact Hout |].
  clear Hall. revert out Hout.
  induction before as [|b rest IH]; intros out Hout.
  - injection Hout as <-. simpl. unfold markLink. now rewrite Ha.
  - simpl in Hout |- *. destruct (markLink _ b) as [b'|b']; [| discriminate].
    destruct (markLinks _ rest) as [rest'|rest'] eqn:Er; [| discriminate].
    injection Hout as <-. now rewrite (IH rest' eq_refl).
Qed.


Lemma prefix_inv (p s : string) :
  String.prefix p s = true -> exists r, s = p +:+ r.
Proof.
  revert s. induction p as [|c p IH]; intros s Hp; [now exists s |].
  destruct s as [|d s]; [discriminate |]. rewrite prefix_cons in Hp.
  destruct (ascii_dec c d) as [<-|]; [| discriminate].
  destruct (IH s Hp) as [r ->]. now exists r.
Qed.

Lemma chars_append (s t : string) : chars (s +:+ t) = chars s ++ chars t.
Proof.
  induction s as [|c s IH]; [reflexivity |].
  change (String c s +:+ t) with (String c (s +:+ t)). simpl. now rewrite IH.
Qed.

Lemma removeFirst_cons (pat : string) (c : ascii) (r : string) :
  removeFirst pat (String c r)
  = if String.prefix pat (String c r)
    then Js.drop (String.length pat) (String c r)
    else String c (removeFirst pat r).
Proof. reflexivity. Qed.

(** A pattern with a slash does not occur in a string without one. *)
Lemma removeFirst_no_slash (pat s : string) :
  "/"%char ∈ chars pat -> "/"%char ∉ chars s -> removeFirst pat s = s.
Proof.
  intros Hpat. induction s as [|c r IH]; intros Hs; [reflexivity |].
  rewrite removeFirst_cons. destruct (String.prefix pat (String c r)) eqn:Hp.
  - exfalso. apply prefix_inv in Hp as [t Ht]. apply Hs.
    rewrite Ht, chars_append. apply elem_of_app. now left.
  - f_equal. apply IH. intros Hin. apply Hs. simpl. apply elem_of_cons.
    now right.
Qed.

(** X23.  For a file name without a slash, the links [name] and
    [./name] are compared with [name], but the link [../name] is compared
    with [.name]: the first replacement takes the [./] out of the middle
    of [../].  Such a link becomes active only on a pathname that ends in
    a dot and the name. *)
Theorem parent_link_keeps_a_dot (name path : string) (active : bool) :
  "/"%char ∉ chars name -> name <> "" ->
  navTarget name = name
  /\ navTarget ("./" +:+ name) = name
  /\ navTarget ("../" +:+ name) = "." +:+ name
  /\ markLink path {| hrefAttr := Some ("../" +:+ name); navActive := active |}
     = Returned {| hrefAttr := Some ("../" +:+ name);
                   navActive := active || Js.endsWith path ("." +:+ name) |}.
Proof.
  intros Hs Hne.
  assert (Hslash2 : "/"%char ∈ chars "./")
    by (apply (bool_decide_unpack _); vm_compute; exact I).
  assert (Hslash3 : "/"%char ∈ chars "../")
    by (apply (bool_decide_unpack _); vm_compute; exact I).
  assert (Hdot : "/"%char ∉ chars ("." +:+ name)).
  { change ("." +:+ name) with (String "." name). simpl.
    apply not_elem_of_cons. split; [discriminate | exact Hs]. }
  assert (H1 : navTarget name = name).
  { unfold navTarget.
    now rewrite (removeFirst_no_slash "./" name Hslash2 Hs),
                (removeFirst_no_slash "../" name Hslash3 Hs). }
  assert (Hrm : removeFirst "./" ("./" +:+ name) = name).
  { change ("./" +:+ name) with (String "." (String "/" name)) at 1.
    rewrite removeFirst_cons.
    change (String "." (String "/" name)) with ("./" +:+ name).
    now rewrite prefix_refl_app. }
  assert (H2 : navTarget ("./" +:+ name) = name).
  { unfold navTarget. rewrite Hrm.
    exact (removeFirst_no_slash "../" name Hslash3 Hs). }
  assert (H3 : navTarget ("../" +:+ name) = "." +:+ name).
  { unfold navTarget.
    change ("../" +:+ name) with (String "." ("./" +:+ name)).
    rewrite removeFirst_cons.
    change (String.prefix "./" (String "." ("./" +:+ name))) with false.
    cbv iota. rewrite Hrm.
    exact (removeFirst_no_slash "../" ("." +:+ name) Hslash3 Hdot). }
  split; [exact H1 |]. split; [exact H2 |]. split; [exact H3 |].
  assert (Hstrip : stripTrailingSlashes ("../" +:+ name) = "../" +:+ name).
  { change ("../" +:+ name) with (String "." (String "." (String "/" name))).
    simpl. rewrite (stripTrailingSlashes_no_slash name Hs).
    now rewrite decide_False by exact Hne. }
  unfold markLink. simpl hrefAttr. cbv beta iota zeta. rewrite Hstrip, H3.
  rewrite decide_False by discriminate.
  destruct (Js.endsWith path ("." +:+ name)), active; reflexivity.
Qed.

End SiteMore.

(** ** Finding the project *)

Section FindMore.
Import Gallery.
Context `{Host}.

Lemma findProject_Some (slugAttr : option string) (data : Manifest)
    (p : Project) :
  findProject slugAttr data = Some p ->
  Some (slug p) = slugAttr /\ p ∈ default [] (projects data).
Proof.
  unfold findProject. intros Hf. apply find_some in Hf as [Hin Hs].
  apply bool_decide_eq_true in Hs. split; [exact Hs |].
  now apply list_elem_of_In.
Qed.

Lemma find_unique_slug (l : list Project) (p : Project) :
  NoDup (slug <$> l) -> p ∈ l ->
  List.find (fun x => bool_decide (Some (slug x) = Some (slug p))) l = Some p.
Proof.
  induction l as [|q l IH]; intros Hnd Hin; [now apply elem_of_nil in Hin |].
  simpl in Hnd. apply NoDup_cons in Hnd as [Hq Hnd]. simpl.
  apply elem_of_cons in Hin as [->|Hin].
  - now rewrite bool_decide_true by reflexivity.
  - rewrite bool_decide_false; [now apply IH |].
    intros [= E]. apply Hq. rewrite E. now apply list_elem_of_fmap_2.
Qed.

(** X24.  In a manifest whose slugs are all different, every project is
    found by its own slug: on the page that carries a project's slug, with
    a mount and a manifest that loads, [renderProject] renders that
    project, and the title it shows, the project's title or else its
    slug, is the title on the project's home page card; the status badge
    is there exactly when the card has its status flag, with the same
    text. *)
Theorem every_project_has_its_page
    (env : Env) (d : Document) (c : list Node) (data : Manifest)
    (p : Project) :
  projectMount d = Some c ->
  fetch env (projectManifestUrl env) = Response true (Some data) ->
  NoDup (slug <$> default [] (projects data)) ->
  p ∈ default [] (projects data) ->
  projectSlugAttr env = Some (slug p) ->
  exists (t : string) (d' : Document),
    renderProject env d = Returned d'
    /\ d' = switchTab t (buildProjectPage (basePathOf env)
                           (projectSlugAttr env) p d)
    /\ projectTitle d' = titleLabel (buildProjectCard (basePathOf env) p)
    /\ (badgeText <$> statusBadge d')
       = (flagText <$> statusFlag (buildProjectCard (basePathOf env) p)).
Proof.
  intros Hm Hf Hnd Hin Hslug.
  assert (Hfind : findProject (projectSlugAttr env) data = Some p).
  { rewrite Hslug. unfold findProject. now apply find_unique_slug. }
  eexists. eexists.
  split; [exact (renderProject_found _ _ _ _ _ Hm Hf Hfind) |].
  split; [reflexivity |]. rewrite Hslug. simpl.
  split; [reflexivity |]. now destruct (Js.truthy (status p)).
Qed.

(** X25.  The project [renderProject] renders is the first one of the
    manifest that has the slug of the page: it has that slug, and no
    project listed before it has.  A page without the slug attribute finds
    nothing. *)
Theorem first_project_with_the_slug_wins
    (slugAttr : option string) (data : Manifest) (p : Project) :
  findProject slugAttr data = Some p ->
  slugAttr = Some (slug p)
  /\ exists before after,
       default [] (projects data) = before ++ p :: after
       /\ forall q, q ∈ before -> slug q <> slug p.
Proof.
  unfold findProject.
  induction (default [] (projects data)) as [|q l IH]; [discriminate |].
  simpl. destruct (decide (Some (slug q) = slugAttr)) as [E|E].
  - rewrite bool_decide_true by exact E. intros [= ->].
    split; [now symmetry |]. exists [], l. split; [reflexivity |].
    intros q Hq. now apply elem_of_nil in Hq.
  - rewrite bool_decide_false by exact E. intros Hf.
    destruct (IH Hf) as (Hs & before & after & -> & Hb).
    split; [exact Hs |]. exists (q :: before), after. split; [reflexivity |].
    intros x Hx. apply elem_of_cons in Hx as [->|Hx]; [| now apply Hb].
    intros Eq. apply E. now rewrite Hs, Eq.
Qed.

End FindMore.

(** ** Closed instances of the properties above *)

Section MoreInstances.
Import Gallery.

Local Abbreviation chars := String.list_ascii_of_string.

Lemma byteCompare_le (a b : string) : byteCompare a b <= 0 <-> String.le a b.
Proof.
  unfold byteCompare, String.le, String.leb.
  destruct (String.compare a b); simpl; split; intros Hx;
    try lia; try exact I; try contradiction.
Qed.

Lemma byteCompare_trans : @collation_trans asciiHost.
Proof.
  intros a b c. simpl. rewrite !byteCompare_le. intros Hab Hbc.
  now transitivity b.
Qed.

Lemma info_list_never_empty_witness :
  let env := Sample.envWith None (Some "bare")
               (Response true (Some Sample.manifest)) in
  projectMount Sample.projectDocument = Some []
  /\ fetch env (projectManifestUrl env) = Response true (Some Sample.manifest)
  /\ findProject (projectSlugAttr env) Sample.manifest = Some Sample.bare
  /\ exists d' : Document,
       @renderProject asciiHost env Sample.projectDocument = Returned d'
       /\ infoList d' <> [].
Proof.
  intros env. split; [reflexivity |]. split; [reflexivity |].
  split; [reflexivity |].
  destruct (@info_list_never_empty asciiHost env Sample.projectDocument []
              Sample.manifest Sample.bare eq_refl eq_refl eq_refl)
    as (d' & Hr & Hne & _).
  exists d'. split; [exact Hr | exact Hne].
Defined.

Lemma metadata_row_implies_overview_tab_witness :
  let env := Sample.envWith None (Some "school")
               (Response true (Some Sample.manifest)) in
  projectMount Sample.projectDocument = Some []
  /\ fetch env (projectManifestUrl env) = Response true (Some Sample.manifest)
  /\ findProject (projectSlugAttr env) Sample.manifest = Some Sample.school
  /\ exists d' : Document,
       @renderProject asciiHost env Sample.projectDocument = Returned d'
       /\ (InfoItem "Location" "Harbin" ∈ infoList d' ->
           hasOverviewContent Sample.school = true).
Proof.
  intros env. split; [reflexivity |]. split; [reflexivity |].
  split; [reflexivity |].
  destruct (@metadata_row_implies_overview_tab asciiHost env
              Sample.projectDocument [] Sample.manifest Sample.school
              eq_refl eq_refl eq_refl) as (d' & Hr & Hrow).
  exists d'. split; [exact Hr |].
  intros Hin. apply (Hrow "Location" "Harbin"); [discriminate | exact Hin].
Defined.

Lemma initial_tab_is_available_witness :
  let env := Sample.envWith (Some "nothing") (Some "school")
               (Response true (Some Sample.manifest)) in
  projectMount Sample.projectDocument = Some []
  /\ fetch env (projectManifestUrl env) = Response true (Some Sample.manifest)
  /\ findProject (projectSlugAttr env) Sample.manifest = Some Sample.school
  /\ exists (t : string) (d' : Document),
       @renderProject asciiHost env Sample.projectDocument = Returned d'
       /\ t ∈ (tabList Sample.school).*1.
Proof.
  intros env. split; [reflexivity |]. split; [reflexivity |].
  split; [reflexivity |].
  destruct (@initial_tab_is_available asciiHost env Sample.projectDocument []
              Sample.manifest Sample.school eq_refl eq_refl eq_refl)
    as (t & d' & Hr & _ & _ & Hav & _).
  exists t, d'. split; [exact Hr |].
  apply Hav. discriminate.
Defined.

Lemma thumbnail_opens_its_image_witness :
  images Fixture.afterPhase
  = Some [Fixture.imageNamed "a.jpg"; Fixture.imageNamed "b.jpg"]
  /\ [Fixture.imageNamed "a.jpg"; Fixture.imageNamed "b.jpg"] !! 1%nat
     = Some (Fixture.imageNamed "b.jpg")
  /\ exists (t : Thumb) (s' : Lightbox.State),
       Lightbox.open (Some (thumbItems t)) (Some (thumbIndex t))
         Sample.freshLightbox = Returned s'
       /\ Lightbox.idx s' = 1
       /\ Lightbox.imgSrc s'
          = withBase "/site" (srcLarge (Fixture.imageNamed "b.jpg")).
Proof.
  split; [reflexivity |]. split; [reflexivity |].
  destruct (thumbnail_opens_its_image "/site" "after" "After"
              Fixture.afterPhase
              [Fixture.imageNamed "a.jpg"; Fixture.imageNamed "b.jpg"]
              1 (Fixture.imageNamed "b.jpg") Sample.freshLightbox
              eq_refl eq_refl)
    as (sec & thumbs & t & s' & _ & _ & _ & _ & _ & _ & Ho & Hi & _ & Hsrc & _).
  exists t, s'. auto.
Defined.

(** The project page of the school on a template without [#tabs]. *)
Lemma what_the_renderers_leave_behind_witness :
  let env := Sample.envWith None (Some "school")
               (Response true (Some Sample.manifest)) in
  let o := @Pages.renderProjectOnPage asciiHost Pages.withoutTabs env
             Sample.projectDocument in
  let d' := Pages.documentOf o in
  projectMount Sample.projectDocument = Some []
  /\ fetch env (projectManifestUrl env) = Response true (Some Sample.manifest)
  /\ findProject (projectSlugAttr env) Sample.manifest = Some Sample.school
  /\ Pages.hasProjectTitle Pages.withoutTabs = true
  /\ Pages.complete Pages.withoutTabs = false
  /\ o = Thrown d'
  /\ projectTitle d' = "School"
  /\ infoList d' = [InfoItem "Location" "Harbin";
                    InfoItem "Status" "In Progress"]
  /\ length (gallerySections d') = 1%nat
  /\ tabs d' = [].
Proof.
  intros env o d'. split; [reflexivity |]. split; [reflexivity |].
  split; [reflexivity |]. split; [reflexivity |]. split; [reflexivity |].
  destruct (@what_the_renderers_leave_behind asciiHost Pages.withoutTabs env
              Sample.projectDocument)
    as (_ & _ & _ & _ & _ & Hfound & _).
  destruct (Hfound [] Sample.manifest Sample.school eq_refl eq_refl eq_refl)
    as (_ & Hthrown & _ & _ & Hheading & _ & Hinfo & Hrest).
  destruct (Hheading eq_refl) as (Htitle & _).
  destruct (Hrest eq_refl) as (Hsections & Htabs & _).
  split; [exact (proj2 Hthrown eq_refl) |].
  split; [exact Htitle |].
  split; [exact Hinfo |].
  split; [exact (f_equal length Hsections) | exact Htabs].
Defined.

Lemma home_grid_one_card_per_project_witness :
  let env := Sample.envWith None None (Response true (Some Sample.manifest)) in
  projectsGrid Sample.homeDocument = Some []
  /\ fetch env (homeManifestUrl env) = Response true (Some Sample.manifest)
  /\ exists (d' : Document) (nodes : list Node),
       @renderHome asciiHost env Sample.homeDocument = Returned d'
       /\ projectsGrid d' = Some nodes
       /\ length nodes = 3%nat.
Proof.
  intros env. split; [reflexivity |]. split; [reflexivity |].
  destruct (@home_grid_one_card_per_project asciiHost env
              Sample.homeDocument [] Sample.manifest eq_refl eq_refl)
    as (d' & nodes & Hr & Hg & Hlen & _).
  exists d', nodes. auto.
Defined.

Lemma home_order_is_stable_witness :
  let env := Sample.envWith None None (Response true (Some Fixture.twoOfMay)) in
  @collation_antisym asciiHost /\ @collation_trans asciiHost
  /\ projectsGrid Sample.homeDocument = Some []
  /\ fetch env (homeManifestUrl env) = Response true (Some Fixture.twoOfMay)
  /\ default [] (projects Fixture.twoOfMay) <> []
  /\ exists ps : list Project,
       @renderHome asciiHost env Sample.homeDocument
       = Returned (set_projectsGrid
                     ((fun p => CardNode
                                  (@buildProjectCard asciiHost (basePathOf env) p))
                        <$> ps) Sample.homeDocument)
       /\ List.filter
            (fun y => byteCompare (Js.orElse (sortKey y) "") "2024-05" =? 0) ps
          = [Sample.school; Fixture.gym].
Proof.
  intros env.
  assert (Hne : default [] (projects Fixture.twoOfMay) <> []) by discriminate.
  split; [exact byteCompare_antisym |]. split; [exact byteCompare_trans |].
  split; [reflexivity |]. split; [reflexivity |]. split; [exact Hne |].
  destruct (@home_order_is_stable asciiHost env Sample.homeDocument []
              Fixture.twoOfMay byteCompare_antisym byteCompare_trans
              eq_refl eq_refl Hne) as (ps & Hr & Hst).
  exists ps. split; [exact Hr |]. exact (Hst "2024-05").
Defined.

Lemma missing_href_stops_the_loop_witness :
  (forall b, b ∈ [Fixture.homeLink] -> Site.hrefAttr b <> None)
  /\ Site.hrefAttr Fixture.brokenLink = None
  /\ exists before',
       Site.setActiveNav "/contact.html"
         ([Fixture.homeLink] ++ Fixture.brokenLink :: [Fixture.contactLink])
       = Thrown (before' ++ Fixture.brokenLink :: [Fixture.contactLink]).
Proof.
  assert (Hall : forall b, b ∈ [Fixture.homeLink] -> Site.hrefAttr b <> None).
  { intros b Hb. apply list_elem_of_singleton in Hb as ->. discriminate. }
  split; [exact Hall |]. split; [reflexivity |].
  destruct (proj1 (missing_href_stops_the_loop "/contact.html"
                     [Fixture.homeLink] [Fixture.contactLink]
                     Fixture.brokenLink Hall) eq_refl)
    as (before' & _ & Ht).
  exists before'. exact Ht.
Defined.

Lemma parent_link_keeps_a_dot_witness :
("/"%char ∉ chars "contact.html") /\ "contact.html" <> ""
  /\ Site.navTarget ("../" +:+ "contact.html") = "." +:+ "contact.html".
Proof.
  assert (Hs : "/"%char ∉ chars "contact.html")
    by (apply (bool_decide_unpack _); vm_compute; exact I).
  assert (Hne : "contact.html" <> "") by discriminate.
  split; [exact Hs |]. split; [exact Hne |].
  exact (proj1 (proj2 (proj2 (parent_link_keeps_a_dot "contact.html"
                                 "/contact.html" false Hs Hne)))).
Defined.


Lemma every_project_has_its_page_witness :
  let env := Sample.envWith None (Some "library")
               (Response true (Some Sample.manifest)) in
  projectMount Sample.projectDocument = Some []
  /\ fetch env (projectManifestUrl env) = Response true (Some Sample.manifest)
  /\ NoDup (slug <$> default [] (projects Sample.manifest))
  /\ Sample.library ∈ default [] (projects Sample.manifest)
  /\ projectSlugAttr env = Some (slug Sample.library)
  /\ exists (t : string) (d' : Document),
       @renderProject asciiHost env Sample.projectDocument = Returned d'
       /\ projectTitle d' = "library".
Proof.
  intros env.
  assert (Hnd : NoDup (slug <$> default [] (projects Sample.manifest)))
    by (apply (bool_decide_unpack _); vm_compute; exact I).
  assert (Hin : Sample.library ∈ default [] (projects Sample.manifest))
    by (simpl; apply elem_of_cons; now left).
  split; [reflexivity |]. split; [reflexivity |]. split; [exact Hnd |].
  split; [exact Hin |]. split; [reflexivity |].
  destruct (@every_project_has_its_page asciiHost env Sample.projectDocument
              [] Sample.manifest Sample.library eq_refl eq_refl Hnd Hin eq_refl)
    as (t & d' & Hr & _ & Ht & _).
  exists t, d'. split; [exact Hr | exact Ht].
Defined.

Lemma first_project_with_the_slug_wins_witness :
  findProject (Some "school") Sample.manifest = Some Sample.school
  /\ exists before after,
       default [] (projects Sample.manifest) = before ++ Sample.school :: after
       /\ forall q, q ∈ before -> slug q <> slug Sample.school.
Proof.
  split; [reflexivity |].
  exact (proj2 (first_project_with_the_slug_wins (Some "school")
                  Sample.manifest Sample.school eq_refl)).
Defined.

End MoreInstances.
